(** * read_pdf.py: the PDF outline extractor, embedded and verified

    A shallow embedding of [PDFOutlineExtractor] (src/read_pdf.py).

    Modelling decisions, fixed once for the whole development:

    - A Python [str] is a list of code points.  The development covers the
      code points U+0000..U+00FF, carried by [ascii]; the character classes
      below ([\s], [\d], [str.strip], [str.lower]) are Python's classes
      restricted to that range.
    - A font size is the value of [round(span["size"], 1)].  Such a value is a
      finite decimal with one fractional digit, so it is carried exactly as an
      integer number of tenths ([Z]); order and equality are those of the
      rounded floats.  The default body size [10.0] is [100].
    - Coordinates and the page height stay binary64 floats ([PrimFloat]), the
      margins are computed with the float product the code uses.
    - The PyMuPDF document is the external collaborator.  It is modelled by the
      data it hands out: a list of pages, each with a height and the result of
      [get_text("dict")] (which may raise), blocks with or without a ["lines"]
      key, lines with or without a ["spans"] key.
    - Exceptions are explicit: [outcome A] is either [Ok a] or [Raise e], and
      [try ... except Exception] is a match on it. *)

From Stdlib Require Import ZArith List Ascii Bool Lia PrimFloat Sorting.Sorted Permutation.
From stdpp Require Import base gmap sets list strings.

Set Warnings "-inexact-float".

Open Scope Z_scope.
Open Scope list_scope.

(** ** Python values *)

Module Py.

Definition char := ascii.
Definition str := list char.

(** A string literal of the source. *)
Definition lit (s : String.string) : str := String.list_ascii_of_string s.

Definition code (c : char) : N := N_of_ascii c.

Definition in_range (lo hi : N) (c : char) : bool :=
  ((lo <=? code c) && (code c <=? hi))%N.

(** [str.isspace] on one code point: TAB..CR, FS..US, SPACE, NEL, NBSP. *)
Definition isspace (c : char) : bool :=
  in_range 9 13 c || in_range 28 32 c
  || (code c =? 133)%N || (code c =? 160)%N.

(** Unicode category Nd below U+0100: the ten ASCII digits. *)
Definition isdecimal (c : char) : bool := in_range 48 57 c.

Definition isupper_az (c : char) : bool := in_range 65 90 c.
Definition islower_az (c : char) : bool := in_range 97 122 c.

(** [str.lower] on one code point: A-Z and the Latin-1 capitals
    U+00C0..U+00DE (the multiplication sign U+00D7 apart) move up by 32. *)
Definition lower_char (c : char) : char :=
  if in_range 65 90 c || (in_range 192 222 c && negb (code c =? 215)%N)
  then ascii_of_N (code c + 32)
  else c.

Definition lower (s : str) : str := map lower_char s.

Fixpoint lstrip (s : str) : str :=
  match s with
  | c :: s' => if isspace c then lstrip s' else s
  | [] => []
  end.

Definition rstrip (s : str) : str := rev (lstrip (rev s)).

Definition strip (s : str) : str := rstrip (lstrip s).

(** [sep.join(parts)] *)
Fixpoint join (sep : str) (parts : list str) : str :=
  match parts with
  | [] => []
  | [p] => p
  | p :: ps => p ++ sep ++ join sep ps
  end.

(** [s.split(c)] for a one-character separator: always [count c + 1]
    parts. *)
Fixpoint split (sep : char) (s : str) : list str :=
  match s with
  | [] => [[]]
  | c :: s' =>
      if Ascii.eqb c sep then [] :: split sep s'
      else match split sep s' with
           | p :: ps => (c :: p) :: ps
           | [] => [[c]]
           end
  end.

(** Truthiness of a [str] or a [list]: non-empty. *)
Definition truthy {A} (l : list A) : bool :=
  match l with [] => false | _ => true end.

(** Exceptions and results. *)
Inductive exn := OSError | IndexError | KeyError | ValueError | RuntimeError.

Inductive outcome (A : Type) :=
| Ok (a : A)
| Raise (e : exn).
Arguments Ok {A} a.
Arguments Raise {A} e.

Definition bind {A B} (m : outcome A) (k : A -> outcome B) : outcome B :=
  match m with
  | Ok a => k a
  | Raise e => Raise e
  end.

(** A [for] loop whose body may raise: the first exception leaves the loop. *)
Fixpoint for_each {A S} (body : S -> A -> outcome S) (l : list A) (s : S)
  : outcome S :=
  match l with
  | [] => Ok s
  | x :: l' => bind (body s x) (for_each body l')
  end.

(** [enumerate(l)] *)
Fixpoint enumerate_from {A} (i : nat) (l : list A) : list (nat * A) :=
  match l with
  | [] => []
  | x :: l' => (i, x) :: enumerate_from (S i) l'
  end.
Definition enumerate {A} (l : list A) := enumerate_from 0 l.

(** [max(iterable)]: [ValueError] on an empty iterable. *)
Definition max_of (l : list Z) : outcome Z :=
  match l with
  | [] => Raise ValueError
  | x :: l' => Ok (fold_left Z.max l' x)
  end.

(** [list.sort] and [sorted] are stable.  [le] is the order on the sort
    keys; an element is placed in front of the first one it does not
    exceed, so equal keys keep their order of arrival. *)
Section Sort.
Context {A : Type} (le : A -> A -> bool).

Fixpoint sort_insert (x : A) (l : list A) : list A :=
  match l with
  | [] => [x]
  | y :: l' => if le x y then x :: l else y :: sort_insert x l'
  end.

Fixpoint sorted (l : list A) : list A :=
  match l with
  | [] => []
  | x :: l' => sort_insert x (sorted l')
  end.
End Sort.

(** The key order of [sorted(..., reverse=True)] on sizes. *)
Definition desc (x y : Z) : bool := y <=? x.

(** [set(iterable)] followed by a sort: only the distinct elements
    matter. *)
Fixpoint distinct (l : list Z) : list Z :=
  match l with
  | [] => []
  | x :: l' => if existsb (Z.eqb x) l' then distinct l' else x :: distinct l'
  end.

(** [Counter(iterable)]: a dict in insertion order. *)
Fixpoint counter_incr (x : Z) (c : list (Z * nat)) : list (Z * nat) :=
  match c with
  | [] => [(x, 1%nat)]
  | (y, n) :: c' => if x =? y then (y, S n) :: c' else (y, n) :: counter_incr x c'
  end.

Definition counter (l : list Z) : list (Z * nat) :=
  fold_left (fun c x => counter_incr x c) l [].

(** [Counter.most_common(1)]: the first entry with the highest count. *)
Definition most_common_1 (c : list (Z * nat)) : list (Z * nat) :=
  match c with
  | [] => []
  | e :: c' =>
      [fold_left (fun best e' => if (snd best <? snd e')%nat then e' else best) c' e]
  end.

End Py.

Import Py.

Notation "x <- m ;; k" := (bind m (fun x => k))
  (at level 100, m at next level, right associativity).

(** ** Regular expressions, with [re]'s backtracking order

    [run n0 r s] lists the suffixes of [s] left after a match of [r] at the
    front of [s], in the order in which the backtracking matcher of [re]
    finds them: alternation tries the left branch first, repetition is
    greedy.  The head of the list is the match [re] reports.  [n0] is the
    length of the whole subject, for the anchor [^].  No starred expression
    of the source matches the empty string; an iteration that consumes
    nothing is cut. *)

Module Re.

Inductive re :=
| Eps
| Bos                       (* ^ *)
| Eos                       (* $ : at the end, or before a final newline *)
| Cls (p : char -> bool)    (* one code point of a class *)
| Seq (a b : re)
| Alt (a b : re)
| Star (a : re).

Definition Plus (a : re) : re := Seq a (Star a).

(** [a{n,}] *)
Fixpoint AtLeast (n : nat) (a : re) : re :=
  match n with
  | O => Star a
  | S n' => Seq a (AtLeast n' a)
  end.

Definition Chr (c : char) : re := Cls (Ascii.eqb c).

Fixpoint Lit (s : str) : re :=
  match s with
  | [] => Eps
  | c :: s' => Seq (Chr c) (Lit s')
  end.

(** [.] : any code point but a newline. *)
Definition Dot : re := Cls (fun c => negb (Ascii.eqb c "010"%char)).

Definition or_cls (p q : char -> bool) : char -> bool := fun c => p c || q c.

Fixpoint star_loop (step : str -> list str) (fuel : nat) (s : str) : list str :=
  match fuel with
  | O => [s]
  | S fuel' =>
      flat_map (fun s' => if (length s' <? length s)%nat
                          then star_loop step fuel' s' else [])
               (step s)
      ++ [s]
  end.

Fixpoint run (n0 : nat) (r : re) (s : str) : list str :=
  match r with
  | Eps => [s]
  | Bos => if (length s =? n0)%nat then [s] else []
  | Eos =>
      match s with
      | [] => [s]
      | [c] => if Ascii.eqb c "010"%char then [s] else []
      | _ => []
      end
  | Cls p =>
      match s with
      | c :: s' => if p c then [s'] else []
      | [] => []
      end
  | Seq a b => flat_map (run n0 b) (run n0 a s)
  | Alt a b => run n0 a s ++ run n0 b s
  | Star a => star_loop (run n0 a) (length s) s
  end.

(** [re.match(r, s)]: the text matched at the front of [s], if any. *)
Definition match_ (r : re) (s : str) : option str :=
  match run (length s) r s with
  | s' :: _ => Some (take (length s - length s') s)
  | [] => None
  end.

(** [re.fullmatch(r, s)] as a truth value. *)
Definition fullmatch (r : re) (s : str) : bool :=
  existsb (fun s' => negb (truthy s')) (run (length s) r s).

(** [re.search(r, s)] as a truth value: a match at some position. *)
Fixpoint search_from (n0 : nat) (r : re) (s : str) : bool :=
  truthy (run n0 r s)
  || match s with
     | [] => false
     | _ :: s' => search_from n0 r s'
     end.

Definition search (r : re) (s : str) : bool := search_from (length s) r s.

(** [re.sub(r, rep, s)]: leftmost matches, left to right; an empty match is
    replaced too and the scan moves on one code point. *)
Fixpoint sub_loop (fuel n0 : nat) (r : re) (rep s : str) : str :=
  match fuel with
  | O => s
  | S fuel' =>
      match run n0 r s with
      | s' :: _ =>
          if (length s' <? length s)%nat
          then rep ++ sub_loop fuel' n0 r rep s'
          else rep ++ match s with
                      | [] => []
                      | c :: t => c :: sub_loop fuel' n0 r rep t
                      end
      | [] =>
          match s with
          | [] => []
          | c :: t => c :: sub_loop fuel' n0 r rep t
          end
      end
  end.

Definition sub (r : re) (rep s : str) : str :=
  sub_loop (S (length s)) (length s) r rep s.

End Re.

Import Re.

Notation "a ⨾ b" := (Seq a b) (at level 60, right associativity).

(** ** The document handed out by PyMuPDF *)

Definition bbox : Type := float * float * float * float.

(** [bbox[1]] *)
Definition bbox_y1 (b : bbox) : float := snd (fst (fst b)).

(** One style span.  [sp_size] is [round(span["size"], 1)] in tenths. *)
Record span := {
  sp_text : str;
  sp_font : str;
  sp_size : Z;
  sp_flags : Z
}.

(** A line of a text block; the ["spans"] key may be missing. *)
Record rawline := {
  rl_spans : option (list span);
  rl_bbox : bbox
}.

(** A block; image blocks have no ["lines"] key. *)
Record block := {
  bl_lines : option (list rawline)
}.

(** A page: [page.rect.height] and [page.get_text("dict").get("blocks", [])],
    which raises when the page cannot be decoded. *)
Record page := {
  pg_height : float;
  pg_blocks : outcome (list block)
}.

Definition doc := list page.

Definition page_count (d : doc) : nat := length d.

(** [doc[i]] *)
Definition doc_getitem (d : doc) (i : nat) : outcome page :=
  match nth_error d i with
  | Some p => Ok p
  | None => Raise IndexError
  end.

(** What a path leads to: nothing ([os.path.exists] is false), a file that
    [fitz.open] rejects, or a document. *)
Inductive pdf_file :=
| Missing
| Unopenable (e : exn)
| Opened (d : doc).

Definition filesystem := str -> pdf_file.

(** ** The data model of the extractor *)

(** A cleaned text line, the dict built by [extract_text_lines]. *)
Record line := {
  l_text : str;
  l_font : str;
  l_size : Z;
  l_flags : Z;
  l_bbox : bbox;
  l_page : nat
}.

Inductive level := H1 | H2 | H3.

Record entry := {
  e_level : level;
  e_text : str;
  e_page : nat
}.

Record DocumentResult := {
  title : str;
  outline : list entry
}.

Definition error_result : DocumentResult :=
  {| title := lit "Error: Could Not Process Document"; outline := [] |}.

(** ** PDFOutlineExtractor *)

Definition cls_digit : re := Cls isdecimal.
Definition cls_space : re := Cls isspace.
Definition cls_upper : re := Cls isupper_az.
Definition cls_lower : re := Cls islower_az.

Definition is_roman (c : char) : bool :=
  existsb (Ascii.eqb c) (lit "IVXLCDM").

(** One more segment of a dotted numbering: [\.\d+] *)
Definition segment_re : re := Chr "."%char ⨾ Plus cls_digit.

(** [self.heading_patterns] *)
Definition heading_patterns : list re := [
  (* ^\d+(\.\d+)*\s+.* *)
  Bos ⨾ Plus cls_digit ⨾ Star segment_re ⨾ Plus cls_space ⨾ Star Dot;
  (* ^(Chapter|Section)\s+([A-Z]|\d+)\s+.* *)
  Bos ⨾ Alt (Lit (lit "Chapter")) (Lit (lit "Section")) ⨾ Plus cls_space
      ⨾ Alt cls_upper (Plus cls_digit) ⨾ Plus cls_space ⨾ Star Dot;
  (* ^[A-Z\s]{3,}$ *)
  Bos ⨾ AtLeast 3 (Cls (or_cls isupper_az isspace)) ⨾ Eos;
  (* ^([A-Z][a-z]+)(\s[A-Z][a-z]+)+$ *)
  Bos ⨾ (cls_upper ⨾ Plus cls_lower) ⨾ Plus (cls_space ⨾ cls_upper ⨾ Plus cls_lower) ⨾ Eos;
  (* ^[IVXLCDM]+\.\s+.+ *)
  Bos ⨾ Plus (Cls is_roman) ⨾ Chr "."%char ⨾ Plus cls_space ⨾ Plus Dot
].

(** [self.explicit_headings] *)
Definition explicit_headings : gset str :=
  list_to_set (map lit [
    "acknowledgements"; "revision history"; "table of contents";
    "references"; "trademarks"; "introduction"; "overview"
  ]%string).

(** The line text both scans compute:
    [" ".join(s["text"].strip() for s in spans if s["text"].strip()).strip()] *)
Definition line_text (spans : list span) : str :=
  strip (join (lit " ")
           (map (fun s => strip (sp_text s))
              (filter (fun s => truthy (strip (sp_text s)) = true) spans))).

(** The two counters of [_identify_headers_and_footers]. *)
Definition candidates : Type := gmap str nat * gmap str nat.

(** [d[k] += 1] on a [defaultdict(int)] *)
Definition incr (k : str) (m : gmap str nat) : gmap str nat :=
  <[k := S (default 0%nat (m !! k))]> m.

Definition scan_line (header_margin footer_margin : float)
    (st : candidates) (ln : rawline) : outcome candidates :=
  match rl_spans ln with
  | None => Raise KeyError
  | Some spans =>
      let text := line_text spans in
      if negb (truthy text) || (length text <? 4)%nat then Ok st
      else
        let y1 := bbox_y1 (rl_bbox ln) in
        if PrimFloat.ltb y1 header_margin then Ok (incr text (fst st), snd st)
        else if PrimFloat.ltb footer_margin y1 then Ok (fst st, incr text (snd st))
        else Ok st
  end.

Definition scan_block (header_margin footer_margin : float)
    (st : candidates) (b : block) : outcome candidates :=
  match bl_lines b with
  | Some lines => for_each (scan_line header_margin footer_margin) lines st
  | None => Ok st
  end.

Definition scan_page (header_margin footer_margin : float)
    (st : candidates) (p : page) : outcome candidates :=
  blocks <- pg_blocks p ;;
  for_each (scan_block header_margin footer_margin) blocks st.

(** [max(doc.page_count // 2, 2) if doc.page_count > 2 else 1] *)
Definition threshold (pc : nat) : nat :=
  if (2 <? pc)%nat then Nat.max (pc / 2) 2 else 1%nat.

(** [for text, count in cands.items(): if count >= threshold: add(text)] *)
Definition add_common (thr : nat) (cands : gmap str nat) (common : gset str)
  : gset str :=
  map_fold (fun text count acc =>
              if (thr <=? count)%nat then {[text]} ∪ acc else acc)
           common cands.

Definition _identify_headers_and_footers (d : doc) : outcome (gset str) :=
  if (page_count d =? 0)%nat then Ok ∅
  else
    first <- doc_getitem d 0 ;;
    let page_height := pg_height first in
    let header_margin := PrimFloat.mul page_height 0.15%float in
    let footer_margin := PrimFloat.mul page_height 0.85%float in
    st <- for_each (scan_page header_margin footer_margin) d (∅, ∅) ;;
    let thr := threshold (page_count d) in
    Ok (add_common thr (snd st) (add_common thr (fst st) ∅)).

(** [\s\.{3,}\s*\d+$] *)
Definition dot_leader : re :=
  cls_space ⨾ AtLeast 3 (Chr "."%char) ⨾ Star cls_space ⨾ Plus cls_digit ⨾ Eos.

(** The body of the innermost loop of [extract_text_lines]: the cleaned
    line a raw line gives, or [None] when the line is skipped. *)
Definition clean_line (headers_and_footers : gset str) (page_num : nat)
    (ln : rawline) : option line :=
  match rl_spans ln with
  | None | Some [] => None
  | Some ((first_span :: _) as spans) =>
      let text := line_text spans in
      if negb (truthy text) then None
      else if bool_decide (text ∈ headers_and_footers) then None
      else if search dot_leader text then None
      else Some {| l_text := text;
                   l_font := sp_font first_span;
                   l_size := sp_size first_span;
                   l_flags := sp_flags first_span;
                   l_bbox := rl_bbox ln;
                   l_page := (page_num + 1)%nat |}
  end.

Definition clean_block (hf : gset str) (page_num : nat) (b : block) : list line :=
  match bl_lines b with
  | Some lines => omap (clean_line hf page_num) lines
  | None => []
  end.

Definition clean_page (hf : gset str) (all_lines : list line)
    (ip : nat * page) : outcome (list line) :=
  blocks <- pg_blocks (snd ip) ;;
  Ok (all_lines ++ flat_map (clean_block hf (fst ip)) blocks).

(** The [try] body of [extract_text_lines]. *)
Definition extract_text_lines_body (fs : filesystem) (pdf_path : str)
  : outcome (list line) :=
  match fs pdf_path with
  | Missing => Ok []
  | Unopenable e => Raise e
  | Opened d =>
      if (page_count d =? 0)%nat then Ok []
      else
        headers_and_footers <- _identify_headers_and_footers d ;;
        for_each (clean_page headers_and_footers) (enumerate d) []
  end.

(** [extract_text_lines]: [except Exception: return []]. *)
Definition extract_text_lines (fs : filesystem) (pdf_path : str) : list line :=
  match extract_text_lines_body fs pdf_path with
  | Ok all_lines => all_lines
  | Raise _ => []
  end.

Definition untitled : str := lit "Untitled Document".

(** [\s+] *)
Definition spaces_re : re := Plus cls_space.

Definition extract_title (text_lines : list line) : outcome str :=
  if negb (truthy text_lines) then Ok untitled
  else
    let first_page_lines :=
      take 30 (filter (fun l => l_page l = 1%nat) text_lines) in
    let second_page_lines :=
      take 30 (filter (fun l => l_page l = 2%nat) text_lines) in
    if negb (truthy first_page_lines) && negb (truthy second_page_lines)
    then Ok untitled
    else
      let first_page_lines :=
        if truthy first_page_lines then first_page_lines else second_page_lines in
      max_size <- max_of (map l_size first_page_lines) ;;
      let title_candidates :=
        map l_text (filter (fun l => l_size l = max_size) first_page_lines) in
      let title := strip (join (lit " ") title_candidates) in
      let title := sub spaces_re (lit " ") title in
      let title :=
        if (150 <? length title)%nat then take 147 title ++ lit "..." else title in
      Ok (if truthy title then title else untitled).

Definition analyze_font_styles (text_lines : list line) : Z * list Z :=
  if negb (truthy text_lines) then (100, [])
  else
    let size_frequency := counter (map l_size text_lines) in
    let body_size :=
      match most_common_1 size_frequency with
      | e :: _ => fst e
      | [] => 100
      end in
    let heading_sizes :=
      sorted desc
        (filter (fun size => body_size < size) (map fst size_frequency)) in
    (body_size, heading_sizes).

(** [re.fullmatch(r'\d+', text)] *)
Definition digits_re : re := Plus cls_digit.

Definition is_likely_heading (l : line) : bool :=
  let text := l_text l in
  if (length text <? 3)%nat || (200 <? length text)%nat then false
  else if fullmatch digits_re text then false
  else if bool_decide (strip (lower text) ∈ explicit_headings) then true
  else if existsb (fun pattern => bool_decide (is_Some (match_ pattern text)))
            heading_patterns then true
  else if negb (Z.land (l_flags l) 16 =? 0) then true
  else false.

(** [l.index(x)] *)
Fixpoint index_of (x : Z) (l : list Z) : outcome nat :=
  match l with
  | [] => Raise ValueError
  | y :: l' => if x =? y then Ok 0%nat else i <- index_of x l' ;; Ok (S i)
  end.

(** The pattern of [classify_heading_level]: [^] then the group
    [\d+(\.\d+)*], which is the whole match. *)
Definition numbering_re : re := Bos ⨾ Plus cls_digit ⨾ Star segment_re.

Definition classify_heading_level (l : line) (heading_sizes : list Z) : level :=
  let font_size := l_size l in
  let text := l_text l in
  let level :=
    match index_of font_size heading_sizes with
    | Ok level_index =>
        match level_index with
        | 0%nat => H1
        | 1%nat => H2
        | _ => H3
        end
    | Raise _ => H3
    end in
  match match_ numbering_re text with
  | Some group1 =>
      let num_parts := split "."%char group1 in
      match length num_parts with
      | 1%nat => H1
      | 2%nat => H2
      | _ => H3
      end
  | None => level
  end.

(** [l[-1]] *)
Definition last_item (l : list Z) : outcome Z :=
  match rev l with
  | x :: _ => Ok x
  | [] => Raise IndexError
  end.

(** The fallback of [extract_outline] when no heading size was found. *)
Definition size_fallback (text_lines : list line) (sizes : Z * list Z)
  : outcome (Z * list Z) :=
  let '(body_size, heading_sizes) := sizes in
  if negb (truthy heading_sizes) then
    let unique_sizes :=
      sorted desc (distinct (map l_size text_lines)) in
    if (1 <? length unique_sizes)%nat then
      body_size <- last_item unique_sizes ;;
      Ok (body_size, filter (fun s => body_size < s) unique_sizes)
    else Ok (body_size, heading_sizes)
  else Ok (body_size, heading_sizes).

(** The key of the de-duplication set. *)
Definition heading_key (l : line) : str * nat := (lower (l_text l), l_page l).

(** One turn of the main loop of [extract_outline]; the state is the outline
    built so far and [seen_headings]. *)
Definition outline_step (title : str) (body_size : Z) (heading_sizes : list Z)
    (st : list entry * gset (str * nat)) (l : line)
  : list entry * gset (str * nat) :=
  let '(outline, seen_headings) := st in
  if l_size l <=? body_size then st
  else if is_likely_heading l then
    let heading_text := l_text l in
    let page_num := l_page l in
    if bool_decide (strip heading_text = strip title) && (page_num <=? 2)%nat
    then st
    else
      let heading_key := (lower heading_text, page_num) in
      if bool_decide (heading_key ∈ seen_headings) then st
      else
        let seen_headings := {[heading_key]} ∪ seen_headings in
        let level := classify_heading_level l heading_sizes in
        (outline ++ [{| e_level := level; e_text := heading_text; e_page := page_num |}],
         seen_headings)
  else st.

(** The main loop of [extract_outline]: the outline in insertion order. *)
Definition assemble (title : str) (body_size : Z) (heading_sizes : list Z)
    (text_lines : list line) : list entry :=
  fst (fold_left (outline_step title body_size heading_sizes) text_lines ([], ∅)).

(** The order of [outline.sort(key=lambda x: x['page'])]. *)
Definition by_page (a b : entry) : bool := (e_page a <=? e_page b)%nat.

(** The part of [extract_outline] that follows the extraction of the lines. *)
Definition outline_of_lines (text_lines : list line) : outcome DocumentResult :=
  if negb (truthy text_lines) then Ok error_result
  else
    title <- extract_title text_lines ;;
    sizes <- size_fallback text_lines (analyze_font_styles text_lines) ;;
    let '(body_size, heading_sizes) := sizes in
    let outline := assemble title body_size heading_sizes text_lines in
    Ok {| title := title; outline := sorted by_page outline |}.

Definition extract_outline (fs : filesystem) (pdf_path : str) : outcome DocumentResult :=
  outline_of_lines (extract_text_lines fs pdf_path).

(** ** The properties, in the words of the specification *)

Module Spec.

(** Level from the number of numeric segments of a dotted prefix. *)
Definition level_of_segments (n : nat) : level :=
  match n with
  | 1%nat => H1
  | 2%nat => H2
  | _ => H3
  end.

(** A string of digits, at least one. *)
Definition is_number (d : str) : Prop := d ≠ [] ∧ Forall (fun c => isdecimal c = true) d.

(** The segments that follow the first one, each with its dot. *)
Definition dotted (segs : list str) : str :=
  concat (map (fun d => "."%char :: d) segs).

(** The text that follows a dotted numeric prefix does not extend it: it
    starts neither with a digit nor with a dot and a digit. *)
Definition ends_numbering (rest : str) : bool :=
  match rest with
  | [] => true
  | c :: rest' =>
      negb (isdecimal c)
      && negb (Ascii.eqb c "."%char
               && match rest' with d :: _ => isdecimal d | [] => false end)
  end.

(** The table-of-contents shape: one or more spaces, three or more dots,
    optional spaces, one or more digits, end of the text. *)
Definition dot_leader_shape (t : str) : Prop :=
  ∃ pre spaces dots spaces' digits : str,
    t = pre ++ spaces ++ dots ++ spaces' ++ digits
    ∧ spaces ≠ [] ∧ Forall (fun c => c = " "%char) spaces
    ∧ (3 <= length dots)%nat ∧ Forall (fun c => c = "."%char) dots
    ∧ Forall (fun c => c = " "%char) spaces'
    ∧ is_number digits.

(** A heading line of the assembler: larger than the body size, a heading
    candidate, and not the title repeated on the first two pages. *)
Definition is_heading_line (title : str) (body_size : Z) (l : line) : bool :=
  (body_size <? l_size l)
  && is_likely_heading l
  && negb (bool_decide (strip (l_text l) = strip title) && (l_page l <=? 2)%nat).

(** The key of an outline entry: lowercased text and page. *)
Definition entry_key (e : entry) : str * nat := (lower (e_text e), e_page e).

(** The outline entry a line gives. *)
Definition entry_of (heading_sizes : list Z) (l : line) : entry :=
  {| e_level := classify_heading_level l heading_sizes;
     e_text := l_text l;
     e_page := l_page l |}.

(** What the loop has built after [lines]. *)
Record loop_inv (title : str) (body : Z) (hs : list Z) (lines : list line)
    (st : list entry * gset (str * nat)) : Prop := {
  inv_seen : forall k, k ∈ snd st <-> In k (map entry_key (fst st));
  inv_nodup : List.NoDup (map entry_key (fst st));
  inv_first : forall e, In e (fst st) ->
    exists l1 l l2, lines = l1 ++ l :: l2
      /\ is_heading_line title body l = true
      /\ e = entry_of hs l
      /\ forall l', In l' l1 -> is_heading_line title body l' = true ->
           heading_key l' <> heading_key l;
  inv_all : forall l, In l lines -> is_heading_line title body l = true ->
    heading_key l ∈ snd st
}.

(** Whitespace runs collapsed to single spaces; [in_run] tells that the
    previous code point was whitespace. *)
Fixpoint collapse (in_run : bool) (s : str) : str :=
  match s with
  | [] => []
  | c :: s' =>
      if isspace c
      then if in_run then collapse true s' else " "%char :: collapse true s'
      else c :: collapse false s'
  end.

Definition collapse_ws (s : str) : str := collapse false s.

(** The lines the title is taken from: the first 30 of page 1, or the first
    30 of page 2 when page 1 has none. *)
Definition title_lines (text_lines : list line) : list line :=
  match filter (fun l => l_page l = 1%nat) text_lines with
  | [] => take 30 (filter (fun l => l_page l = 2%nat) text_lines)
  | first_page => take 30 first_page
  end.

(** The title built from the candidate lines and their largest size. *)
Definition title_of (cands : list line) (max_size : Z) : str :=
  let joined :=
    join (lit " ") (map l_text (filter (fun l => l_size l = max_size) cands)) in
  let t := collapse_ws (strip joined) in
  match t with
  | [] => untitled
  | _ => if (150 <? length t)%nat then take 147 t ++ lit "..." else t
  end.

(** Margin zones, from the height of the first page. *)
Inductive zone := HeaderZone | FooterZone | BodyZone.

Definition zone_of (page_height : float) (ln : rawline) : zone :=
  let y1 := bbox_y1 (rl_bbox ln) in
  if PrimFloat.ltb y1 (PrimFloat.mul page_height 0.15%float) then HeaderZone
  else if PrimFloat.ltb (PrimFloat.mul page_height 0.85%float) y1 then FooterZone
  else BodyZone.

Definition block_lines (b : block) : list rawline :=
  match bl_lines b with Some ls => ls | None => [] end.

Definition page_lines (p : page) : list rawline :=
  match pg_blocks p with Ok bs => flat_map block_lines bs | Raise _ => [] end.

(** All the lines of a document, in reading order. *)
Definition raw_lines (d : doc) : list rawline := flat_map page_lines d.

Definition raw_text (ln : rawline) : str :=
  match rl_spans ln with Some spans => line_text spans | None => [] end.

(** A line counts for text [t] in zone [z]: its text is [t], of four code
    points or more, and it lies in [z]. *)
Definition counts_for (page_height : float) (z : zone) (t : str) (ln : rawline) : bool :=
  bool_decide (raw_text ln = t) && (4 <=? length t)%nat
  && match zone_of page_height ln, z with
     | HeaderZone, HeaderZone | FooterZone, FooterZone | BodyZone, BodyZone => true
     | _, _ => false
     end.

(** The occurrence count of a text in a zone. *)
Definition occurrences (page_height : float) (z : zone) (t : str) (lines : list rawline) : nat :=
  length (List.filter (counts_for page_height z t) lines).

(** The counters hold the occurrence counts of the lines scanned so far. *)
Definition counted (page_height : float) (st : candidates) (scanned : list rawline) : Prop :=
  forall t,
    default 0%nat (fst st !! t) = occurrences page_height HeaderZone t scanned
    /\ default 0%nat (snd st !! t) = occurrences page_height FooterZone t scanned.

(** Every page decodes and every line has its spans. *)
Definition decodable (d : doc) : Prop :=
  Forall (fun p => ∃ bs, pg_blocks p = Ok bs) d
  ∧ Forall (fun ln => is_Some (rl_spans ln)) (raw_lines d).

End Spec.

Import Spec.

(** ** A sample document

    Three pages of 800 points.  Page 1 carries the title, a heading and the
    same heading in another case, a table-of-contents line and body text;
    pages 2 and 3 repeat the heading and carry numbered headings.  The footer
    ["Confidential"] is on every page. *)

Module Sample.

Definition mk_span (t : String.string) (size flags : Z) : span :=
  {| sp_text := lit t; sp_font := lit "Helvetica"; sp_size := size; sp_flags := flags |}.

Definition mk_line (t : String.string) (size flags : Z) (y : float) : rawline :=
  {| rl_spans := Some [mk_span t size flags];
     rl_bbox := (72, y, 540, PrimFloat.add y 12)%float |}.

Definition footer : rawline := mk_line "Confidential" 90 0 780%float.

Definition page_1 : page :=
  {| pg_height := 800%float;
     pg_blocks := Ok [
       {| bl_lines := Some [
            mk_line "Annual Report" 240 0 200%float;
            mk_line "Overview" 160 0 260%float;
            mk_line "The year in one paragraph." 120 0 290%float;
            mk_line "OVERVIEW" 160 16 320%float;
            mk_line "Overview .... 2" 120 0 350%float;
            mk_line "More body text follows here." 120 0 380%float;
            mk_line "And a third line of body text." 120 0 410%float ] |};
       {| bl_lines := None |};
       {| bl_lines := Some [footer] |} ] |}.

Definition page_2 : page :=
  {| pg_height := 800%float;
     pg_blocks := Ok [
       {| bl_lines := Some [
            mk_line "Overview" 160 0 200%float;
            mk_line "The second page starts here." 120 0 230%float;
            mk_line "2.1 Details" 140 0 260%float;
            mk_line "Body text of the details." 120 0 290%float;
            footer ] |} ] |}.

Definition page_3 : page :=
  {| pg_height := 800%float;
     pg_blocks := Ok [
       {| bl_lines := Some [
            mk_line "3 Results" 140 0 200%float;
            mk_line "Body text of the results." 120 0 230%float;
            mk_line "Body text, once more." 120 0 260%float;
            footer ] |} ] |}.

Definition document : doc := [page_1; page_2; page_3].

Definition path : str := lit "report.pdf".

Definition files : filesystem :=
  fun p => if bool_decide (p = path) then Opened document else Missing.

Definition lines : list line := Eval vm_compute in extract_text_lines files path.

Definition result : DocumentResult :=
  Eval vm_compute in
    match extract_outline files path with
    | Ok r => r
    | Raise _ => error_result
    end.

(** One page: a line at size 24 and four lines at size 12. *)
Definition report_page : page :=
  {| pg_height := 800%float;
     pg_blocks := Ok [
       {| bl_lines := Some [
            mk_line "Annual Report" 240 0 200%float;
            mk_line "revenue grew during the year" 120 0 260%float;
            mk_line "costs stayed where they were" 120 0 290%float;
            mk_line "the outlook is unchanged" 120 0 320%float;
            mk_line "details follow in the annex" 120 0 350%float ] |} ] |}.

(** A cleaned line of page 1 with the given text. *)
Definition text_line (t : str) : line :=
  {| l_text := t; l_font := lit "Helvetica"; l_size := 240; l_flags := 0;
     l_bbox := (72, 100, 540, 112)%float; l_page := 1 |}.

(** Three cleaned lines whose most frequent size is also the largest. *)
Definition dense_lines : list line :=
  map (fun ts : String.string * Z =>
         {| l_text := lit (fst ts); l_font := lit "Helvetica"; l_size := snd ts;
            l_flags := 0; l_bbox := (72, 100, 540, 112)%float; l_page := 1 |})
      [("First line of text", 120); ("Second line of text", 120);
       ("a footnote", 100)]%string.

(** A page whose only lines are a repeated header, a table-of-contents
    line and a blank line: nothing is left after cleaning. *)
Definition blank_document : doc :=
  [ {| pg_height := 800%float;
       pg_blocks := Ok [
         {| bl_lines := Some [
              mk_line "Draft copy" 100 0 40%float;
              mk_line "Contents .... 3" 120 0 300%float;
              mk_line "   " 120 0 330%float ] |} ] |} ].

End Sample.

(** ** Shapes of heading texts *)

Module Shape.

(** Whitespace, at least one code point. *)
Definition is_blank (ws : str) : Prop :=
  ws <> [] /\ Forall (fun c => isspace c = true) ws.

(** A capitalized word: a letter A-Z and one or more letters a-z. *)
Definition is_word (w : str) : Prop :=
  exists u ls, w = u :: ls /\ isupper_az u = true
    /\ ls <> [] /\ Forall (fun c => islower_az c = true) ls.

(** Words, each behind one whitespace code point. *)
Definition spaced (sws : list (char * str)) : str :=
  concat (map (fun sw => fst sw :: snd sw) sws).

(** The identifier of a chapter or a section: one letter A-Z, or a number. *)
Definition is_ident (i : str) : Prop :=
  (exists u, i = [u] /\ isupper_az u = true) \/ is_number i.

(** No two whitespace code points in a row. *)
Fixpoint single_spaced (s : str) : bool :=
  match s with
  | a :: s' =>
      match s' with
      | b :: _ => negb (isspace a && isspace b) && single_spaced s'
      | [] => true
      end
  | [] => true
  end.

End Shape.

Import Shape.

(** ** Frequencies of sizes *)

Module Freq.

(** The distinct sizes, in the order of their first appearance. *)
Fixpoint firsts (l : list Z) : list Z :=
  match l with
  | [] => []
  | x :: l' => x :: List.filter (fun y => negb (y =? x)) (firsts l')
  end.

(** The number of occurrences of a size. *)
Definition occurs (s : Z) (sizes : list Z) : nat := count_occ Z.eq_dec sizes s.

End Freq.

Import Freq.

(** ** The main block: the choice of the file

    [os.listdir] and [input] followed by [int] are the outside world; each
    gives a value or raises.  Every [except] clause of the block ends in
    [sys.exit(1)]. *)

Module Cli.

Inductive selection :=
| Exit (status : Z)
| Selected (pdf : str).

(** [s.endswith(suffix)] *)
Definition endswith (s suffix : str) : bool :=
  (length suffix <=? length s)%nat
  && bool_decide (drop (length s - length suffix) s = suffix).

(** [f.lower().endswith(".pdf")] *)
Definition is_pdf (f : str) : bool := endswith (lower f) (lit ".pdf").

(** [l[i]], negative indices counted from the end. *)
Definition getitem {A : Type} (l : list A) (i : Z) : outcome A :=
  let n := Z.of_nat (length l) in
  let j := if i <? 0 then i + n else i in
  if (j <? 0) || (n <=? j) then Raise IndexError
  else match nth_error l (Z.to_nat j) with
       | Some x => Ok x
       | None => Raise IndexError
       end.

(** The [try] body of the main block. *)
Definition select_body (listdir : outcome (list str)) (read_choice : outcome Z)
  : outcome selection :=
  all_files <- listdir ;;
  let pdf_files := List.filter is_pdf all_files in
  if negb (truthy pdf_files) then Ok (Exit 1)
  else
    choice <- read_choice ;;
    if negb ((1 <=? choice) && (choice <=? Z.of_nat (length pdf_files)))
    then Ok (Exit 1)
    else
      selected_pdf <- getitem pdf_files (choice - 1) ;;
      Ok (Selected selected_pdf).

Definition select (listdir : outcome (list str)) (read_choice : outcome Z)
  : selection :=
  match select_body listdir read_choice with
  | Ok s => s
  | Raise _ => Exit 1
  end.

End Cli.

(** ** More documents *)

Module Cases.

Definition body_lines (t1 t2 : String.string) : list rawline :=
  [Sample.mk_line t1 120 0 300%float; Sample.mk_line t2 120 0 330%float].

Definition page_of (lines : list rawline) : page :=
  {| pg_height := 800%float; pg_blocks := Ok [ {| bl_lines := Some lines |} ] |}.

(** The title line comes back on pages 2 and 3. *)
Definition echo_document : doc :=
  [ page_of (Sample.mk_line "Annual Report" 240 0 200%float
             :: body_lines "the first page of text" "and a second line");
    page_of (Sample.mk_line "Annual Report" 240 0 200%float
             :: body_lines "the second page of text" "and one more line");
    page_of (Sample.mk_line "Annual Report" 240 0 200%float
             :: body_lines "the third page of text" "and the last line") ].

(** One page, one size. *)
Definition plain_document : doc :=
  [ page_of (body_lines "all of this page" "has one font size") ].

(** The second page does not decode. *)
Definition broken_document : doc :=
  [ page_of (body_lines "a page that decodes" "with two lines");
    {| pg_height := 800%float; pg_blocks := Raise RuntimeError |} ].

(** One page with a heading in the top margin. *)
Definition memo_heading : rawline := Sample.mk_line "Meeting Notes" 180 16 60%float.

Definition memo_document : doc :=
  [ page_of (memo_heading :: body_lines "points of the meeting" "and the decisions") ].

Definition files (d : doc) : filesystem := fun _ => Opened d.

End Cases.

(** * Proofs *)

(** ** The matcher: first result and membership *)

Section RunFacts.

Context (n0 : nat).

Lemma head_app_Some {A} (l1 l2 : list A) (x : A) :
  head l1 = Some x -> head (l1 ++ l2) = Some x.
Proof. destruct l1; simpl; congruence. Qed.

Lemma head_flat_map {A B} (f : A -> list B) (l : list A) (x : A) (y : B) :
  head l = Some x -> head (f x) = Some y -> head (flat_map f l) = Some y.
Proof.
  destruct l as [|x' l]; simpl; [congruence|].
  intros [= ->] Hy. now apply head_app_Some.
Qed.

Lemma run_seq_head (a b : re) (s s1 s2 : str) :
  head (run n0 a s) = Some s1 ->
  head (run n0 b s1) = Some s2 ->
  head (run n0 (a ⨾ b) s) = Some s2.
Proof. intros Ha Hb. simpl. eapply head_flat_map; eauto. Qed.

Lemma run_seq_in (a b : re) (s s1 s2 : str) :
  In s1 (run n0 a s) -> In s2 (run n0 b s1) -> In s2 (run n0 (a ⨾ b) s).
Proof. intros Ha Hb. simpl. apply in_flat_map. eauto. Qed.

Lemma run_seq_nil (a b : re) (s : str) :
  run n0 a s = [] -> run n0 (a ⨾ b) s = [].
Proof. intros H. simpl. now rewrite H. Qed.

Lemma run_cls_hit (p : char -> bool) (c : char) (s : str) :
  p c = true -> run n0 (Cls p) (c :: s) = [s].
Proof. intros H. simpl. now rewrite H. Qed.

Lemma run_cls_miss (p : char -> bool) (s : str) :
  match s with c :: _ => p c = false | [] => True end ->
  run n0 (Cls p) s = [].
Proof. destruct s as [|c s]; simpl; [easy|]. now intros ->. Qed.

Lemma run_chr (a c : char) (s : str) :
  run n0 (Chr a) (c :: s) = if Ascii.eqb c a then [s] else [].
Proof. unfold Chr. cbn [run]. now rewrite Ascii.eqb_sym. Qed.

Lemma run_seq_eq (a b : re) (s : str) :
  run n0 (a ⨾ b) s = flat_map (run n0 b) (run n0 a s).
Proof. reflexivity. Qed.

Lemma run_star_eq (a : re) (s : str) :
  run n0 (Star a) s = star_loop (run n0 a) (length s) s.
Proof. reflexivity. Qed.

Lemma run_bos (s : str) : length s = n0 -> run n0 Bos s = [s].
Proof. intros <-. cbn [run]. now rewrite Nat.eqb_refl. Qed.

Lemma star_loop_stop (step : str -> list str) (fuel : nat) (s : str) :
  step s = [] -> star_loop step fuel s = [s].
Proof. intros H. destruct fuel; simpl; [easy|]. now rewrite H. Qed.

Lemma star_loop_head (step : str -> list str) (fuel : nat) (s s1 s2 : str) :
  head (step s) = Some s1 ->
  (length s1 < length s)%nat ->
  head (star_loop step fuel s1) = Some s2 ->
  head (star_loop step (S fuel) s) = Some s2.
Proof.
  intros H1 Hlt H2. simpl. apply head_app_Some.
  eapply head_flat_map; eauto.
  apply Nat.ltb_lt in Hlt. now rewrite Hlt.
Qed.

Lemma star_loop_in_refl (step : str -> list str) (fuel : nat) (s : str) :
  In s (star_loop step fuel s).
Proof. destruct fuel; simpl; [now left|]. apply in_or_app. right. now left. Qed.

Lemma star_loop_in (step : str -> list str) (fuel : nat) (s s1 s2 : str) :
  In s1 (step s) ->
  (length s1 < length s)%nat ->
  In s2 (star_loop step fuel s1) ->
  In s2 (star_loop step (S fuel) s).
Proof.
  intros H1 Hlt H2. simpl. apply in_or_app. left.
  apply in_flat_map. exists s1. split; [easy|].
  apply Nat.ltb_lt in Hlt. now rewrite Hlt.
Qed.

(** A starred class is greedy: it first stops where the class stops. *)
Lemma star_cls_head (p : char -> bool) (xs rest : str) (fuel : nat) :
  Forall (fun c => p c = true) xs ->
  match rest with c :: _ => p c = false | [] => True end ->
  (length (xs ++ rest) <= fuel)%nat ->
  head (star_loop (run n0 (Cls p)) fuel (xs ++ rest)) = Some rest.
Proof.
  intros Hxs Hrest. revert fuel.
  induction Hxs as [|c xs Hc _ IH]; intros fuel Hfuel.
  - simpl. rewrite star_loop_stop; [easy|]. now apply run_cls_miss.
  - simpl in Hfuel. destruct fuel as [|fuel]; [lia|].
    apply star_loop_head with (s1 := xs ++ rest).
    + simpl. now rewrite Hc.
    + simpl. lia.
    + apply IH. lia.
Qed.

Lemma run_star_cls_head (p : char -> bool) (xs rest : str) :
  Forall (fun c => p c = true) xs ->
  match rest with c :: _ => p c = false | [] => True end ->
  head (run n0 (Star (Cls p)) (xs ++ rest)) = Some rest.
Proof. intros. simpl. now apply star_cls_head. Qed.

Lemma run_plus_cls_head (p : char -> bool) (xs rest : str) :
  xs <> [] ->
  Forall (fun c => p c = true) xs ->
  match rest with c :: _ => p c = false | [] => True end ->
  head (run n0 (Plus (Cls p)) (xs ++ rest)) = Some rest.
Proof.
  intros Hne Hxs Hrest. destruct xs as [|c xs]; [easy|].
  inversion Hxs as [|? ? Hc Hxs']; subst.
  apply run_seq_head with (s1 := xs ++ rest).
  - cbn [app]. now rewrite run_cls_hit.
  - now apply run_star_cls_head.
Qed.

Lemma star_cls_in (p : char -> bool) (xs rest : str) (fuel : nat) :
  Forall (fun c => p c = true) xs ->
  (length (xs ++ rest) <= fuel)%nat ->
  In rest (star_loop (run n0 (Cls p)) fuel (xs ++ rest)).
Proof.
  intros Hxs. revert fuel.
  induction Hxs as [|c xs Hc _ IH]; intros fuel Hfuel.
  - apply star_loop_in_refl.
  - simpl in Hfuel. destruct fuel as [|fuel]; [lia|].
    apply star_loop_in with (s1 := xs ++ rest).
    + simpl. rewrite Hc. now left.
    + simpl. lia.
    + apply IH. lia.
Qed.

Lemma run_star_cls_in (p : char -> bool) (xs rest : str) :
  Forall (fun c => p c = true) xs ->
  In rest (run n0 (Star (Cls p)) (xs ++ rest)).
Proof. intros. simpl. now apply star_cls_in. Qed.

Lemma run_plus_cls_in (p : char -> bool) (xs rest : str) :
  xs <> [] ->
  Forall (fun c => p c = true) xs ->
  In rest (run n0 (Plus (Cls p)) (xs ++ rest)).
Proof.
  intros Hne Hxs. destruct xs as [|c xs]; [easy|].
  inversion Hxs as [|? ? Hc Hxs']; subst.
  apply run_seq_in with (s1 := xs ++ rest).
  - cbn [app]. rewrite run_cls_hit by assumption. now left.
  - now apply run_star_cls_in.
Qed.

End RunFacts.

(** ** Dotted numbering and the level of a heading *)

Lemma join_dotted (d : str) (segs : list str) :
  join (lit ".") (d :: segs) = d ++ dotted segs.
Proof.
  revert d. induction segs as [|d' segs IH]; intros d.
  - simpl. now rewrite app_nil_r.
  - change (join (lit ".") (d :: d' :: segs))
      with (d ++ lit "." ++ join (lit ".") (d' :: segs)).
    rewrite IH. reflexivity.
Qed.

Lemma digit_not_dot (c : char) : isdecimal c = true -> Ascii.eqb c "."%char = false.
Proof.
  intros H. destruct (Ascii.eqb_spec c "."%char) as [->|]; [|easy].
  discriminate H.
Qed.

Lemma ends_numbering_no_digit (rest : str) :
  ends_numbering rest = true ->
  match rest with c :: _ => isdecimal c = false | [] => True end.
Proof.
  destruct rest as [|c rest]; [easy|]. simpl.
  intros H. apply andb_true_iff in H as [H _]. now apply negb_true_iff in H.
Qed.

Lemma dotted_no_digit (segs : list str) (rest : str) :
  ends_numbering rest = true ->
  match dotted segs ++ rest with c :: _ => isdecimal c = false | [] => True end.
Proof.
  intros H. destruct segs as [|d segs]; simpl.
  - now apply ends_numbering_no_digit.
  - reflexivity.
Qed.

Lemma dotted_cons (d : str) (segs : list str) (rest : str) :
  dotted (d :: segs) ++ rest = "."%char :: d ++ (dotted segs ++ rest).
Proof. unfold dotted. simpl. now rewrite <- app_assoc. Qed.

Lemma segment_re_stop (n0 : nat) (rest : str) :
  ends_numbering rest = true -> run n0 segment_re rest = [].
Proof.
  intros H. destruct rest as [|c rest]; [reflexivity|].
  unfold segment_re. simpl in H. apply andb_true_iff in H as [_ H].
  apply negb_true_iff, andb_false_iff in H.
  rewrite run_seq_eq, run_chr.
  destruct H as [H|H]; [now rewrite H|].
  destruct (Ascii.eqb c "."%char); [|reflexivity].
  cbn [flat_map]. rewrite app_nil_r.
  apply run_seq_nil. apply run_cls_miss.
  destruct rest; [easy|]. exact H.
Qed.

Lemma segment_re_head (n0 : nat) (d rest : str) :
  is_number d ->
  match rest with c :: _ => isdecimal c = false | [] => True end ->
  head (run n0 segment_re ("."%char :: d ++ rest)) = Some rest.
Proof.
  intros [Hne Hd] Hrest. unfold segment_re.
  apply run_seq_head with (s1 := d ++ rest).
  - reflexivity.
  - now apply run_plus_cls_head.
Qed.

Lemma segments_head (n0 : nat) (segs : list str) (rest : str) (fuel : nat) :
  Forall is_number segs ->
  ends_numbering rest = true ->
  (length (dotted segs ++ rest) <= fuel)%nat ->
  head (star_loop (run n0 segment_re) fuel (dotted segs ++ rest)) = Some rest.
Proof.
  intros Hsegs Hrest. revert fuel.
  induction Hsegs as [|d segs Hd _ IH]; intros fuel Hfuel.
  - change (dotted [] ++ rest) with rest.
    rewrite star_loop_stop; [easy|]. now apply segment_re_stop.
  - rewrite dotted_cons in *. cbn [length] in Hfuel. rewrite length_app in Hfuel.
    destruct fuel as [|fuel]; [lia|].
    apply star_loop_head with (s1 := dotted segs ++ rest).
    + apply segment_re_head; [easy|]. now apply dotted_no_digit.
    + cbn [length]. rewrite !length_app. lia.
    + apply IH. lia.
Qed.

Lemma numbering_re_head (segs : list str) (rest : str) :
  segs <> [] ->
  Forall is_number segs ->
  ends_numbering rest = true ->
  head (run (length (join (lit ".") segs ++ rest)) numbering_re
          (join (lit ".") segs ++ rest)) = Some rest.
Proof.
  intros Hne Hsegs Hrest.
  destruct segs as [|d segs]; [easy|]. inversion Hsegs as [|? ? Hd Hsegs']; subst.
  rewrite join_dotted, <- app_assoc.
  unfold numbering_re.
  apply run_seq_head with (s1 := d ++ dotted segs ++ rest).
  - now rewrite run_bos.
  - apply run_seq_head with (s1 := dotted segs ++ rest).
    + destruct Hd. apply run_plus_cls_head; [easy..|]. now apply dotted_no_digit.
    + rewrite run_star_eq. now apply segments_head.
Qed.

Lemma match_numbering (segs : list str) (rest : str) :
  segs <> [] ->
  Forall is_number segs ->
  ends_numbering rest = true ->
  match_ numbering_re (join (lit ".") segs ++ rest) = Some (join (lit ".") segs).
Proof.
  intros Hne Hsegs Hrest.
  pose proof (numbering_re_head segs rest Hne Hsegs Hrest) as H.
  unfold match_.
  destruct (run _ numbering_re _) as [|s' tl]; [discriminate|].
  cbn [head] in H. injection H as ->. f_equal.
  rewrite length_app, Nat.add_sub. apply take_app_length.
Qed.

Lemma split_no_sep (sep : char) (d : str) :
  Forall (fun c => Ascii.eqb c sep = false) d -> split sep d = [d].
Proof.
  induction 1 as [|c d Hc _ IH]; [reflexivity|].
  simpl. now rewrite Hc, IH.
Qed.

Lemma split_app_sep (sep : char) (d s : str) :
  Forall (fun c => Ascii.eqb c sep = false) d ->
  split sep (d ++ sep :: s) = d :: split sep s.
Proof.
  induction 1 as [|c d Hc _ IH].
  - simpl. now rewrite Ascii.eqb_refl.
  - simpl. now rewrite Hc, IH.
Qed.

Lemma number_no_dot (d : str) :
  is_number d -> Forall (fun c => Ascii.eqb c "."%char = false) d.
Proof.
  intros [_ H]. eapply Forall_impl; [exact H|]. apply digit_not_dot.
Qed.

Lemma split_join_numbers (segs : list str) :
  segs <> [] ->
  Forall is_number segs ->
  split "."%char (join (lit ".") segs) = segs.
Proof.
  intros Hne Hsegs. induction Hsegs as [|d segs Hd Hsegs IH]; [easy|].
  destruct segs as [|d' segs].
  - simpl. apply split_no_sep. now apply number_no_dot.
  - change (join (lit ".") (d :: d' :: segs))
      with (d ++ "."%char :: join (lit ".") (d' :: segs)).
    rewrite split_app_sep by now apply number_no_dot.
    now rewrite IH.
Qed.

(** C2: a text that begins with the dotted numbering [d1.d2...dn], and does
    not go on with a further digit or dot-and-digit, is classified by [n]
    alone (1 gives H1, 2 gives H2, 3 or more give H3), whatever the font
    size of the line and whatever the heading sizes. *)
Theorem classify_numbering_override
    (l : line) (heading_sizes : list Z) (segs : list str) (rest : str) :
  segs <> [] ->
  Forall is_number segs ->
  ends_numbering rest = true ->
  l_text l = join (lit ".") segs ++ rest ->
  classify_heading_level l heading_sizes = level_of_segments (length segs).
Proof.
  intros Hne Hsegs Hrest Htext.
  unfold classify_heading_level. rewrite Htext.
  rewrite match_numbering by assumption.
  rewrite split_join_numbers by assumption.
  destruct segs as [|d1 [|d2 [|d3 segs]]]; easy.
Qed.

Lemma classify_numbering_override_witness :
  classify_heading_level
    {| l_text := lit "3.2 Data Pipeline"; l_font := lit "Helvetica";
       l_size := 180; l_flags := 0; l_bbox := (0, 0, 0, 0)%float; l_page := 4 |}
    [180; 140; 120] = H2.
Proof.
  apply (classify_numbering_override _ _ [lit "3"; lit "2"] (lit " Data Pipeline")).
  - discriminate.
  - repeat constructor; discriminate.
  - reflexivity.
  - reflexivity.
Defined.

Lemma class_split (p : char -> bool) (s : str) :
  exists xs rest, s = xs ++ rest
    /\ Forall (fun c => p c = true) xs
    /\ match rest with c :: _ => p c = false | [] => True end.
Proof.
  induction s as [|c s (xs & rest & Hs & Hxs & Hrest)].
  - exists [], []. easy.
  - destruct (p c) eqn:Hc.
    + exists (c :: xs), rest. cbn [app]. rewrite <- Hs. repeat split; [|easy].
      now constructor.
    + exists [], (c :: s). easy.
Qed.

(** Every text that starts with a digit splits into a dotted numbering and
    a rest that does not extend it. *)
Lemma numbering_prefix_exists (text : str) :
  match text with c :: _ => isdecimal c = true | [] => False end ->
  exists segs rest,
    segs <> [] /\ Forall is_number segs /\ ends_numbering rest = true
    /\ text = join (lit ".") segs ++ rest.
Proof.
  remember (length text) as n eqn:Hn.
  assert (Hlen : (length text <= n)%nat) by lia. clear Hn.
  revert text Hlen. induction n as [|n IH]; intros text Hlen Hstart.
  - destruct text; [easy|cbn in Hlen; lia].
  - destruct (class_split isdecimal text) as (ds & r & -> & Hds & Hr).
    assert (Hne : ds <> []).
    { intros ->. destruct r as [|c r]; [easy|]. cbn [app] in Hstart. congruence. }
    assert (Hnum : is_number ds) by easy.
    destruct r as [|c1 [|c2 r]].
    + exists [ds], []. split; [easy|]. split; [now constructor|]. easy.
    + exists [ds], [c1]. split; [easy|]. split; [now constructor|].
      split; [|easy]. cbn [ends_numbering]. rewrite Hr. cbn. now rewrite andb_false_r.
    + destruct (Ascii.eqb c1 "."%char && isdecimal c2) eqn:Hmore.
      * apply andb_true_iff in Hmore as [Hdot Hc2].
        apply Ascii.eqb_eq in Hdot. subst c1.
        destruct (IH (c2 :: r)) as (segs & rest & Hsegs & Hall & Hrest & Heq);
          [|easy|].
        { rewrite length_app in Hlen. cbn [length] in *.
          destruct ds; [easy|]. cbn [length] in Hlen. lia. }
        exists (ds :: segs), rest.
        split; [easy|]. split; [now constructor|]. split; [easy|].
        destruct segs as [|d segs]; [easy|].
        change (join (lit ".") (ds :: d :: segs))
          with (ds ++ "."%char :: join (lit ".") (d :: segs)).
        rewrite <- app_assoc. cbn [app]. now rewrite <- Heq.
      * exists [ds], (c1 :: c2 :: r).
        split; [easy|]. split; [now constructor|]. split; [|easy].
        cbn [ends_numbering]. now rewrite Hr, Hmore.
Qed.

(** ** The stable sort *)

Section SortFacts.

Context {A : Type} (le : A -> A -> bool).

Lemma sort_insert_perm (x : A) (l : list A) :
  Permutation (sort_insert le x l) (x :: l).
Proof.
  induction l as [|y l IH]; cbn [sort_insert]; [reflexivity|].
  destruct (le x y); [reflexivity|].
  rewrite IH. apply perm_swap.
Qed.

Lemma sorted_perm (l : list A) : Permutation (sorted le l) l.
Proof.
  induction l as [|x l IH]; cbn [sorted]; [reflexivity|].
  rewrite sort_insert_perm. now constructor.
Qed.

Lemma sorted_In (l : list A) (x : A) : In x (sorted le l) <-> In x l.
Proof.
  split; apply Permutation_in; [|symmetry]; apply sorted_perm.
Qed.

(** Elements of one class, which the order does not separate, keep their
    order. *)
Lemma sort_insert_stable (f : A -> bool) (x : A) (l : list A) :
  (forall a b, f a = true -> f b = true -> le a b = true) ->
  List.filter f (sort_insert le x l) = List.filter f (x :: l).
Proof.
  intros Hf. induction l as [|y l IH]; cbn [sort_insert]; [reflexivity|].
  destruct (le x y) eqn:Hxy; [reflexivity|].
  cbn [List.filter] in *. rewrite IH.
  destruct (f x) eqn:Hx, (f y) eqn:Hy; try reflexivity.
  rewrite (Hf x y Hx Hy) in Hxy. discriminate.
Qed.

Lemma sorted_stable (f : A -> bool) (l : list A) :
  (forall a b, f a = true -> f b = true -> le a b = true) ->
  List.filter f (sorted le l) = List.filter f l.
Proof.
  intros Hf. induction l as [|x l IH]; cbn [sorted]; [reflexivity|].
  rewrite sort_insert_stable by assumption.
  cbn [List.filter]. now rewrite IH.
Qed.

Context (le_total : forall a b, le a b = false -> le b a = true).
Context (le_trans : forall a b c, le a b = true -> le b c = true -> le a c = true).

Lemma sort_insert_sorted (x : A) (l : list A) :
  StronglySorted (fun a b => le a b = true) l ->
  StronglySorted (fun a b => le a b = true) (sort_insert le x l).
Proof.
  induction 1 as [|y l Hl IH Hy]; cbn [sort_insert].
  - repeat constructor.
  - destruct (le x y) eqn:Hxy.
    + constructor; [now constructor|].
      constructor; [easy|].
      eapply Forall_impl; [exact Hy|]. intros z Hz. now apply (le_trans x y z).
    + constructor; [easy|].
      apply List.Forall_forall. intros z Hz.
      apply (Permutation_in _ (sort_insert_perm x l)) in Hz.
      destruct Hz as [<-|Hz]; [now apply le_total|].
      rewrite List.Forall_forall in Hy. now apply Hy.
Qed.

Lemma sorted_sorted (l : list A) :
  StronglySorted (fun a b => le a b = true) (sorted le l).
Proof.
  induction l as [|x l IH]; cbn [sorted]; [constructor|].
  now apply sort_insert_sorted.
Qed.

End SortFacts.

(** ** The main loop of the assembler *)

Lemma entry_key_of (hs : list Z) (l : line) :
  entry_key (entry_of hs l) = heading_key l.
Proof. reflexivity. Qed.

Lemma outline_step_eq (title : str) (body : Z) (hs : list Z)
    (out : list entry) (seen : gset (str * nat)) (l : line) :
  outline_step title body hs (out, seen) l =
  if is_heading_line title body l && negb (bool_decide (heading_key l ∈ seen))
  then (out ++ [entry_of hs l], {[heading_key l]} ∪ seen)
  else (out, seen).
Proof.
  unfold outline_step, is_heading_line, heading_key, entry_of.
  rewrite Z.ltb_antisym.
  destruct (l_size l <=? body); [reflexivity|].
  destruct (is_likely_heading l); [|reflexivity].
  destruct (bool_decide (strip (l_text l) = strip title) && (l_page l <=? 2)%nat);
    [reflexivity|].
  cbn [negb andb].
  now destruct (bool_decide ((lower (l_text l), l_page l) ∈ seen)).
Qed.

(** A line under the size filter leaves the loop state as it is, whatever
    its text and flags. *)
Lemma outline_step_small (title : str) (body : Z) (hs : list Z)
    (st : list entry * gset (str * nat)) (l : line) :
  l_size l <= body -> outline_step title body hs st l = st.
Proof.
  intros H. unfold outline_step. destruct st as [out seen].
  apply Z.leb_le in H. now rewrite H.
Qed.

Lemma loop_inv_init (title : str) (body : Z) (hs : list Z) :
  loop_inv title body hs [] ([], ∅).
Proof.
  split; cbn.
  - intros k. set_solver.
  - constructor.
  - easy.
  - easy.
Qed.

Lemma loop_inv_step (title : str) (body : Z) (hs : list Z)
    (lines : list line) (st : list entry * gset (str * nat)) (l : line) :
  loop_inv title body hs lines st ->
  loop_inv title body hs (lines ++ [l]) (outline_step title body hs st l).
Proof.
  intros [Hseen Hnodup Hfirst Hall]. destruct st as [out seen]. cbn [fst snd] in *.
  assert (Hold : forall e, In e out ->
    exists l1 l0 l2, lines ++ [l] = l1 ++ l0 :: l2
      /\ is_heading_line title body l0 = true
      /\ e = entry_of hs l0
      /\ forall l', In l' l1 -> is_heading_line title body l' = true ->
           heading_key l' <> heading_key l0).
  { intros e He. destruct (Hfirst e He) as (l1 & l0 & l2 & -> & H1 & H2 & H3).
    exists l1, l0, (l2 ++ [l]). rewrite <- app_assoc. easy. }
  rewrite outline_step_eq.
  destruct (is_heading_line title body l) eqn:Hl; cbn [andb].
  - destruct (bool_decide (heading_key l ∈ seen)) eqn:Hin; cbn [negb].
    + apply bool_decide_eq_true in Hin.
      split; cbn [fst snd]; try assumption.
      intros l' Hl' Hh. apply in_app_or in Hl' as [Hl'|[<-|[]]]; [now apply Hall|easy].
    + apply bool_decide_eq_false in Hin.
      split; cbn [fst snd].
      * intros k. rewrite map_app, in_app_iff, elem_of_union, elem_of_singleton.
        rewrite Hseen. cbn. rewrite entry_key_of. intuition congruence.
      * rewrite map_app. cbn. rewrite entry_key_of.
        apply NoDup_ListNoDup, NoDup_app. repeat split.
        -- now apply NoDup_ListNoDup.
        -- intros k Hk Hk'. apply list_elem_of_In in Hk.
           apply list_elem_of_singleton in Hk'. subst k.
           apply Hin, Hseen, Hk.
        -- apply NoDup_singleton.
      * intros e He. apply in_app_or in He as [He|[<-|[]]]; [now apply Hold|].
        exists lines, l, []. repeat split; try easy.
        intros l' Hl' Hh Heq. apply Hin. rewrite <- Heq. now apply Hall.
      * intros l' Hl' Hh. apply elem_of_union.
        apply in_app_or in Hl' as [Hl'|[<-|[]]]; [right; now apply Hall|left].
        now apply elem_of_singleton.
  - split; cbn [fst snd]; try assumption.
    intros l' Hl' Hh. apply in_app_or in Hl' as [Hl'|[<-|[]]]; [now apply Hall|congruence].
Qed.

Lemma loop_inv_fold (title : str) (body : Z) (hs : list Z) (lines : list line) :
  loop_inv title body hs lines
    (fold_left (outline_step title body hs) lines ([], ∅)).
Proof.
  induction lines as [|l lines IH] using rev_ind.
  - apply loop_inv_init.
  - rewrite fold_left_app. cbn [fold_left]. now apply loop_inv_step.
Qed.

(** The returned outline is the sorted loop result. *)
Lemma extract_outline_inv (fs : filesystem) (pdf_path : str) (r : DocumentResult)
    (body : Z) (hs : list Z) :
  extract_outline fs pdf_path = Ok r ->
  size_fallback (extract_text_lines fs pdf_path)
    (analyze_font_styles (extract_text_lines fs pdf_path)) = Ok (body, hs) ->
  outline r =
  sorted by_page (assemble (title r) body hs (extract_text_lines fs pdf_path)).
Proof.
  unfold extract_outline, outline_of_lines.
  destruct (extract_text_lines fs pdf_path) as [|l lines] eqn:Hlines.
  - cbn. now intros [= <-] _.
  - cbn [truthy negb]. intros H Hsizes.
    destruct (extract_title (l :: lines)) as [t|]; [|discriminate].
    cbn [bind] in H. rewrite Hsizes in H. cbn [bind] in H.
    now injection H as <-.
Qed.

(** ** The returned outline *)

Lemma nodup_count {K : Type} `{EqDecision K} (k : K) (l : list K) :
  List.NoDup l ->
  length (List.filter (fun x => bool_decide (x = k)) l)
  = if bool_decide (k ∈ l) then 1%nat else 0%nat.
Proof.
  induction 1 as [|x l Hx Hl IH]; [reflexivity|].
  rewrite <- list_elem_of_In in Hx.
  cbn [List.filter]. destruct (bool_decide (x = k)) eqn:Hxk.
  - apply bool_decide_eq_true in Hxk. subst x.
    cbn [length]. rewrite IH.
    rewrite (bool_decide_eq_false_2 (k ∈ l)) by assumption.
    rewrite bool_decide_eq_true_2; [reflexivity|]. apply list_elem_of_here.
  - apply bool_decide_eq_false in Hxk. rewrite IH.
    apply (f_equal (fun b : bool => if b then 1%nat else 0%nat)).
    apply bool_decide_ext. rewrite elem_of_cons. intuition congruence.
Qed.

Lemma filter_map_key {A K : Type} `{EqDecision K} (f : A -> K) (k : K) (l : list A) :
  length (List.filter (fun x => bool_decide (f x = k)) l)
  = length (List.filter (fun y => bool_decide (y = k)) (map f l)).
Proof.
  induction l as [|x l IH]; [reflexivity|].
  cbn [map List.filter]. destruct (bool_decide (f x = k)); cbn [length]; now rewrite IH.
Qed.

Lemma strongly_sorted_weaken {A : Type} (R R' : A -> A -> Prop) (l : list A) :
  (forall a b, R a b -> R' a b) -> StronglySorted R l -> StronglySorted R' l.
Proof.
  intros HR. induction 1 as [|x l Hl IH Hx]; constructor; [easy|].
  eapply Forall_impl; [exact Hx|]. intros y. apply HR.
Qed.

Lemma by_page_total (a b : entry) : by_page a b = false -> by_page b a = true.
Proof. unfold by_page. rewrite Nat.leb_le, Nat.leb_gt. lia. Qed.

Lemma by_page_trans (a b c : entry) :
  by_page a b = true -> by_page b c = true -> by_page a c = true.
Proof. unfold by_page. rewrite !Nat.leb_le. lia. Qed.

(** C3: in the returned outline no two entries share the pair (lowercased
    text, page); each entry is the first heading line with its pair, in the
    order of the cleaned lines; every heading line has its pair in the
    outline.  So the number of entries with a given pair is one when some
    heading line has that pair and zero otherwise: two heading lines equal
    up to case on one page give one entry, the same text on two pages gives
    two. *)
Theorem outline_deduplicated
    (fs : filesystem) (pdf_path : str) (r : DocumentResult) (body : Z) (hs : list Z) :
  extract_outline fs pdf_path = Ok r ->
  size_fallback (extract_text_lines fs pdf_path)
    (analyze_font_styles (extract_text_lines fs pdf_path)) = Ok (body, hs) ->
  List.NoDup (map entry_key (outline r))
  /\ (forall e, In e (outline r) ->
        exists l1 l l2,
          extract_text_lines fs pdf_path = l1 ++ l :: l2
          /\ is_heading_line (title r) body l = true
          /\ e = entry_of hs l
          /\ forall l', In l' l1 -> is_heading_line (title r) body l' = true ->
               heading_key l' <> heading_key l)
  /\ (forall l, In l (extract_text_lines fs pdf_path) ->
        is_heading_line (title r) body l = true ->
        exists e, In e (outline r) /\ entry_key e = heading_key l)
  /\ (forall k,
        length (List.filter (fun e => bool_decide (entry_key e = k)) (outline r))
        = if existsb (fun l => is_heading_line (title r) body l
                               && bool_decide (heading_key l = k))
               (extract_text_lines fs pdf_path)
          then 1%nat else 0%nat).
Proof.
  intros Hr Hsizes.
  rewrite (extract_outline_inv fs pdf_path r body hs Hr Hsizes).
  set (lines := extract_text_lines fs pdf_path).
  destruct (loop_inv_fold (title r) body hs lines) as [Hseen Hnodup Hfirst Hall].
  fold (assemble (title r) body hs lines) in Hseen, Hnodup, Hfirst.
  set (out := assemble (title r) body hs lines) in *.
  assert (Hperm : Permutation (sorted by_page out) out) by apply sorted_perm.
  assert (Hnd : List.NoDup (map entry_key (sorted by_page out))).
  { eapply Permutation_NoDup; [|exact Hnodup].
    symmetry. now apply Permutation_map. }
  assert (Hin : forall l, In l lines -> is_heading_line (title r) body l = true ->
                exists e, In e (sorted by_page out) /\ entry_key e = heading_key l).
  { intros l Hl Hh. specialize (Hall l Hl Hh). apply Hseen in Hall.
    apply in_map_iff in Hall as (e & He & Hin).
    exists e. split; [|easy]. now apply sorted_In. }
  split; [exact Hnd|]. split; [|split; [exact Hin|]].
  - intros e He. apply sorted_In in He. now apply Hfirst.
  - intros k. rewrite filter_map_key, nodup_count by assumption.
    apply (f_equal (fun b : bool => if b then 1%nat else 0%nat)).
    apply eq_iff_eq_true.
    rewrite bool_decide_eq_true, list_elem_of_In, in_map_iff, existsb_exists.
    split.
    + intros (e & He & Hin'). apply sorted_In in Hin'.
      destruct (Hfirst e Hin') as (l1 & l & l2 & Hl & Hh & -> & _).
      exists l. split.
      * fold lines. rewrite Hl. apply in_or_app. right. now left.
      * rewrite Hh. now apply bool_decide_eq_true.
    + intros (l & Hl & Hh). apply andb_true_iff in Hh as [Hh Hk].
      apply bool_decide_eq_true in Hk.
      destruct (Hin l Hl Hh) as (e & He & Hk'). exists e. split; congruence.
Qed.

(** C4: every entry of the returned outline comes from a cleaned line whose
    size is strictly above the body size in force (the one left by the
    fallback); and a line at or under that size leaves the loop untouched,
    whatever its text and its flags. *)
Theorem outline_above_body_size
    (fs : filesystem) (pdf_path : str) (r : DocumentResult) (body : Z) (hs : list Z) :
  extract_outline fs pdf_path = Ok r ->
  size_fallback (extract_text_lines fs pdf_path)
    (analyze_font_styles (extract_text_lines fs pdf_path)) = Ok (body, hs) ->
  (forall e, In e (outline r) ->
     exists l, In l (extract_text_lines fs pdf_path)
       /\ e = entry_of hs l /\ body < l_size l)
  /\ (forall st l, l_size l <= body ->
        outline_step (title r) body hs st l = st).
Proof.
  intros Hr Hsizes. split.
  - rewrite (extract_outline_inv fs pdf_path r body hs Hr Hsizes).
    intros e He. apply sorted_In in He.
    destruct (loop_inv_fold (title r) body hs (extract_text_lines fs pdf_path))
      as [_ _ Hfirst _].
    destruct (Hfirst e He) as (l1 & l & l2 & Hl & Hh & -> & _).
    exists l. split; [|split; [reflexivity|]].
    + rewrite Hl. apply in_or_app. right. now left.
    + unfold is_heading_line in Hh.
      apply andb_true_iff in Hh as [Hh _]. apply andb_true_iff in Hh as [Hh _].
      now apply Z.ltb_lt.
  - intros st l. apply outline_step_small.
Qed.

(** C5: the returned outline is in non-decreasing page order, it is a
    rearrangement of the entries in insertion order, and the entries of any
    one page come in their insertion order. *)
Theorem outline_sorted_by_page
    (fs : filesystem) (pdf_path : str) (r : DocumentResult) (body : Z) (hs : list Z) :
  extract_outline fs pdf_path = Ok r ->
  size_fallback (extract_text_lines fs pdf_path)
    (analyze_font_styles (extract_text_lines fs pdf_path)) = Ok (body, hs) ->
  let inserted := assemble (title r) body hs (extract_text_lines fs pdf_path) in
  StronglySorted (fun a b => (e_page a <= e_page b)%nat) (outline r)
  /\ Permutation (outline r) inserted
  /\ forall pg,
       List.filter (fun e => (e_page e =? pg)%nat) (outline r)
       = List.filter (fun e => (e_page e =? pg)%nat) inserted.
Proof.
  intros Hr Hsizes inserted.
  rewrite (extract_outline_inv fs pdf_path r body hs Hr Hsizes).
  fold inserted. split; [|split].
  - eapply strongly_sorted_weaken;
      [|apply (sorted_sorted by_page by_page_total by_page_trans)].
    intros a b H. now apply Nat.leb_le.
  - apply sorted_perm.
  - intros pg. apply sorted_stable. intros a b Ha Hb.
    apply Nat.eqb_eq in Ha, Hb. unfold by_page. apply Nat.leb_le. lia.
Qed.

(** ** The cleaned line sequence *)

Lemma for_each_inv {A S : Type} (body : S -> A -> outcome S) (I : S -> Prop) :
  (forall st x st', I st -> body st x = Ok st' -> I st') ->
  forall l st st', I st -> for_each body l st = Ok st' -> I st'.
Proof.
  intros Hbody. induction l as [|x l IH]; intros st st' Hst; cbn [for_each].
  - now intros [= <-].
  - destruct (body st x) as [st1|] eqn:Hx; cbn [bind]; [|discriminate].
    apply IH. eapply Hbody; eauto.
Qed.

(** Every cleaned line is what [clean_line] made of some raw line. *)
Lemma cleaned_lines_origin (fs : filesystem) (pdf_path : str) (l : line) :
  In l (extract_text_lines fs pdf_path) ->
  exists hf n ln, clean_line hf n ln = Some l.
Proof.
  unfold extract_text_lines, extract_text_lines_body.
  destruct (fs pdf_path) as [|e|d]; cbn; try easy.
  destruct (page_count d =? 0)%nat; [easy|].
  destruct (_identify_headers_and_footers d) as [hf|]; cbn [bind]; [|easy].
  destruct (for_each (clean_page hf) (enumerate d) []) as [out|] eqn:Hout; [|easy].
  revert l.
  apply (for_each_inv (clean_page hf)
           (fun out => forall l, In l out -> exists hf n ln, clean_line hf n ln = Some l))
    with (l := enumerate d) (st := []) (st' := out); [|easy|exact Hout].
  intros st [n p] st' Hst. unfold clean_page. cbn [fst snd].
  destruct (pg_blocks p) as [blocks|]; cbn [bind]; [|discriminate].
  intros [= <-] l Hl. apply in_app_or in Hl as [Hl|Hl]; [now apply Hst|].
  apply in_flat_map in Hl as (b & _ & Hl). unfold clean_block in Hl.
  destruct (bl_lines b) as [lines|]; [|easy].
  apply list_elem_of_In, list_elem_of_omap in Hl as (ln & _ & Hln).
  eauto.
Qed.

Lemma clean_line_text (hf : gset str) (n : nat) (ln : rawline) (l : line) :
  clean_line hf n ln = Some l ->
  exists spans, rl_spans ln = Some spans /\ l_text l = line_text spans
    /\ l_text l <> []
    /\ (l_text l ∉ hf)
    /\ search dot_leader (l_text l) = false.
Proof.
  unfold clean_line. destruct (rl_spans ln) as [[|s spans]|]; try discriminate.
  destruct (line_text (s :: spans)) as [|c t] eqn:Ht; [discriminate|].
  cbn [truthy negb].
  destruct (bool_decide _) eqn:Hhf; [discriminate|].
  destruct (search dot_leader (c :: t)) eqn:Hs; [discriminate|].
  intros [= <-]. cbn. exists (s :: spans). rewrite Ht.
  apply bool_decide_eq_false in Hhf. easy.
Qed.

(** ** The dot-leader pattern *)

Lemma search_from_here (n0 : nat) (r : re) (s x : str) :
  In x (run n0 r s) -> search_from n0 r s = true.
Proof.
  intros H. destruct s; cbn [search_from]; destruct (run n0 r _); easy.
Qed.

Lemma search_from_app (n0 : nat) (r : re) (s1 s2 : str) :
  search_from n0 r s2 = true -> search_from n0 r (s1 ++ s2) = true.
Proof.
  intros H. induction s1 as [|c s1 IH]; [easy|].
  cbn [app search_from]. rewrite IH. apply orb_true_r.
Qed.

Lemma space_isspace (c : char) : c = " "%char -> isspace c = true.
Proof. now intros ->. Qed.

Lemma dot_leader_in (n0 : nat) (dots spaces' digits : str) :
  (3 <= length dots)%nat ->
  Forall (fun c => c = "."%char) dots ->
  Forall (fun c => c = " "%char) spaces' ->
  is_number digits ->
  In [] (run n0 dot_leader (" "%char :: dots ++ spaces' ++ digits)).
Proof.
  intros Hlen Hdots Hsp [Hne Hdig].
  destruct dots as [|d1 [|d2 [|d3 dots]]]; cbn [length] in Hlen; try lia.
  inversion Hdots as [|? ? -> Hdots1]; subst.
  inversion Hdots1 as [|? ? -> Hdots2]; subst.
  inversion Hdots2 as [|? ? -> Hdots3]; subst.
  unfold dot_leader. cbn [AtLeast app].
  eapply run_seq_in; [now left|].
  eapply run_seq_in.
  { eapply run_seq_in; [rewrite run_chr; now left|].
    eapply run_seq_in; [rewrite run_chr; now left|].
    eapply run_seq_in; [rewrite run_chr; now left|].
    apply (run_star_cls_in n0 (Ascii.eqb "."%char) dots (spaces' ++ digits)).
    eapply Forall_impl; [exact Hdots3|]. now intros c ->. }
  eapply run_seq_in.
  { apply (run_star_cls_in n0 isspace spaces' digits).
    eapply Forall_impl; [exact Hsp|]. apply space_isspace. }
  eapply run_seq_in.
  { rewrite <- (app_nil_r digits) at 1. now apply run_plus_cls_in. }
  now left.
Qed.

(** A text of the table-of-contents shape is found by the pattern. *)
Lemma dot_leader_shape_search (t : str) :
  dot_leader_shape t -> search dot_leader t = true.
Proof.
  intros (pre & spaces & dots & spaces' & digits & -> & Hne & Hsp & Hlen & Hdots & Hsp' & Hdig).
  destruct (exists_last Hne) as (sp0 & c & ->).
  assert (Hc : c = " "%char).
  { rewrite List.Forall_forall in Hsp. apply Hsp, in_or_app. right. now left. }
  subst c.
  unfold search. generalize (length (pre ++ (sp0 ++ [" "%char]) ++ dots ++ spaces' ++ digits)).
  intros n0. rewrite <- (app_assoc sp0), (app_assoc pre sp0).
  apply search_from_app. eapply search_from_here.
  apply (dot_leader_in n0 dots spaces' digits); assumption.
Qed.

Lemma outline_entry_origin (fs : filesystem) (pdf_path : str)
    (r : DocumentResult) (e : entry) :
  extract_outline fs pdf_path = Ok r ->
  In e (outline r) ->
  exists l, In l (extract_text_lines fs pdf_path)
    /\ e_text e = l_text l /\ e_page e = l_page l.
Proof.
  intros Hr He. pose proof Hr as Hr'.
  unfold extract_outline, outline_of_lines in Hr'.
  destruct (extract_text_lines fs pdf_path) as [|l0 lines] eqn:Hlines.
  - cbn in Hr'. injection Hr' as <-. easy.
  - cbn [truthy negb] in Hr'.
    destruct (extract_title (l0 :: lines)) as [t|]; [|discriminate].
    cbn [bind] in Hr'.
    destruct (size_fallback _ _) as [[body hs]|] eqn:Hsizes; [|discriminate].
    rewrite <- Hlines in Hsizes.
    rewrite (extract_outline_inv fs pdf_path r body hs Hr Hsizes) in He.
    apply sorted_In in He.
    destruct (loop_inv_fold (title r) body hs (extract_text_lines fs pdf_path))
      as [_ _ Hfirst _].
    destruct (Hfirst e He) as (l1 & l & l2 & Hl & _ & -> & _).
    exists l. rewrite <- Hlines, Hl. split; [|easy].
    apply in_or_app. right. now left.
Qed.

(** C8: a raw line whose text has the table-of-contents shape (spaces, three
    dots or more, optional spaces, digits at the end) is skipped; no cleaned
    line and no entry of the returned outline has a text of that shape. *)
Theorem dot_leader_lines_excluded (fs : filesystem) (pdf_path : str) :
  (forall hf n ln spans,
     rl_spans ln = Some spans ->
     dot_leader_shape (line_text spans) ->
     clean_line hf n ln = None)
  /\ (forall l, In l (extract_text_lines fs pdf_path) ->
        ~ dot_leader_shape (l_text l))
  /\ (forall r e, extract_outline fs pdf_path = Ok r -> In e (outline r) ->
        ~ dot_leader_shape (e_text e)).
Proof.
  assert (Hclean : forall l, In l (extract_text_lines fs pdf_path) ->
                     ~ dot_leader_shape (l_text l)).
  { intros l Hl Hshape.
    destruct (cleaned_lines_origin fs pdf_path l Hl) as (hf & n & ln & Hln).
    destruct (clean_line_text hf n ln l Hln) as (spans & _ & _ & _ & _ & Hs).
    apply dot_leader_shape_search in Hshape. congruence. }
  split; [|split; [exact Hclean|]].
  - intros hf n ln spans Hspans Hshape.
    destruct (clean_line hf n ln) as [l|] eqn:Hl; [|reflexivity].
    destruct (clean_line_text hf n ln l Hl) as (spans' & Hspans' & Ht & _ & _ & Hs).
    apply dot_leader_shape_search in Hshape.
    rewrite Hspans in Hspans'. injection Hspans' as <-. congruence.
  - intros r e Hr He.
    destruct (outline_entry_origin fs pdf_path r e Hr He) as (l & Hl & -> & _).
    now apply Hclean.
Qed.

(** C10: an empty cleaned line sequence gives the error result. *)
Theorem extract_outline_no_lines (fs : filesystem) (pdf_path : str) :
  extract_text_lines fs pdf_path = [] ->
  extract_outline fs pdf_path = Ok error_result.
Proof.
  intros H. unfold extract_outline. rewrite H. reflexivity.
Qed.

(** ** The title *)

Lemma lstrip_split (s : str) :
  exists ws, s = ws ++ lstrip s
    /\ Forall (fun c => isspace c = true) ws
    /\ match lstrip s with c :: _ => isspace c = false | [] => True end.
Proof.
  induction s as [|c s (ws & Hs & Hws & Hrest)].
  - exists []. easy.
  - cbn [lstrip]. destruct (isspace c) eqn:Hc.
    + exists (c :: ws). cbn [app]. rewrite <- Hs. repeat split; [|easy].
      now constructor.
    + exists []. easy.
Qed.

Lemma lstrip_length (s : str) : (length (lstrip s) <= length s)%nat.
Proof.
  induction s as [|c s IH]; cbn [lstrip]; [easy|].
  destruct (isspace c); cbn [length]; lia.
Qed.

Lemma collapse_in_run (s : str) : collapse true s = collapse false (lstrip s).
Proof.
  induction s as [|c s IH]; [reflexivity|].
  cbn [collapse lstrip]. destruct (isspace c) eqn:Hc; [easy|].
  cbn [collapse]. now rewrite Hc.
Qed.

Lemma spaces_re_head (n0 : nat) (c : char) (s : str) :
  isspace c = true ->
  head (run n0 spaces_re (c :: s)) = Some (lstrip s).
Proof.
  intros Hc. destruct (lstrip_split s) as (ws & Hs & Hws & Hrest).
  rewrite Hs at 1.
  apply (run_plus_cls_head n0 isspace (c :: ws) (lstrip s)); [easy| |easy].
  now constructor.
Qed.

Lemma spaces_re_miss (n0 : nat) (s : str) :
  match s with c :: _ => isspace c = false | [] => True end ->
  run n0 spaces_re s = [].
Proof. intros H. apply run_seq_nil. now apply run_cls_miss. Qed.

Lemma sub_loop_spaces (fuel n0 : nat) (s : str) :
  (length s < fuel)%nat ->
  sub_loop fuel n0 spaces_re (lit " ") s = collapse_ws s.
Proof.
  unfold collapse_ws. revert s.
  induction fuel as [|fuel IH]; intros s Hfuel; [lia|].
  cbn [sub_loop]. destruct s as [|c s].
  - now rewrite spaces_re_miss.
  - cbn [length] in Hfuel. cbn [collapse]. destruct (isspace c) eqn:Hc.
    + pose proof (spaces_re_head n0 c s Hc) as Hhead.
      destruct (run n0 spaces_re (c :: s)) as [|s' tl]; [discriminate|].
      cbn [head] in Hhead. injection Hhead as ->.
      pose proof (lstrip_length s) as Hlen.
      replace (length (lstrip s) <? length (c :: s))%nat with true
        by (symmetry; apply Nat.ltb_lt; cbn [length]; lia).
      rewrite IH by lia. now rewrite collapse_in_run.
    + rewrite spaces_re_miss by assumption. rewrite IH by lia. reflexivity.
Qed.

(** [re.sub(r'\s+', ' ', s)] collapses the whitespace runs of [s]. *)
Lemma sub_spaces_collapse (s : str) :
  sub spaces_re (lit " ") s = collapse_ws s.
Proof. unfold sub. apply sub_loop_spaces. lia. Qed.

Lemma fold_left_max_ge (l : list Z) (x : Z) : x <= fold_left Z.max l x.
Proof.
  revert x. induction l as [|y l IH]; intros x; cbn [fold_left]; [lia|].
  specialize (IH (Z.max x y)). lia.
Qed.

Lemma fold_left_max_bound (l : list Z) (x y : Z) :
  In y l -> y <= fold_left Z.max l x.
Proof.
  revert x. induction l as [|z l IH]; intros x; cbn [fold_left]; [easy|].
  intros [->|H]; [|now apply IH].
  pose proof (fold_left_max_ge l (Z.max x y)). lia.
Qed.

Lemma fold_left_max_in (l : list Z) (x : Z) :
  fold_left Z.max l x = x \/ In (fold_left Z.max l x) l.
Proof.
  revert x. induction l as [|y l IH]; intros x; cbn [fold_left]; [now left|].
  destruct (IH (Z.max x y)) as [H|H]; [|right; now right].
  rewrite H. destruct (Z.max_spec x y) as [[_ ->]|[_ ->]]; [right|]; now left.
Qed.

Lemma max_of_spec (l : list Z) :
  l <> [] ->
  exists m, max_of l = Ok m /\ In m l /\ forall y, In y l -> y <= m.
Proof.
  destruct l as [|x l]; [easy|]. intros _.
  exists (fold_left Z.max l x). split; [reflexivity|]. split.
  - destruct (fold_left_max_in l x) as [->|H]; [now left|now right].
  - intros y [<-|Hy]; [apply fold_left_max_ge|now apply fold_left_max_bound].
Qed.

(** C9: the title comes from the first 30 lines of page 1, or of page 2
    when page 1 has none; with no such line it is ["Untitled Document"];
    otherwise the texts of the lines at the largest size are joined with
    single spaces, trimmed, their whitespace runs collapsed, the result cut
    to 147 code points and ["..."] when longer than 150, and replaced by
    ["Untitled Document"] when empty. *)
Theorem extract_title_spec (text_lines : list line) :
  match title_lines text_lines with
  | [] => extract_title text_lines = Ok untitled
  | cands =>
      exists max_size,
        In max_size (map l_size cands)
        /\ (forall l, In l cands -> l_size l <= max_size)
        /\ extract_title text_lines = Ok (title_of cands max_size)
  end.
Proof.
  unfold extract_title, title_lines.
  destruct text_lines as [|l0 lines]; [reflexivity|].
  cbn [truthy negb].
  set (p1 := filter (fun l => l_page l = 1%nat) (l0 :: lines)).
  set (p2 := filter (fun l => l_page l = 2%nat) (l0 :: lines)).
  assert (Hfinish : forall cands, cands <> [] ->
    exists max_size,
      In max_size (map l_size cands)
      /\ (forall l, In l cands -> l_size l <= max_size)
      /\ (max_size <- max_of (map l_size cands) ;;
          let title_candidates :=
            map l_text (filter (fun l => l_size l = max_size) cands) in
          let title := strip (join (lit " ") title_candidates) in
          let title := sub spaces_re (lit " ") title in
          let title :=
            if (150 <? length title)%nat then take 147 title ++ lit "..." else title in
          Ok (if truthy title then title else untitled))
         = Ok (title_of cands max_size)).
  { intros cands Hne.
    destruct (max_of_spec (map l_size cands)) as (m & Hm & Hin & Hmax).
    { now destruct cands. }
    exists m. split; [easy|]. split.
    - intros l Hl. apply Hmax. now apply in_map.
    - rewrite Hm. cbn [bind]. unfold title_of. rewrite sub_spaces_collapse.
      destruct (collapse_ws _) as [|c t]; [reflexivity|].
      destruct (150 <? length (c :: t))%nat; reflexivity. }
  destruct p1 as [|a p1'] eqn:Hp1.
  - cbn [take truthy negb andb].
    destruct (take 30 p2) as [|b p2'] eqn:Hp2; [reflexivity|].
    cbn [truthy negb]. now apply Hfinish.
  - change (take 30 (a :: p1')) with (a :: take 29 p1').
    cbn [truthy negb andb]. now apply Hfinish.
Qed.

(** ** No exception leaves [extract_outline] *)

Lemma extract_title_total (text_lines : list line) :
  exists t, extract_title text_lines = Ok t.
Proof.
  unfold extract_title. destruct (negb (truthy text_lines)); [eauto|].
  destruct (take 30 (filter (fun l => l_page l = 1%nat) text_lines)) as [|a p1];
    destruct (take 30 (filter (fun l => l_page l = 2%nat) text_lines)) as [|b p2];
    cbn [truthy negb andb map max_of bind]; eauto.
Qed.

Lemma last_item_total (l : list Z) :
  l <> [] -> exists x, last_item l = Ok x /\ exists l', l = l' ++ [x].
Proof.
  intros Hne. destruct (exists_last Hne) as (l' & x & ->).
  exists x. unfold last_item. rewrite rev_app_distr. cbn. eauto.
Qed.

Lemma size_fallback_total (text_lines : list line) (sizes : Z * list Z) :
  exists body hs, size_fallback text_lines sizes = Ok (body, hs).
Proof.
  destruct sizes as [body hs]. unfold size_fallback.
  destruct hs as [|h hs]; cbn [truthy negb]; [|eauto].
  set (u := sorted _ _).
  destruct (1 <? length u)%nat eqn:Hlen; [|eauto].
  apply Nat.ltb_lt in Hlen.
  destruct (last_item_total u) as (x & -> & _); [|cbn [bind]; eauto].
  intros ->. cbn in Hlen. lia.
Qed.

Lemma outline_of_lines_total (text_lines : list line) :
  exists r, outline_of_lines text_lines = Ok r.
Proof.
  unfold outline_of_lines. destruct (negb (truthy text_lines)); [eauto|].
  destruct (extract_title_total text_lines) as (t & ->). cbn [bind].
  destruct (size_fallback_total text_lines (analyze_font_styles text_lines))
    as (body & hs & ->).
  cbn [bind]. eauto.
Qed.

(** C1: for every file system and path [extract_outline] returns a result
    (a title and a list of entries) and raises nothing; for a missing file, a
    file that cannot be opened, a document without pages, and whenever the
    extraction of the lines raises, the result is the error result. *)
Theorem extract_outline_never_raises (fs : filesystem) (pdf_path : str) :
  (exists r, extract_outline fs pdf_path = Ok r)
  /\ (fs pdf_path = Missing -> extract_outline fs pdf_path = Ok error_result)
  /\ (forall e, fs pdf_path = Unopenable e ->
        extract_outline fs pdf_path = Ok error_result)
  /\ (fs pdf_path = Opened [] -> extract_outline fs pdf_path = Ok error_result)
  /\ (forall e, extract_text_lines_body fs pdf_path = Raise e ->
        extract_outline fs pdf_path = Ok error_result).
Proof.
  split; [apply outline_of_lines_total|].
  unfold extract_outline, extract_text_lines, extract_text_lines_body.
  repeat split.
  - now intros ->.
  - now intros e ->.
  - now intros ->.
  - now intros e ->.
Qed.

(** ** Body and heading sizes *)

Lemma distinct_In (l : list Z) (x : Z) : In x (distinct l) <-> In x l.
Proof.
  induction l as [|y l IH]; [easy|]. cbn [distinct].
  destruct (existsb (Z.eqb y) l) eqn:Hy.
  - rewrite IH. split; [now right|]. intros [<-|H]; [|easy].
    apply existsb_exists in Hy as (z & Hz & Hyz). apply Z.eqb_eq in Hyz. now subst.
  - cbn [In]. now rewrite IH.
Qed.

Lemma distinct_NoDup (l : list Z) : List.NoDup (distinct l).
Proof.
  induction l as [|y l IH]; [constructor|]. cbn [distinct].
  destruct (existsb (Z.eqb y) l) eqn:Hy; [easy|].
  constructor; [|easy]. rewrite distinct_In. intros Hin.
  assert (existsb (Z.eqb y) l = true); [|congruence].
  apply existsb_exists. exists y. split; [easy|]. apply Z.eqb_refl.
Qed.

Lemma desc_total (a b : Z) : desc a b = false -> desc b a = true.
Proof. unfold desc. rewrite Z.leb_le, Z.leb_gt. lia. Qed.

Lemma desc_trans (a b c : Z) : desc a b = true -> desc b c = true -> desc a c = true.
Proof. unfold desc. rewrite !Z.leb_le. lia. Qed.

Lemma strongly_sorted_last {A : Type} (R : A -> A -> Prop) (l : list A) (x : A) :
  StronglySorted R (l ++ [x]) -> forall y, In y l -> R y x.
Proof.
  induction l as [|z l IH]; [easy|]. cbn [app]. intros H y [<-|Hy].
  - apply StronglySorted_inv in H as [_ H]. rewrite List.Forall_forall in H.
    apply H, in_or_app. right. now left.
  - apply StronglySorted_inv in H as [H _]. now apply IH.
Qed.

Lemma strongly_sorted_filter {A : Type} (R : A -> A -> Prop) (P : A -> Prop)
    `{forall x, Decision (P x)} (l : list A) :
  StronglySorted R l -> StronglySorted R (filter P l).
Proof.
  induction 1 as [|x l Hl IH Hx]; [constructor|].
  rewrite filter_cons. destruct (decide (P x)); [|easy].
  constructor; [easy|].
  apply List.Forall_forall. intros y Hy.
  apply list_elem_of_In, list_elem_of_filter in Hy as [_ Hy].
  rewrite List.Forall_forall in Hx. now apply Hx, list_elem_of_In.
Qed.

Lemma strongly_sorted_strict (l : list Z) :
  List.NoDup l ->
  StronglySorted (fun x y => y <= x) l ->
  StronglySorted (fun x y => y < x) l.
Proof.
  induction 1 as [|x l Hx Hl IH]; [constructor|].
  intros H. apply StronglySorted_inv in H as [H Hall].
  constructor; [now apply IH|].
  rewrite List.Forall_forall in *. intros y Hy.
  specialize (Hall y Hy). assert (y <> x) by congruence. lia.
Qed.

(** The distinct sizes of the lines, largest first. *)
Lemma unique_sizes_spec (sizes : list Z) :
  let unique_sizes := sorted desc (distinct sizes) in
  (forall s, In s unique_sizes <-> In s sizes)
  /\ List.NoDup unique_sizes
  /\ StronglySorted (fun x y => y <= x) unique_sizes.
Proof.
  cbn zeta. repeat split.
  - intros H. now apply distinct_In, (sorted_In desc).
  - intros H. now apply (sorted_In desc), distinct_In.
  - eapply Permutation_NoDup; [symmetry; apply sorted_perm|apply distinct_NoDup].
  - eapply strongly_sorted_weaken;
      [|apply (sorted_sorted desc desc_total desc_trans)].
    intros a b H. now apply Z.leb_le.
Qed.

Lemma fallback_spec (text_lines : list line) (body0 : Z) :
  (exists a b, In a text_lines /\ In b text_lines /\ l_size a <> l_size b) ->
  exists body hs,
    size_fallback text_lines (body0, []) = Ok (body, hs)
    /\ In body (map l_size text_lines)
    /\ (forall l, In l text_lines -> body <= l_size l)
    /\ StronglySorted (fun x y => y < x) hs
    /\ (forall s, In s hs <-> In s (map l_size text_lines) /\ body < s)
    /\ hs <> [].
Proof.
  intros (a & b & Ha & Hb & Hab).
  unfold size_fallback. cbn [truthy negb].
  destruct (unique_sizes_spec (map l_size text_lines)) as (Hin & Hnd & Hsorted).
  cbn zeta in *. set (u := sorted desc (distinct (map l_size text_lines))) in *.
  assert (Ha' : In (l_size a) u) by now apply Hin, in_map.
  assert (Hb' : In (l_size b) u) by now apply Hin, in_map.
  assert (Hlen : (1 < length u)%nat).
  { destruct u as [|x [|y u']]; cbn [length]; [easy| |lia].
    destruct Ha' as [Ha'|[]], Hb' as [Hb'|[]]. congruence. }
  apply Nat.ltb_lt in Hlen as Hlen'. rewrite Hlen'.
  destruct (last_item_total u) as (m & -> & u' & Hu).
  { intros E. rewrite E in Hlen. cbn in Hlen. lia. }
  cbn [bind]. exists m, (filter (fun s => m < s) u).
  assert (Hm : In m u) by (rewrite Hu; apply in_or_app; right; now left).
  assert (Hmin : forall s, In s u -> m <= s).
  { intros s Hs. rewrite Hu in Hs, Hsorted.
    apply in_app_or in Hs as [Hs|[<-|[]]]; [|lia].
    now apply (strongly_sorted_last _ _ _ Hsorted). }
  assert (Hfilter : forall s, In s (filter (fun s => m < s) u)
                       <-> In s (map l_size text_lines) /\ m < s).
  { intros s. rewrite <- Hin, <- !list_elem_of_In, list_elem_of_filter. tauto. }
  split; [reflexivity|]. split; [now apply Hin|]. split; [|split; [|split]].
  - intros l Hl. apply Hmin, Hin. now apply in_map.
  - apply strongly_sorted_strict.
    + apply NoDup_ListNoDup, NoDup_filter, NoDup_ListNoDup, Hnd.
    + now apply strongly_sorted_filter.
  - exact Hfilter.
  - intros E.
    assert (Hone : forall s, In s u -> s = m).
    { intros s Hs. specialize (Hmin s Hs).
      destruct (Z.eq_dec s m) as [|Hne]; [easy|].
      assert (In s (filter (fun s => m < s) u)) as Hf.
      { apply Hfilter. split; [now apply Hin|lia]. }
      rewrite E in Hf. easy. }
    apply Hab. now rewrite (Hone _ Ha'), (Hone _ Hb').
Qed.

(** C6: when [analyze_font_styles] finds no heading size although the
    cleaned lines have two sizes or more, the fallback takes the smallest
    size as body size and, as heading sizes, the larger sizes without
    repetition and in decreasing order; so whenever the lines have two sizes
    or more, the heading sizes after the fallback are not empty. *)
Theorem fallback_heading_sizes (text_lines : list line) :
  (exists a b, In a text_lines /\ In b text_lines /\ l_size a <> l_size b) ->
  (forall body0,
     analyze_font_styles text_lines = (body0, []) ->
     exists body hs,
       size_fallback text_lines (analyze_font_styles text_lines) = Ok (body, hs)
       /\ In body (map l_size text_lines)
       /\ (forall l, In l text_lines -> body <= l_size l)
       /\ StronglySorted (fun x y => y < x) hs
       /\ (forall s, In s hs <-> In s (map l_size text_lines) /\ body < s))
  /\ (exists body hs,
        size_fallback text_lines (analyze_font_styles text_lines) = Ok (body, hs)
        /\ hs <> []).
Proof.
  intros Htwo. split.
  - intros body0 ->.
    destruct (fallback_spec text_lines body0 Htwo)
      as (body & hs & H1 & H2 & H3 & H4 & H5 & _).
    exists body, hs. easy.
  - destruct (analyze_font_styles text_lines) as [body0 [|h hs0]].
    + destruct (fallback_spec text_lines body0 Htwo)
        as (body & hs & H1 & _ & _ & _ & _ & H6).
      exists body, hs. easy.
    + exists body0, (h :: hs0). easy.
Qed.

(** ** Headers and footers *)

Lemma for_each_acc {A S B : Type} (body : S -> A -> outcome S)
    (items : A -> list B) (P : S -> list B -> Prop) (ok : A -> Prop) :
  (forall st ls x, ok x -> P st ls ->
     exists st', body st x = Ok st' /\ P st' (ls ++ items x)) ->
  forall l st ls, Forall ok l -> P st ls ->
    exists st', for_each body l st = Ok st' /\ P st' (ls ++ flat_map items l).
Proof.
  intros Hbody. induction l as [|x l IH]; intros st ls Hok Hst; cbn [for_each flat_map].
  - exists st. now rewrite app_nil_r.
  - inversion Hok as [|? ? Hx Hl]; subst.
    destruct (Hbody st ls x Hx Hst) as (st1 & -> & Hst1). cbn [bind].
    destruct (IH st1 (ls ++ items x) Hl Hst1) as (st' & Hrun & Hst').
    exists st'. now rewrite app_assoc.
Qed.

Lemma flat_map_singleton {A : Type} (l : list A) : flat_map (fun x => [x]) l = l.
Proof. induction l as [|x l IH]; cbn; congruence. Qed.

Lemma Forall_flat_map {A B : Type} (f : A -> list B) (P : B -> Prop) (l : list A) :
  Forall P (flat_map f l) -> Forall (fun x => Forall P (f x)) l.
Proof.
  induction l as [|x l IH]; cbn [flat_map]; [constructor|].
  intros H. apply Forall_app in H as [Hx Hl]. constructor; [easy|now apply IH].
Qed.

Lemma occurrences_snoc (h : float) (z : zone) (t : str) (ls : list rawline) (ln : rawline) :
  occurrences h z t (ls ++ [ln])
  = (occurrences h z t ls + if counts_for h z t ln then 1 else 0)%nat.
Proof.
  unfold occurrences. rewrite List.filter_app, length_app. cbn [List.filter].
  now destruct (counts_for h z t ln).
Qed.

Lemma counted_skip (h : float) (st : candidates) (ls : list rawline) (ln : rawline) :
  (forall t, counts_for h HeaderZone t ln = false) ->
  (forall t, counts_for h FooterZone t ln = false) ->
  counted h st ls -> counted h st (ls ++ [ln]).
Proof.
  intros HH HF Hst t. rewrite !occurrences_snoc, HH, HF, !Nat.add_0_r. apply Hst.
Qed.

Lemma incr_lookup (k t : str) (m : gmap str nat) :
  default 0%nat (incr k m !! t)
  = (default 0%nat (m !! t) + if bool_decide (k = t) then 1 else 0)%nat.
Proof.
  unfold incr. destruct (bool_decide (k = t)) eqn:Hk.
  - apply bool_decide_eq_true in Hk. subst t. rewrite lookup_insert_eq. cbn. lia.
  - apply bool_decide_eq_false in Hk. rewrite lookup_insert_ne by assumption. lia.
Qed.

Lemma scan_line_counted (h : float) (st : candidates) (ls : list rawline) (ln : rawline) :
  is_Some (rl_spans ln) ->
  counted h st ls ->
  exists st',
    scan_line (PrimFloat.mul h 0.15%float) (PrimFloat.mul h 0.85%float) st ln = Ok st'
    /\ counted h st' (ls ++ [ln]).
Proof.
  intros [spans Hspans] Hst. unfold scan_line. rewrite Hspans.
  assert (Htext : raw_text ln = line_text spans) by (unfold raw_text; now rewrite Hspans).
  destruct (negb (truthy (line_text spans)) || (length (line_text spans) <? 4)%nat) eqn:Hshort.
  - exists st. split; [reflexivity|].
    assert (Hlt : (length (line_text spans) < 4)%nat).
    { apply orb_true_iff in Hshort as [H|H].
      - destruct (line_text spans); [cbn; lia|discriminate].
      - now apply Nat.ltb_lt. }
    apply counted_skip; [| |easy]; intros t; unfold counts_for;
      destruct (bool_decide (raw_text ln = t)) eqn:Ht; try reflexivity;
      apply bool_decide_eq_true in Ht; subst t; rewrite Htext;
      (replace (4 <=? length (line_text spans))%nat with false
         by (symmetry; apply Nat.leb_gt; lia)); reflexivity.
  - apply orb_false_iff in Hshort as [_ Hlen]. apply Nat.ltb_ge in Hlen.
    assert (Hcount : forall z t,
      counts_for h z t ln =
      bool_decide (line_text spans = t)
      && match zone_of h ln, z with
         | HeaderZone, HeaderZone | FooterZone, FooterZone | BodyZone, BodyZone => true
         | _, _ => false
         end).
    { intros z t. unfold counts_for. rewrite Htext.
      destruct (bool_decide (line_text spans = t)) eqn:Ht; [|reflexivity].
      apply bool_decide_eq_true in Ht. subst t.
      now replace (4 <=? length (line_text spans))%nat with true
        by (symmetry; now apply Nat.leb_le). }
    unfold zone_of in Hcount.
    destruct (PrimFloat.ltb (bbox_y1 (rl_bbox ln)) (PrimFloat.mul h 0.15%float)).
    + eexists. split; [reflexivity|]. intros t. cbn [fst snd].
      rewrite !occurrences_snoc, !Hcount, incr_lookup, andb_true_r, andb_false_r.
      destruct (Hst t) as [-> ->]. split; lia.
    + destruct (PrimFloat.ltb (PrimFloat.mul h 0.85%float) (bbox_y1 (rl_bbox ln))).
      * eexists. split; [reflexivity|]. intros t. cbn [fst snd].
        rewrite !occurrences_snoc, !Hcount, incr_lookup, andb_true_r, andb_false_r.
        destruct (Hst t) as [-> ->]. split; lia.
      * exists st. split; [reflexivity|].
        apply counted_skip; [| |easy]; intros t; rewrite Hcount; apply andb_false_r.
Qed.

Lemma scan_block_counted (h : float) (st : candidates) (ls : list rawline) (b : block) :
  Forall (fun ln => is_Some (rl_spans ln)) (block_lines b) ->
  counted h st ls ->
  exists st',
    scan_block (PrimFloat.mul h 0.15%float) (PrimFloat.mul h 0.85%float) st b = Ok st'
    /\ counted h st' (ls ++ block_lines b).
Proof.
  intros Hok Hst. unfold scan_block, block_lines in *.
  destruct (bl_lines b) as [lines|].
  - replace (ls ++ lines) with (ls ++ flat_map (fun ln => [ln]) lines)
      by now rewrite flat_map_singleton.
    apply (for_each_acc _ (fun ln => [ln]) (counted h)
             (fun ln => is_Some (rl_spans ln))); [|easy..].
    intros st0 ls0 ln. apply scan_line_counted.
  - exists st. now rewrite app_nil_r.
Qed.

Lemma scan_page_counted (h : float) (st : candidates) (ls : list rawline) (p : page) :
  (exists bs, pg_blocks p = Ok bs)
  /\ Forall (fun ln => is_Some (rl_spans ln)) (page_lines p) ->
  counted h st ls ->
  exists st',
    scan_page (PrimFloat.mul h 0.15%float) (PrimFloat.mul h 0.85%float) st p = Ok st'
    /\ counted h st' (ls ++ page_lines p).
Proof.
  intros [[bs Hbs] Hok] Hst. unfold scan_page, page_lines in *. rewrite Hbs in *.
  cbn [bind].
  apply (for_each_acc _ block_lines (counted h)
           (fun b => Forall (fun ln => is_Some (rl_spans ln)) (block_lines b)));
    [|now apply Forall_flat_map|easy].
  intros st0 ls0 b. apply scan_block_counted.
Qed.

Lemma add_common_spec (thr : nat) (m : gmap str nat) (acc : gset str) (t : str) :
  t ∈ add_common thr m acc <-> t ∈ acc \/ exists c, m !! t = Some c /\ (thr <= c)%nat.
Proof.
  unfold add_common. revert t.
  apply (map_fold_weak_ind
    (fun (r : gset str) (m : gmap str nat) =>
       forall t, t ∈ r <-> t ∈ acc \/ exists c, m !! t = Some c /\ (thr <= c)%nat)).
  - intros t. split; [now left|]. intros [H|(c & H & _)]; [easy|].
    rewrite lookup_empty in H. discriminate.
  - intros k c m' r Hk IH t.
    destruct (thr <=? c)%nat eqn:Hc.
    + apply Nat.leb_le in Hc. rewrite elem_of_union, elem_of_singleton, IH.
      split.
      * intros [->|[H|(c' & H & Hc')]]; [right|now left|right].
        -- exists c. now rewrite lookup_insert_eq.
        -- exists c'. split; [|easy].
           rewrite lookup_insert_ne; [easy|]. intros ->. congruence.
      * intros [H|(c' & H & Hc')]; [right; now left|].
        destruct (decide (k = t)) as [->|Hne]; [now left|].
        rewrite lookup_insert_ne in H by assumption. right. right. eauto.
    + apply Nat.leb_gt in Hc. rewrite IH. split.
      * intros [H|(c' & H & Hc')]; [now left|right].
        exists c'. split; [|easy].
        rewrite lookup_insert_ne; [easy|]. intros ->. congruence.
      * intros [H|(c' & H & Hc')]; [now left|].
        destruct (decide (k = t)) as [->|Hne].
        -- rewrite lookup_insert_eq in H. injection H as ->. lia.
        -- rewrite lookup_insert_ne in H by assumption. right. eauto.
Qed.

Lemma threshold_pos (pc : nat) : (1 <= threshold pc)%nat.
Proof. unfold threshold. destruct (2 <? pc)%nat; lia. Qed.

Lemma counted_threshold (h : float) (st : candidates) (ls : list rawline)
    (thr : nat) (t : str) :
  (1 <= thr)%nat ->
  counted h st ls ->
  ((exists c, fst st !! t = Some c /\ (thr <= c)%nat)
     <-> (thr <= occurrences h HeaderZone t ls)%nat)
  /\ ((exists c, snd st !! t = Some c /\ (thr <= c)%nat)
     <-> (thr <= occurrences h FooterZone t ls)%nat).
Proof.
  intros Hthr Hst. destruct (Hst t) as [<- <-].
  split.
  - destruct (fst st !! t) as [c|]; cbn.
    + split; [now intros (c' & [= <-] & H)|eauto].
    + split; [now intros (c' & [=] & _)|lia].
  - destruct (snd st !! t) as [c|]; cbn.
    + split; [now intros (c' & [= <-] & H)|eauto].
    + split; [now intros (c' & [=] & _)|lia].
Qed.

Lemma occurrences_length (h : float) (z : zone) (t : str) (ls : list rawline) :
  (1 <= occurrences h z t ls)%nat -> (4 <= length t)%nat.
Proof.
  unfold occurrences. induction ls as [|ln ls IH]; cbn [List.filter length]; [lia|].
  destruct (counts_for h z t ln) eqn:Hc; [|easy].
  intros _. unfold counts_for in Hc.
  apply andb_true_iff in Hc as [Hc _]. apply andb_true_iff in Hc as [_ Hc].
  now apply Nat.leb_le.
Qed.

(** C7: a document without pages gives the empty set, with no page read.
    For a document that decodes, a text is in the suppression set exactly
    when its occurrence count in the header zone, or in the footer zone, is
    at least [max (n / 2) 2] for [n > 2] pages and at least 1 otherwise; the
    counts are those of the lines of four code points or more. *)
Theorem suppression_threshold :
  _identify_headers_and_footers [] = Ok ∅
  /\ forall (p0 : page) (d : doc),
       decodable (p0 :: d) ->
       let pages := p0 :: d in
       let h := pg_height p0 in
       let n := length pages in
       let thr := if (2 <? n)%nat then Nat.max (n / 2) 2 else 1%nat in
       exists common : gset str,
         _identify_headers_and_footers pages = Ok common
         /\ (forall t, t ∈ common <->
               (thr <= occurrences h HeaderZone t (raw_lines pages))%nat
               \/ (thr <= occurrences h FooterZone t (raw_lines pages))%nat)
         /\ (forall t, t ∈ common -> (4 <= length t)%nat).
Proof.
  split; [reflexivity|].
  intros p0 d [Hpages Hlines] pages h n thr.
  unfold _identify_headers_and_footers.
  change (page_count pages =? 0)%nat with false.
  change (doc_getitem pages 0) with (Ok p0). cbn [bind]. fold h.
  destruct (for_each_acc
              (scan_page (PrimFloat.mul h 0.15%float) (PrimFloat.mul h 0.85%float))
              page_lines (counted h)
              (fun p => (exists bs, pg_blocks p = Ok bs)
                        /\ Forall (fun ln => is_Some (rl_spans ln)) (page_lines p))
              (fun st ls p => scan_page_counted h st ls p)
              pages (∅, ∅) [])
    as (st & Hrun & Hst).
  { apply Forall_flat_map in Hlines.
    apply List.Forall_forall. intros p Hp.
    rewrite List.Forall_forall in Hpages, Hlines. split; [now apply Hpages|now apply Hlines]. }
  { intros t. cbn [fst snd]. now rewrite !lookup_empty. }
  cbn [app] in Hst. fold (raw_lines pages) in Hst.
  rewrite Hrun. cbn [bind].
  change (threshold (length pages)) with thr.
  assert (Hthr : (1 <= thr)%nat) by apply (threshold_pos (length pages)).
  assert (Hmem : forall t,
    t ∈ add_common thr (snd st) (add_common thr (fst st) ∅) <->
    (thr <= occurrences h HeaderZone t (raw_lines pages))%nat
    \/ (thr <= occurrences h FooterZone t (raw_lines pages))%nat).
  { intros t. rewrite !add_common_spec.
    destruct (counted_threshold h st (raw_lines pages) thr t Hthr Hst) as [-> ->].
    rewrite elem_of_empty. tauto. }
  eexists. split; [reflexivity|]. split; [exact Hmem|].
  intros t Ht. apply Hmem in Ht as [Ht|Ht];
    eapply occurrences_length with (ls := raw_lines pages); etransitivity; eauto.
Qed.

(** ** The sample document *)

Example sample_outline :
  extract_outline Sample.files Sample.path =
  Ok {| title := lit "Annual Report";
        outline := [
          {| e_level := H2; e_text := lit "Overview"; e_page := 1 |};
          {| e_level := H2; e_text := lit "Overview"; e_page := 2 |};
          {| e_level := H2; e_text := lit "2.1 Details"; e_page := 2 |};
          {| e_level := H1; e_text := lit "3 Results"; e_page := 3 |} ] |}.
Proof. vm_compute. reflexivity. Qed.

Example sample_sizes :
  size_fallback Sample.lines (analyze_font_styles Sample.lines)
  = Ok (120, [240; 160; 140]).
Proof. vm_compute. reflexivity. Qed.

Example sample_footer_suppressed :
  Forall (fun l => l_text l <> lit "Confidential") Sample.lines.
Proof. repeat constructor; discriminate. Qed.

Example report_outline :
  extract_outline (fun _ => Opened [Sample.report_page]) Sample.path
  = Ok {| title := lit "Annual Report"; outline := [] |}.
Proof. vm_compute. reflexivity. Qed.

Example long_title_cut :
  extract_title [Sample.text_line (repeat "A"%char 160)]
  = Ok (repeat "A"%char 147 ++ lit "...").
Proof. vm_compute. reflexivity. Qed.

Example title_spaces_collapsed :
  extract_title [Sample.text_line (lit "Annual"); Sample.text_line (lit "Report	 2024")]
  = Ok (lit "Annual Report 2024").
Proof. vm_compute. reflexivity. Qed.

Lemma extract_outline_never_raises_witness :
  Sample.files (lit "absent.pdf") = Missing
  /\ extract_outline Sample.files (lit "absent.pdf") = Ok error_result.
Proof.
  split; [vm_compute; reflexivity|].
  destruct (extract_outline_never_raises Sample.files (lit "absent.pdf"))
    as (_ & H & _).
  apply H. vm_compute. reflexivity.
Defined.

Lemma outline_deduplicated_witness :
  extract_outline Sample.files Sample.path = Ok Sample.result
  /\ List.NoDup (map entry_key (outline Sample.result)).
Proof.
  split; [vm_compute; reflexivity|].
  apply (outline_deduplicated Sample.files Sample.path Sample.result 120 [240; 160; 140]);
    vm_compute; reflexivity.
Defined.

Lemma outline_above_body_size_witness :
  extract_outline Sample.files Sample.path = Ok Sample.result
  /\ forall e, In e (outline Sample.result) ->
       exists l, In l (extract_text_lines Sample.files Sample.path)
         /\ e = entry_of [240; 160; 140] l /\ 120 < l_size l.
Proof.
  split; [vm_compute; reflexivity|].
  apply (outline_above_body_size Sample.files Sample.path Sample.result 120 [240; 160; 140]);
    vm_compute; reflexivity.
Defined.

Lemma outline_sorted_by_page_witness :
  extract_outline Sample.files Sample.path = Ok Sample.result
  /\ StronglySorted (fun a b => (e_page a <= e_page b)%nat) (outline Sample.result).
Proof.
  split; [vm_compute; reflexivity|].
  apply (outline_sorted_by_page Sample.files Sample.path Sample.result 120 [240; 160; 140]);
    vm_compute; reflexivity.
Defined.

Lemma fallback_heading_sizes_witness :
  analyze_font_styles Sample.dense_lines = (120, [])
  /\ exists body hs,
       size_fallback Sample.dense_lines (analyze_font_styles Sample.dense_lines)
       = Ok (body, hs)
       /\ hs <> [].
Proof.
  split; [vm_compute; reflexivity|].
  apply (fallback_heading_sizes Sample.dense_lines).
  eexists _, _. split; [left; reflexivity|]. split; [right; right; left; reflexivity|].
  vm_compute. discriminate.
Defined.

Lemma suppression_threshold_witness :
  decodable Sample.document
  /\ exists common : gset str,
       _identify_headers_and_footers Sample.document = Ok common
       /\ (forall t, t ∈ common <->
             (2 <= occurrences 800%float HeaderZone t (raw_lines Sample.document))%nat
             \/ (2 <= occurrences 800%float FooterZone t (raw_lines Sample.document))%nat)
       /\ (forall t, t ∈ common -> (4 <= length t)%nat).
Proof.
  assert (H : decodable Sample.document).
  { split; repeat constructor; eauto. }
  split; [exact H|].
  exact (proj2 suppression_threshold Sample.page_1 [Sample.page_2; Sample.page_3] H).
Defined.

Lemma dot_leader_lines_excluded_witness :
  clean_line ∅ 0 (Sample.mk_line "Overview .... 2" 120 0 350%float) = None.
Proof.
  destruct (dot_leader_lines_excluded Sample.files Sample.path) as (H & _).
  apply (H ∅ 0%nat _ [Sample.mk_span "Overview .... 2" 120 0]); [reflexivity|].
  exists (lit "Overview"), (lit " "), (lit "...."), (lit " "), (lit "2").
  split; [vm_compute; reflexivity|].
  repeat split; try discriminate; try (cbn; lia); repeat constructor.
Defined.

Lemma extract_title_spec_witness :
  exists max_size,
    In max_size (map l_size (title_lines Sample.lines))
    /\ extract_title Sample.lines
       = Ok (title_of (title_lines Sample.lines) max_size).
Proof.
  pose proof (extract_title_spec Sample.lines) as H.
  destruct (title_lines Sample.lines) eqn:E; [discriminate E|].
  destruct H as (m & H1 & _ & H2). exists m. split; assumption.
Defined.

Lemma extract_outline_no_lines_witness :
  extract_text_lines (fun _ => Opened Sample.blank_document) Sample.path = []
  /\ extract_outline (fun _ => Opened Sample.blank_document) Sample.path
     = Ok error_result.
Proof.
  split; [vm_compute; reflexivity|].
  apply extract_outline_no_lines. vm_compute. reflexivity.
Defined.

(** ** Heading candidates *)

Lemma star_cls_sound (n0 : nat) (p : char -> bool) (fuel : nat) (s s' : str) :
  In s' (star_loop (run n0 (Cls p)) fuel s) ->
  exists xs, Forall (fun c => p c = true) xs /\ s = xs ++ s'.
Proof.
  revert s. induction fuel as [|fuel IH]; intros s; cbn [star_loop].
  - intros [<-|[]]. now exists [].
  - intros H. apply in_app_or in H as [H|[<-|[]]]; [|now exists []].
    apply in_flat_map in H as (s1 & Hs1 & H).
    destruct s as [|c s]; [easy|]. cbn [run] in Hs1.
    destruct (p c) eqn:Hc; [|easy]. destruct Hs1 as [<-|[]].
    destruct (length s <? length (c :: s))%nat; [|easy].
    destruct (IH s H) as (xs & Hxs & ->).
    exists (c :: xs). split; [now constructor|reflexivity].
Qed.

Lemma plus_cls_sound (n0 : nat) (p : char -> bool) (s s' : str) :
  In s' (run n0 (Plus (Cls p)) s) ->
  exists xs, xs <> [] /\ Forall (fun c => p c = true) xs /\ s = xs ++ s'.
Proof.
  unfold Plus. rewrite run_seq_eq. intros H.
  apply in_flat_map in H as (s1 & Hs1 & H).
  destruct s as [|c s]; [easy|]. cbn [run] in Hs1.
  destruct (p c) eqn:Hc; [|easy]. destruct Hs1 as [<-|[]].
  rewrite run_star_eq in H.
  destruct (star_cls_sound n0 p _ _ _ H) as (xs & Hxs & ->).
  exists (c :: xs). split; [easy|]. split; [now constructor|reflexivity].
Qed.

(** [re.fullmatch(r'\d+', text)] holds exactly for the non-empty digit
    strings. *)
Lemma fullmatch_digits (text : str) :
  fullmatch digits_re text = true <-> is_number text.
Proof.
  unfold fullmatch, digits_re, cls_digit. rewrite existsb_exists. split.
  - intros (s' & Hs' & Hnil). destruct s' as [|? ?]; [|discriminate].
    destruct (plus_cls_sound _ _ _ _ Hs') as (xs & Hne & Hxs & ->).
    rewrite app_nil_r. now split.
  - intros [Hne Hd]. exists []. split; [|reflexivity].
    rewrite <- (app_nil_r text) at 2. now apply run_plus_cls_in.
Qed.

Lemma not_number_fullmatch (text : str) :
  ~ is_number text -> fullmatch digits_re text = false.
Proof.
  intros H. destruct (fullmatch digits_re text) eqn:E; [|reflexivity].
  now apply fullmatch_digits in E.
Qed.

Lemma land_16 (flags : Z) :
  Z.land flags 16 = if Z.testbit flags 4 then 16 else 0.
Proof.
  apply Z.bits_inj'. intros n Hn. rewrite Z.land_spec.
  change 16 with (2 ^ 4). rewrite Z.pow2_bits_eqb by lia.
  destruct (Z.eqb_spec 4 n) as [<-|Hne].
  - destruct (Z.testbit flags 4); [now rewrite Z.pow2_bits_eqb|now rewrite Z.bits_0].
  - rewrite andb_false_r.
    destruct (Z.testbit flags 4); [|now rewrite Z.bits_0].
    rewrite Z.pow2_bits_eqb by lia. symmetry. now apply Z.eqb_neq.
Qed.

Lemma is_likely_heading_length (l : line) :
  is_likely_heading l = true -> (3 <= length (l_text l) <= 200)%nat.
Proof.
  unfold is_likely_heading.
  destruct ((length (l_text l) <? 3)%nat || (200 <? length (l_text l))%nat) eqn:Hlen;
    [discriminate|].
  apply orb_false_iff in Hlen as [H3 H200].
  apply Nat.ltb_ge in H3, H200. lia.
Qed.

(** The three tests that remain once the length and the number checks are
    passed. *)
Lemma is_likely_heading_tests (l : line) :
  (3 <= length (l_text l) <= 200)%nat ->
  ~ is_number (l_text l) ->
  is_likely_heading l
  = bool_decide (strip (lower (l_text l)) ∈ explicit_headings)
    || existsb (fun pattern => bool_decide (is_Some (match_ pattern (l_text l))))
         heading_patterns
    || Z.testbit (l_flags l) 4.
Proof.
  intros [H3 H200] Hn. unfold is_likely_heading.
  replace (length (l_text l) <? 3)%nat with false by (symmetry; apply Nat.ltb_ge; lia).
  replace (200 <? length (l_text l))%nat with false by (symmetry; apply Nat.ltb_ge; lia).
  cbn [orb]. rewrite not_number_fullmatch by assumption.
  destruct (bool_decide _); [reflexivity|].
  destruct (existsb _ heading_patterns); [reflexivity|].
  rewrite land_16. now destruct (Z.testbit (l_flags l) 4).
Qed.

(** X1: A heading candidate has 3 to 200 code points and is not a number,
    whatever its style flags. *)
Theorem heading_needs_length_and_text (l : line) :
  is_likely_heading l = true ->
  (3 <= length (l_text l) <= 200)%nat /\ ~ is_number (l_text l).
Proof.
  intros H. split; [now apply is_likely_heading_length|].
  intros Hn. apply fullmatch_digits in Hn.
  revert H. unfold is_likely_heading. rewrite Hn.
  now destruct (_ || _).
Qed.

Lemma heading_needs_length_and_text_witness :
  (3 <= length (lit "Overview") <= 200)%nat /\ ~ is_number (lit "Overview").
Proof.
  apply (heading_needs_length_and_text (Sample.text_line (lit "Overview"))).
  vm_compute. reflexivity.
Defined.

(** X2: A bold line of 3 to 200 code points that is not a number is a heading
    candidate, whatever its text. *)
Theorem bold_line_is_heading (l : line) :
  (3 <= length (l_text l) <= 200)%nat ->
  ~ is_number (l_text l) ->
  Z.testbit (l_flags l) 4 = true ->
  is_likely_heading l = true.
Proof.
  intros Hlen Hn Hbold.
  rewrite is_likely_heading_tests, Hbold by assumption. apply orb_true_r.
Qed.

Lemma bold_line_is_heading_witness :
  is_likely_heading
    {| l_text := lit "see the annex"; l_font := lit "Helvetica-Bold"; l_size := 130;
       l_flags := 20; l_bbox := (72, 100, 540, 112)%float; l_page := 3 |} = true.
Proof.
  apply bold_line_is_heading.
  - cbn. lia.
  - intros [_ H]. inversion H as [|? ? Hc _]. discriminate Hc.
  - reflexivity.
Defined.

(** ** [str.strip] *)

Lemma lstrip_id (s : str) :
  match s with c :: _ => isspace c = false | [] => True end -> lstrip s = s.
Proof. destruct s as [|c s]; [easy|]. cbn [lstrip]. now intros ->. Qed.

Lemma lstrip_head (s : str) :
  match lstrip s with c :: _ => isspace c = false | [] => True end.
Proof. destruct (lstrip_split s) as (ws & _ & _ & H). exact H. Qed.

Lemma lstrip_idem (s : str) : lstrip (lstrip s) = lstrip s.
Proof. apply lstrip_id, lstrip_head. Qed.

Lemma rstrip_head (s : str) :
  match s with c :: _ => isspace c = false | [] => True end ->
  match rstrip s with c :: _ => isspace c = false | [] => True end.
Proof.
  intros Hs. unfold rstrip.
  destruct (lstrip_split (rev s)) as (ws & Hrev & _ & _).
  apply (f_equal (@rev char)) in Hrev. rewrite rev_involutive, rev_app_distr in Hrev.
  destruct (rev (lstrip (rev s))) as [|c r] eqn:E; [easy|].
  rewrite Hrev in Hs. exact Hs.
Qed.

(** A stripped text starts and ends with no whitespace. *)
Lemma strip_trimmed (s : str) :
  lstrip (strip s) = strip s /\ lstrip (rev (strip s)) = rev (strip s).
Proof.
  unfold strip. split.
  - apply lstrip_id, rstrip_head, lstrip_head.
  - unfold rstrip. rewrite rev_involutive. apply lstrip_idem.
Qed.

Lemma strip_id (s : str) :
  lstrip s = s -> lstrip (rev s) = rev s -> strip s = s.
Proof.
  intros H1 H2. unfold strip, rstrip. rewrite H1, H2. apply rev_involutive.
Qed.

Lemma strip_idem (s : str) : strip (strip s) = strip s.
Proof. destruct (strip_trimmed s). now apply strip_id. Qed.

(** ** Keywords, and texts no pattern can match *)

Lemma digit_cases (c : char) :
  isdecimal c = true ->
  isspace c = false /\ lower_char c = c /\ isupper_az c = false.
Proof.
  destruct c as [[] [] [] [] [] [] [] []]; intros H; try discriminate H;
    repeat split; reflexivity.
Qed.

Lemma number_strip_lower (text : str) :
  is_number text -> strip (lower text) = text.
Proof.
  intros [Hne Hd].
  assert (Hlower : lower text = text).
  { clear Hne. induction Hd as [|c t Hc _ IH]; [reflexivity|].
    cbn [lower map]. fold (lower t). rewrite IH.
    now destruct (digit_cases c Hc) as (_ & -> & _). }
  rewrite Hlower. apply strip_id.
  - destruct text as [|c t]; [easy|]. apply lstrip_id.
    inversion Hd as [|? ? Hc _]. now destruct (digit_cases c Hc).
  - apply lstrip_id. destruct (rev text) as [|c r] eqn:E; [easy|].
    rewrite List.Forall_forall in Hd.
    assert (Hc : isdecimal c = true).
    { apply Hd, in_rev. rewrite E. now left. }
    now destruct (digit_cases c Hc).
Qed.

Lemma keyword_not_number (text : str) :
  text ∈ explicit_headings -> ~ is_number text.
Proof.
  unfold explicit_headings. rewrite elem_of_list_to_set.
  intros Hin [_ Hd]. apply list_elem_of_In in Hin. cbn [map In] in Hin.
  repeat (destruct Hin as [<-|Hin];
          [inversion Hd as [|? ? Hc _]; discriminate Hc|]).
  exact Hin.
Qed.

(** X3: A text of 3 to 200 code points that is one of the keywords once
    lowercased and stripped is a heading candidate, bold or not. *)
Theorem keyword_is_heading (l : line) :
  (3 <= length (l_text l) <= 200)%nat ->
  strip (lower (l_text l)) ∈ explicit_headings ->
  is_likely_heading l = true.
Proof.
  intros Hlen Hkey. rewrite is_likely_heading_tests; [|assumption|].
  - now rewrite bool_decide_eq_true_2.
  - intros Hn. apply (keyword_not_number (l_text l)); [|exact Hn].
    now rewrite <- (number_strip_lower _ Hn) at 1.
Qed.

Lemma keyword_is_heading_witness :
  is_likely_heading (Sample.text_line (lit "  Table Of CONTENTS ")) = true.
Proof.
  apply keyword_is_heading.
  - cbn. lia.
  - vm_compute. reflexivity.
Defined.

Lemma roman_is_upper (c : char) : is_roman c = true -> isupper_az c = true.
Proof.
  unfold is_roman. rewrite existsb_exists. intros (x & Hx & Hc).
  apply Ascii.eqb_eq in Hc. subst x. cbn in Hx.
  repeat (destruct Hx as [<-|Hx]; [reflexivity|]). easy.
Qed.

Lemma run_lit_miss (n0 : nat) (a c : char) (w t : str) :
  Ascii.eqb c a = false -> run n0 (Lit (a :: w)) (c :: t) = [].
Proof. intros H. cbn [Lit]. rewrite run_seq_eq, run_chr, H. reflexivity. Qed.

Lemma match_none (r : re) (s : str) :
  run (length s) r s = [] -> match_ r s = None.
Proof. unfold match_. now intros ->. Qed.

Lemma not_upper_neq (c a : char) :
  isupper_az c = false -> isupper_az a = true -> Ascii.eqb c a = false.
Proof.
  intros Hc Ha. destruct (Ascii.eqb_spec c a) as [->|]; [congruence|reflexivity].
Qed.

(** No heading pattern matches a text whose first code point is neither a
    digit, nor a letter A-Z, nor whitespace. *)
Lemma patterns_miss (c : char) (t : str) :
  isdecimal c = false -> isupper_az c = false -> isspace c = false ->
  existsb (fun pattern => bool_decide (is_Some (match_ pattern (c :: t))))
    heading_patterns = false.
Proof.
  intros Hd Hu Hs.
  assert (Hnone : forall r, run (length (c :: t)) r (c :: t) = [] ->
            bool_decide (is_Some (match_ (Bos ⨾ r) (c :: t))) = false).
  { intros r Hr. apply bool_decide_eq_false. rewrite match_none; [now intros [? ?]|].
    rewrite run_seq_eq, run_bos by reflexivity. cbn [flat_map]. now rewrite Hr. }
  assert (H1 : run (length (c :: t))
            (Plus cls_digit ⨾ Star segment_re ⨾ Plus cls_space ⨾ Star Dot) (c :: t) = []).
  { apply run_seq_nil, run_seq_nil. now apply run_cls_miss. }
  assert (H2 : run (length (c :: t))
            (Alt (Lit (lit "Chapter")) (Lit (lit "Section")) ⨾ Plus cls_space
               ⨾ Alt cls_upper (Plus cls_digit) ⨾ Plus cls_space ⨾ Star Dot) (c :: t) = []).
  { apply run_seq_nil. cbn [run].
    change (lit "Chapter") with ("C"%char :: lit "hapter").
    change (lit "Section") with ("S"%char :: lit "ection").
    rewrite !run_lit_miss; [reflexivity|now apply not_upper_neq..]. }
  assert (H3 : run (length (c :: t))
            (AtLeast 3 (Cls (or_cls isupper_az isspace)) ⨾ Eos) (c :: t) = []).
  { apply run_seq_nil. cbn [AtLeast]. apply run_seq_nil, run_cls_miss.
    unfold or_cls. now rewrite Hu, Hs. }
  assert (H4 : run (length (c :: t))
            ((cls_upper ⨾ Plus cls_lower)
               ⨾ Plus (cls_space ⨾ cls_upper ⨾ Plus cls_lower) ⨾ Eos) (c :: t) = []).
  { apply run_seq_nil, run_seq_nil. now apply run_cls_miss. }
  assert (H5 : run (length (c :: t))
            (Plus (Cls is_roman) ⨾ Chr "."%char ⨾ Plus cls_space ⨾ Plus Dot) (c :: t) = []).
  { apply run_seq_nil, run_seq_nil. apply run_cls_miss.
    destruct (is_roman c) eqn:Hr; [|reflexivity].
    apply roman_is_upper in Hr. congruence. }
  unfold heading_patterns. cbn [existsb].
  now rewrite (Hnone _ H1), (Hnone _ H2), (Hnone _ H3), (Hnone _ H4), (Hnone _ H5).
Qed.

(** X4: A line that is not bold and whose text starts with neither a digit, nor
    a letter A-Z, nor whitespace is a heading candidate exactly when it has
    3 to 200 code points and is one of the keywords. *)
Theorem plain_line_is_heading_iff_keyword (l : line) (c : char) (t : str) :
  l_text l = c :: t ->
  isdecimal c = false -> isupper_az c = false -> isspace c = false ->
  Z.testbit (l_flags l) 4 = false ->
  is_likely_heading l = true
  <-> (3 <= length (l_text l) <= 200)%nat
      /\ strip (lower (l_text l)) ∈ explicit_headings.
Proof.
  intros Htext Hd Hu Hs Hflags.
  assert (Hn : ~ is_number (l_text l)).
  { rewrite Htext. intros [_ H]. inversion H as [|? ? Hc _]. congruence. }
  assert (Hmiss := patterns_miss c t Hd Hu Hs). rewrite <- Htext in Hmiss.
  split.
  - intros H. pose proof (is_likely_heading_length l H) as Hlen.
    split; [exact Hlen|].
    rewrite is_likely_heading_tests, Hmiss, Hflags in H by assumption.
    rewrite !orb_false_r in H. now apply bool_decide_eq_true in H.
  - intros [Hlen Hkey]. rewrite is_likely_heading_tests by assumption.
    now rewrite bool_decide_eq_true_2.
Qed.

Lemma plain_line_is_heading_iff_keyword_witness :
  is_likely_heading (Sample.text_line (lit "overview")) = true
  <-> (3 <= length (lit "overview") <= 200)%nat
      /\ strip (lower (lit "overview")) ∈ explicit_headings.
Proof.
  apply (plain_line_is_heading_iff_keyword
           (Sample.text_line (lit "overview")) "o"%char (lit "verview"));
    reflexivity.
Defined.

(** ** The heading patterns recognise their shapes *)

Lemma pattern_hit (r : re) (text x : str) :
  In r heading_patterns ->
  In x (run (length text) r text) ->
  existsb (fun pattern => bool_decide (is_Some (match_ pattern text)))
    heading_patterns = true.
Proof.
  intros Hr Hx. apply existsb_exists. exists r. split; [exact Hr|].
  apply bool_decide_eq_true. unfold match_.
  destruct (run (length text) r text); [easy|eauto].
Qed.

Lemma shape_is_heading (l : line) (r : re) (x : str) :
  (3 <= length (l_text l) <= 200)%nat ->
  ~ is_number (l_text l) ->
  In r heading_patterns ->
  In x (run (length (l_text l)) r (l_text l)) ->
  is_likely_heading l = true.
Proof.
  intros Hlen Hn Hr Hx. rewrite is_likely_heading_tests by assumption.
  rewrite (pattern_hit r _ x Hr Hx). now rewrite orb_true_r.
Qed.

Lemma space_cases (c : char) :
  isspace c = true ->
  isdecimal c = false /\ Ascii.eqb c "."%char = false
  /\ Ascii.eqb c "010"%char = false \/ c = "010"%char.
Proof.
  destruct c as [[] [] [] [] [] [] [] []]; intros H; try discriminate H;
    (left; repeat split; reflexivity) || (right; reflexivity).
Qed.

Lemma space_not_digit (c : char) : isspace c = true -> isdecimal c = false.
Proof.
  destruct c as [[] [] [] [] [] [] [] []]; intros H; try discriminate H; reflexivity.
Qed.

Lemma space_not_dot (c : char) : isspace c = true -> Ascii.eqb c "."%char = false.
Proof.
  destruct c as [[] [] [] [] [] [] [] []]; intros H; try discriminate H; reflexivity.
Qed.

Lemma head_In {A : Type} (l : list A) (x : A) : head l = Some x -> In x l.
Proof. destruct l; [discriminate|]. intros [= ->]. now left. Qed.

Lemma run_lit_in (n0 : nat) (w rest : str) : In rest (run n0 (Lit w) (w ++ rest)).
Proof.
  induction w as [|c w IH]; [now left|].
  cbn [Lit app]. eapply run_seq_in; [|exact IH].
  rewrite run_chr, Ascii.eqb_refl. now left.
Qed.

Lemma run_atleast_in (n0 : nat) (p : char -> bool) (n : nat) (xs rest : str) :
  (n <= length xs)%nat ->
  Forall (fun c => p c = true) xs ->
  In rest (run n0 (AtLeast n (Cls p)) (xs ++ rest)).
Proof.
  revert xs. induction n as [|n IH]; intros xs Hlen Hxs; cbn [AtLeast].
  - now apply run_star_cls_in.
  - destruct xs as [|c xs]; [cbn in Hlen; lia|].
    inversion Hxs as [|? ? Hc Hxs']; subst. cbn [app].
    eapply run_seq_in; [rewrite run_cls_hit by assumption; now left|].
    apply IH; [cbn in Hlen; lia|assumption].
Qed.

Lemma run_star_refl (n0 : nat) (a : re) (s : str) : In s (run n0 (Star a) s).
Proof. rewrite run_star_eq. apply star_loop_in_refl. Qed.

Lemma run_bos_in (a : re) (text x : str) :
  In x (run (length text) a text) -> In x (run (length text) (Bos ⨾ a) text).
Proof. intros H. eapply run_seq_in; [rewrite run_bos by reflexivity; now left|exact H]. Qed.

Lemma blank_not_number (pre ws post : str) :
  is_blank ws -> ~ is_number (pre ++ ws ++ post).
Proof.
  intros [Hne Hws] [_ Hd]. destruct ws as [|c ws]; [easy|].
  inversion Hws as [|? ? Hc _]; subst.
  rewrite List.Forall_forall in Hd.
  specialize (Hd c). rewrite (space_not_digit c Hc) in Hd.
  assert (In c (pre ++ (c :: ws) ++ post)); [|now apply Hd in H].
  apply in_or_app. right. now left.
Qed.

(** X5: A numbered heading, a dotted numbering then whitespace then any text,
    is a heading candidate when it has at most 200 code points. *)
Theorem numbered_text_is_heading (l : line) (segs : list str) (ws tail : str) :
  segs <> [] -> Forall is_number segs -> is_blank ws ->
  l_text l = join (lit ".") segs ++ ws ++ tail ->
  (3 <= length (l_text l) <= 200)%nat ->
  is_likely_heading l = true.
Proof.
  intros Hne Hsegs Hws Htext Hlen.
  assert (Hends : ends_numbering (ws ++ tail) = true).
  { destruct Hws as [Hwne Hws]. destruct ws as [|c ws]; [easy|].
    inversion Hws as [|? ? Hc _]; subst. cbn [app ends_numbering].
    now rewrite (space_not_digit c Hc), (space_not_dot c Hc). }
  apply (shape_is_heading l (nth 0 heading_patterns Eps) tail); [assumption| |now left|].
  - rewrite Htext. now apply blank_not_number.
  - rewrite Htext. cbn [nth heading_patterns].
    pose proof (numbering_re_head segs (ws ++ tail) Hne Hsegs Hends) as Hhead.
    apply head_In in Hhead. unfold numbering_re in Hhead.
    rewrite !run_seq_eq in Hhead |- *.
    apply in_flat_map in Hhead as (s1 & Hs1 & Hhead).
    apply in_flat_map. exists s1. split; [exact Hs1|].
    rewrite run_seq_eq in Hhead |- *.
    apply in_flat_map in Hhead as (s2 & Hs2 & Hhead).
    apply in_flat_map. exists s2. split; [exact Hs2|].
    eapply run_seq_in; [exact Hhead|].
    destruct Hws. eapply run_seq_in; [now apply run_plus_cls_in|apply run_star_refl].
Qed.

Lemma numbered_text_is_heading_witness :
  is_likely_heading (Sample.text_line (lit "2.1 Details")) = true.
Proof.
  apply (numbered_text_is_heading _ [lit "2"; lit "1"] (lit " ") (lit "Details")).
  - discriminate.
  - repeat constructor; discriminate.
  - split; [discriminate|repeat constructor].
  - reflexivity.
  - cbn. lia.
Defined.

(** X6: ["Chapter"] or ["Section"], whitespace, an identifier, whitespace and
    any text: a heading candidate when it has at most 200 code points. *)
Theorem chapter_text_is_heading (l : line) (kw ws1 ident ws2 tail : str) :
  kw = lit "Chapter" \/ kw = lit "Section" ->
  is_blank ws1 -> is_ident ident -> is_blank ws2 ->
  l_text l = kw ++ ws1 ++ ident ++ ws2 ++ tail ->
  (length (l_text l) <= 200)%nat ->
  is_likely_heading l = true.
Proof.
  intros Hkw Hws1 Hid Hws2 Htext Hlen.
  apply (shape_is_heading l (nth 1 heading_patterns Eps) tail); [| |right; now left|].
  - split; [|exact Hlen]. rewrite Htext, length_app.
    destruct Hkw as [-> | ->]; cbn; lia.
  - rewrite Htext. now apply blank_not_number.
  - rewrite Htext. cbn [nth heading_patterns]. apply run_bos_in.
    eapply run_seq_in.
    { cbn [run]. apply in_or_app.
      destruct Hkw as [-> | ->]; [left|right]; apply run_lit_in. }
    destruct Hws1, Hws2.
    eapply run_seq_in; [now apply run_plus_cls_in|].
    eapply run_seq_in.
    { cbn [run]. apply in_or_app.
      destruct Hid as [(u & -> & Hu)|[Hne Hd]].
      - left. cbn [app]. unfold cls_upper. rewrite run_cls_hit by assumption. now left.
      - right. now apply run_plus_cls_in. }
    eapply run_seq_in; [now apply run_plus_cls_in|apply run_star_refl].
Qed.

Lemma chapter_text_is_heading_witness :
  is_likely_heading (Sample.text_line (lit "Section B Scope")) = true.
Proof.
  apply (chapter_text_is_heading _ (lit "Section") (lit " ") (lit "B") (lit " ") (lit "Scope")).
  - now right.
  - split; [discriminate|repeat constructor].
  - left. now exists "B"%char.
  - split; [discriminate|repeat constructor].
  - reflexivity.
  - cbn. lia.
Defined.

(** X7: A text of letters A-Z and whitespace only is a heading candidate when it
    has 3 to 200 code points. *)
Theorem capitals_text_is_heading (l : line) :
  Forall (fun c => isupper_az c = true \/ isspace c = true) (l_text l) ->
  (3 <= length (l_text l) <= 200)%nat ->
  is_likely_heading l = true.
Proof.
  intros Hcaps Hlen.
  apply (shape_is_heading l (nth 2 heading_patterns Eps) []);
    [assumption| |right; right; now left|].
  - intros [Hne Hd]. destruct (l_text l) as [|c t]; [easy|].
    inversion Hcaps as [|? ? Hc _]; inversion Hd as [|? ? Hc' _]; subst.
    destruct (digit_cases c Hc') as (Hs & _ & Hu).
    destruct Hc; congruence.
  - cbn [nth heading_patterns]. apply run_bos_in.
    apply run_seq_in with (s1 := []); [|now left].
    rewrite <- (app_nil_r (l_text l)) at 2.
    apply run_atleast_in; [lia|].
    eapply Forall_impl; [exact Hcaps|]. intros c Hc. unfold or_cls.
    destruct Hc as [-> | ->]; [reflexivity|apply orb_true_r].
Qed.

Lemma capitals_text_is_heading_witness :
  is_likely_heading (Sample.text_line (lit "SCOPE OF WORK")) = true.
Proof.
  apply capitals_text_is_heading.
  - repeat (apply Forall_cons; split;
              [first [left; reflexivity | right; reflexivity]|]).
    apply Forall_nil_2.
  - cbn. lia.
Defined.

Lemma run_word_in (n0 : nat) (w rest : str) :
  is_word w -> In rest (run n0 (cls_upper ⨾ Plus cls_lower) (w ++ rest)).
Proof.
  intros (u & ls & -> & Hu & Hne & Hls). cbn [app].
  eapply run_seq_in.
  - unfold cls_upper. rewrite run_cls_hit by assumption. now left.
  - now apply run_plus_cls_in.
Qed.

Lemma run_group_in (n0 : nat) (s : char) (w rest : str) :
  isspace s = true -> is_word w ->
  In rest (run n0 (cls_space ⨾ cls_upper ⨾ Plus cls_lower) ((s :: w) ++ rest)).
Proof.
  intros Hs Hw. cbn [app]. eapply run_seq_in.
  - unfold cls_space. rewrite run_cls_hit by assumption. now left.
  - now apply run_word_in.
Qed.

Lemma spaced_cons (sw : char * str) (sws : list (char * str)) (rest : str) :
  spaced (sw :: sws) ++ rest = (fst sw :: snd sw) ++ spaced sws ++ rest.
Proof. unfold spaced. cbn [map concat]. now rewrite <- app_assoc. Qed.

Lemma star_groups_in (n0 : nat) (sws : list (char * str)) (rest : str) (fuel : nat) :
  Forall (fun sw => isspace (fst sw) = true /\ is_word (snd sw)) sws ->
  (length (spaced sws ++ rest) <= fuel)%nat ->
  In rest (star_loop (run n0 (cls_space ⨾ cls_upper ⨾ Plus cls_lower)) fuel
             (spaced sws ++ rest)).
Proof.
  intros Hsws. revert fuel.
  induction Hsws as [|[s w] sws [Hs Hw] _ IH]; intros fuel Hfuel.
  - apply star_loop_in_refl.
  - rewrite spaced_cons in *. cbn [fst snd] in *.
    cbn [app length] in Hfuel. rewrite length_app in Hfuel.
    destruct fuel as [|fuel]; [lia|].
    apply star_loop_in with (s1 := spaced sws ++ rest).
    + now apply run_group_in.
    + cbn [app length]. rewrite !length_app. lia.
    + apply IH. lia.
Qed.

(** X8: Two or more capitalized words, one whitespace code point between them,
    are a heading candidate when they have at most 200 code points. *)
Theorem title_case_text_is_heading (l : line) (w : str) (sws : list (char * str)) :
  is_word w ->
  sws <> [] ->
  Forall (fun sw => isspace (fst sw) = true /\ is_word (snd sw)) sws ->
  l_text l = w ++ spaced sws ->
  (length (l_text l) <= 200)%nat ->
  is_likely_heading l = true.
Proof.
  intros Hw Hne Hsws Htext Hlen.
  apply (shape_is_heading l (nth 3 heading_patterns Eps) []);
    [| |right; right; right; now left|].
  - split; [|exact Hlen]. rewrite Htext, length_app.
    destruct Hw as (u & ls & -> & _ & Hls & _).
    destruct ls; [easy|]. destruct sws as [|[s w'] sws]; [easy|]. cbn. lia.
  - rewrite Htext. intros [_ Hd].
    destruct Hw as (u & ls & -> & Hu & _). inversion Hd as [|? ? Hc _]; subst.
    destruct (digit_cases u Hc) as (_ & _ & Hu'). congruence.
  - rewrite Htext. cbn [nth heading_patterns]. apply run_bos_in.
    eapply run_seq_in; [now apply run_word_in|].
    apply run_seq_in with (s1 := []); [|now left].
    destruct sws as [|[s w'] sws]; [easy|].
    inversion Hsws as [|? ? [Hs Hw'] Hsws']; subst. cbn [fst snd] in *.
    rewrite <- (app_nil_r (spaced _)), spaced_cons. cbn [fst snd].
    unfold Plus. eapply run_seq_in; [now apply run_group_in|].
    rewrite run_star_eq. now apply star_groups_in.
Qed.

Lemma title_case_text_is_heading_witness :
  is_likely_heading (Sample.text_line (lit "Chapter One")) = true.
Proof.
  apply (title_case_text_is_heading _ (lit "Chapter") [(" "%char, lit "One")]).
  - exists "C"%char, (lit "hapter"). repeat split; [discriminate|repeat constructor].
  - discriminate.
  - constructor; [|constructor]. split; [reflexivity|].
    exists "O"%char, (lit "ne"). repeat split; [discriminate|repeat constructor].
  - reflexivity.
  - cbn. lia.
Defined.

(** X9: A Roman numeral, a dot, whitespace and a text that does not start with a
    newline: a heading candidate when it has at most 200 code points. *)
Theorem roman_text_is_heading (l : line) (numeral ws tail : str) (c : char) :
  numeral <> [] -> Forall (fun r => is_roman r = true) numeral ->
  is_blank ws ->
  c <> "010"%char ->
  l_text l = numeral ++ "."%char :: ws ++ c :: tail ->
  (length (l_text l) <= 200)%nat ->
  is_likely_heading l = true.
Proof.
  intros Hne Hrom [Hwne Hws] Hc Htext Hlen.
  apply (shape_is_heading l (nth 4 heading_patterns Eps) tail);
    [| |right; right; right; right; now left|].
  - split; [|exact Hlen]. rewrite Htext, length_app. cbn [length].
    rewrite length_app. destruct numeral; [easy|]. destruct ws; [easy|]. cbn. lia.
  - rewrite Htext. intros [_ Hd]. destruct numeral as [|r numeral]; [easy|].
    inversion Hrom as [|? ? Hr _]; inversion Hd as [|? ? Hr' _]; subst.
    apply roman_is_upper in Hr. destruct (digit_cases r Hr') as (_ & _ & Hu).
    congruence.
  - rewrite Htext. cbn [nth heading_patterns]. apply run_bos_in.
    eapply run_seq_in; [now apply run_plus_cls_in|].
    eapply run_seq_in; [rewrite run_chr, Ascii.eqb_refl; now left|].
    eapply run_seq_in; [now apply run_plus_cls_in|].
    unfold Plus. apply run_seq_in with (s1 := tail); [|apply run_star_refl].
    unfold Dot. rewrite run_cls_hit; [now left|].
    apply negb_true_iff. now apply Ascii.eqb_neq.
Qed.

Lemma roman_text_is_heading_witness :
  is_likely_heading (Sample.text_line (lit "IV. Findings")) = true.
Proof.
  apply (roman_text_is_heading _ (lit "IV") (lit " ") (lit "indings") "F"%char).
  - discriminate.
  - repeat constructor.
  - split; [discriminate|repeat constructor].
  - discriminate.
  - reflexivity.
  - cbn. lia.
Defined.

(** ** The level from the size rank *)

Lemma index_of_found (x : Z) (pre post : list Z) :
  ~ In x pre -> index_of x (pre ++ x :: post) = Ok (length pre).
Proof.
  induction pre as [|y pre IH]; intros Hpre; cbn [app index_of length].
  - now rewrite Z.eqb_refl.
  - destruct (Z.eqb_spec x y) as [->|_]; [exfalso; apply Hpre; now left|].
    rewrite IH; [reflexivity|]. intros H. apply Hpre. now right.
Qed.

Lemma index_of_missing (x : Z) (l : list Z) :
  ~ In x l -> exists e, index_of x l = Raise e.
Proof.
  induction l as [|y l IH]; intros Hl; cbn [index_of]; [eauto|].
  destruct (Z.eqb_spec x y) as [->|_]; [exfalso; apply Hl; now left|].
  destruct IH as (e & ->); [|cbn; eauto]. intros H. apply Hl. now right.
Qed.

Lemma match_numbering_none (text : str) :
  match text with c :: _ => isdecimal c = false | [] => True end ->
  match_ numbering_re text = None.
Proof.
  intros H. apply match_none. unfold numbering_re.
  rewrite run_seq_eq, run_bos by reflexivity. cbn [flat_map]. rewrite app_nil_r.
  apply run_seq_nil, run_seq_nil. now apply run_cls_miss.
Qed.

(** X10: Without a leading digit in the text, the level is the rank of the font
    size in the heading sizes: the first gives H1, the second H2, any other
    H3, and a size that is not among them gives H3 too. *)
Theorem classify_by_size_rank (l : line) (heading_sizes : list Z) :
  match l_text l with c :: _ => isdecimal c = false | [] => True end ->
  (forall pre post,
     heading_sizes = pre ++ l_size l :: post -> ~ In (l_size l) pre ->
     classify_heading_level l heading_sizes
     = match length pre with 0%nat => H1 | 1%nat => H2 | _ => H3 end)
  /\ (~ In (l_size l) heading_sizes ->
      classify_heading_level l heading_sizes = H3).
Proof.
  intros Htext. unfold classify_heading_level.
  rewrite (match_numbering_none _ Htext). split.
  - intros pre post -> Hpre. now rewrite index_of_found.
  - intros Hmiss. now destruct (index_of_missing _ _ Hmiss) as (e & ->).
Qed.

Lemma classify_by_size_rank_witness :
  classify_heading_level
    {| l_text := lit "Overview"; l_font := lit "Helvetica"; l_size := 160;
       l_flags := 0; l_bbox := (72, 100, 540, 112)%float; l_page := 1 |}
    [240; 160; 140] = H2.
Proof.
  refine (proj1 (classify_by_size_rank _ [240; 160; 140] _) [240] [140] _ _).
  - reflexivity.
  - reflexivity.
  - intros [H|[]]. discriminate H.
Defined.

(** ** The size counter and the body size *)

Lemma firsts_In (l : list Z) (s : Z) : In s (firsts l) <-> In s l.
Proof.
  induction l as [|x l IH]; [easy|]. cbn [firsts In].
  rewrite filter_In, IH. destruct (Z.eqb_spec s x) as [->|Hne]; cbn; intuition congruence.
Qed.

Lemma firsts_NoDup (l : list Z) : List.NoDup (firsts l).
Proof.
  induction l as [|x l IH]; [constructor|]. cbn [firsts]. constructor.
  - rewrite filter_In. intros [_ H]. now rewrite Z.eqb_refl in H.
  - now apply List.NoDup_filter.
Qed.

Lemma firsts_snoc (l : list Z) (x : Z) :
  firsts (l ++ [x]) = if existsb (Z.eqb x) l then firsts l else firsts l ++ [x].
Proof.
  induction l as [|y l IH]; [reflexivity|].
  cbn [app firsts existsb]. rewrite IH.
  destruct (Z.eqb_spec x y) as [->|Hne]; cbn [orb].
  - destruct (existsb (Z.eqb y) l); [reflexivity|].
    rewrite List.filter_app. cbn [List.filter]. rewrite Z.eqb_refl. cbn [negb].
    now rewrite app_nil_r.
  - destruct (existsb (Z.eqb x) l); [reflexivity|].
    rewrite List.filter_app. cbn [List.filter].
    destruct (Z.eqb_spec x y); [congruence|reflexivity].
Qed.

Lemma occurs_snoc (l : list Z) (x s : Z) :
  occurs s (l ++ [x]) = (occurs s l + if (s =? x)%Z then 1 else 0)%nat.
Proof.
  unfold occurs. rewrite count_occ_app. cbn [count_occ].
  destruct (Z.eq_dec x s) as [->|Hne].
  - now rewrite Z.eqb_refl.
  - destruct (Z.eqb_spec s x); [congruence|reflexivity].
Qed.

Lemma counter_incr_other (x : Z) (f g : Z -> nat) (ks : list Z) :
  ~ In x ks ->
  (forall s, s <> x -> g s = f s) ->
  counter_incr x (map (fun s => (s, f s)) ks)
  = map (fun s => (s, g s)) ks ++ [(x, 1%nat)].
Proof.
  intros Hx Hg. induction ks as [|k ks IH]; [reflexivity|].
  cbn [map counter_incr app].
  destruct (Z.eqb_spec x k) as [->|Hne]; [exfalso; apply Hx; now left|].
  rewrite IH, Hg by (try congruence; intros H; apply Hx; now right). reflexivity.
Qed.

Lemma counter_incr_same (x : Z) (f g : Z -> nat) (ks : list Z) :
  In x ks -> List.NoDup ks ->
  g x = S (f x) -> (forall s, s <> x -> g s = f s) ->
  counter_incr x (map (fun s => (s, f s)) ks) = map (fun s => (s, g s)) ks.
Proof.
  intros Hx Hnd Hgx Hg. induction Hnd as [|k ks Hk Hnd IH]; [easy|].
  cbn [map counter_incr].
  destruct (Z.eqb_spec x k) as [->|Hne].
  - rewrite Hgx. f_equal. apply map_ext_in. intros s Hs.
    rewrite Hg; [reflexivity|]. intros ->. easy.
  - rewrite Hg by congruence. f_equal. apply IH.
    destruct Hx as [->|Hx]; [congruence|exact Hx].
Qed.

(** [Counter(sizes)] holds each distinct size once, in the order of first
    appearance, with its number of occurrences. *)
Lemma counter_spec (l : list Z) :
  counter l = map (fun s => (s, occurs s l)) (firsts l).
Proof.
  induction l as [|x l IH] using rev_ind; [reflexivity|].
  unfold counter in *. rewrite fold_left_app. cbn [fold_left]. rewrite IH.
  rewrite firsts_snoc. destruct (existsb (Z.eqb x) l) eqn:Hx.
  - apply counter_incr_same.
    + apply firsts_In. apply existsb_exists in Hx as (y & Hy & Hxy).
      apply Z.eqb_eq in Hxy. now subst.
    + apply firsts_NoDup.
    + rewrite occurs_snoc, Z.eqb_refl. lia.
    + intros s Hs. rewrite occurs_snoc.
      destruct (Z.eqb_spec s x); [congruence|lia].
  - rewrite map_app. cbn [map]. rewrite (occurs_snoc l x x), Z.eqb_refl.
    assert (Hnot : ~ In x l).
    { intros Hin. assert (existsb (Z.eqb x) l = true); [|congruence].
      apply existsb_exists. exists x. split; [easy|apply Z.eqb_refl]. }
    replace (occurs x l) with 0%nat
      by (symmetry; now apply count_occ_not_In).
    apply counter_incr_other.
    + now rewrite firsts_In.
    + intros s Hs. rewrite occurs_snoc.
      destruct (Z.eqb_spec s x); [congruence|lia].
Qed.

(** The scan of [most_common(1)] keeps the first entry with the largest
    count. *)
Lemma first_max_spec (c : list (Z * nat)) (e : Z * nat) :
  let best :=
    fold_left (fun best e' => if (snd best <? snd e')%nat then e' else best) c e in
  exists pre post,
    e :: c = pre ++ best :: post
    /\ (forall y, In y pre -> (snd y < snd best)%nat)
    /\ (forall y, In y post -> (snd y <= snd best)%nat).
Proof.
  cbn zeta. revert e. induction c as [|y c IH]; intros e; cbn [fold_left].
  - exists [], []. easy.
  - destruct (snd e <? snd y)%nat eqn:Hlt.
    + apply Nat.ltb_lt in Hlt.
      destruct (IH y) as (pre & post & Heq & Hpre & Hpost).
      exists (e :: pre), post. cbn [app]. rewrite <- Heq. split; [reflexivity|].
      split; [|exact Hpost].
      intros z [<-|Hz]; [|now apply Hpre].
      destruct pre as [|p pre]; cbn [app] in Heq.
      * injection Heq as Hy _. rewrite <- Hy. exact Hlt.
      * injection Heq as Hy _. subst p.
        specialize (Hpre y (or_introl eq_refl)). lia.
    + apply Nat.ltb_ge in Hlt.
      destruct (IH e) as (pre & post & Heq & Hpre & Hpost).
      destruct pre as [|p pre]; cbn [app] in Heq.
      * injection Heq as Hb Hc. subst post. exists [], (y :: c).
        cbn [app]. split; [now rewrite <- Hb|]. split; [easy|].
        intros z [<-|Hz]; [rewrite <- Hb; exact Hlt|now apply Hpost].
      * injection Heq as Hp Hc. subst p.
        exists (e :: y :: pre), post. cbn [app].
        split; [now rewrite <- Hc|]. split; [|exact Hpost].
        pose proof (Hpre e (or_introl eq_refl)) as He.
        intros z [<-|[<-|Hz]]; [exact He|lia|apply Hpre; now right].
Qed.

Lemma analyze_font_styles_eq (text_lines : list line) :
  text_lines <> [] ->
  let sizes := map l_size text_lines in
  exists body,
    analyze_font_styles text_lines
    = (body, sorted desc (filter (fun size => body < size) (firsts sizes)))
    /\ exists pre post,
         firsts sizes = pre ++ body :: post
         /\ (forall s, In s pre -> (occurs s sizes < occurs body sizes)%nat)
         /\ (forall s, In s post -> (occurs s sizes <= occurs body sizes)%nat).
Proof.
  intros Hne sizes. unfold analyze_font_styles.
  destruct text_lines as [|l0 lines]; [easy|]. cbn [truthy negb].
  fold sizes. rewrite counter_spec.
  assert (Hfst : map fst (map (fun s => (s, occurs s sizes)) (firsts sizes)) = firsts sizes).
  { rewrite map_map. cbn [fst]. apply map_id. }
  rewrite Hfst.
  destruct (firsts sizes) as [|k ks] eqn:Hks; [discriminate Hks|].
  cbn [map most_common_1].
  set (c := map (fun s => (s, occurs s sizes)) ks).
  destruct (first_max_spec c (k, occurs k sizes)) as (pre & post & Heq & Hpre & Hpost).
  cbn zeta in *. set (best := fold_left _ c _) in *.
  exists (fst best). split; [reflexivity|].
  assert (Hall : forall y, In y ((k, occurs k sizes) :: c) -> snd y = occurs (fst y) sizes).
  { intros y [<-|Hy]; [reflexivity|].
    apply in_map_iff in Hy as (s & <- & _). reflexivity. }
  assert (Hbest : snd best = occurs (fst best) sizes).
  { apply Hall. rewrite Heq. apply in_or_app. right. now left. }
  exists (map fst pre), (map fst post). split; [|split].
  - apply (f_equal (map fst)) in Heq. rewrite map_app in Heq. cbn [map fst] in Heq.
    rewrite <- Heq. f_equal. unfold c. rewrite map_map. cbn [fst].
    symmetry. apply map_id.
  - intros s Hs. apply in_map_iff in Hs as (y & <- & Hy).
    rewrite <- Hbest, <- (Hall y); [now apply Hpre|].
    rewrite Heq. apply in_or_app. now left.
  - intros s Hs. apply in_map_iff in Hs as (y & <- & Hy).
    rewrite <- Hbest, <- (Hall y); [now apply Hpost|].
    rewrite Heq. apply in_or_app. right. now right.
Qed.

(** X11: The body size is a most frequent size of the cleaned lines, and among
    the most frequent sizes the one that appears first. *)
Theorem body_size_most_frequent (text_lines : list line) :
  text_lines <> [] ->
  let sizes := map l_size text_lines in
  let body := fst (analyze_font_styles text_lines) in
  In body sizes
  /\ (forall s, (occurs s sizes <= occurs body sizes)%nat)
  /\ exists pre post,
       firsts sizes = pre ++ body :: post
       /\ forall s, In s pre -> (occurs s sizes < occurs body sizes)%nat.
Proof.
  intros Hne sizes body.
  destruct (analyze_font_styles_eq text_lines Hne)
    as (b & Heq & pre & post & Hfirsts & Hpre & Hpost).
  subst body. rewrite Heq. cbn [fst]. fold sizes in Hfirsts, Hpre, Hpost.
  assert (Hin : In b sizes).
  { apply firsts_In. rewrite Hfirsts. apply in_or_app. right. now left. }
  split; [exact Hin|]. split; [|now exists pre, post].
  intros s. destruct (in_dec Z.eq_dec s sizes) as [Hs|Hs].
  - apply firsts_In in Hs. rewrite Hfirsts in Hs.
    apply in_app_or in Hs as [Hs|[<-|Hs]]; [|lia|now apply Hpost].
    specialize (Hpre s Hs). lia.
  - apply (count_occ_not_In Z.eq_dec) in Hs. unfold occurs. rewrite Hs. lia.
Qed.

Lemma body_size_most_frequent_witness :
  fst (analyze_font_styles Sample.lines) = 120
  /\ forall s, (occurs s (map l_size Sample.lines) <= occurs 120 (map l_size Sample.lines))%nat.
Proof.
  split; [vm_compute; reflexivity|].
  apply (body_size_most_frequent Sample.lines). discriminate.
Defined.

(** X12: The heading sizes found by [analyze_font_styles] are the sizes of the
    cleaned lines above the body size, each once, in decreasing order. *)
Theorem heading_sizes_above_body (text_lines : list line) :
  let body := fst (analyze_font_styles text_lines) in
  let heading_sizes := snd (analyze_font_styles text_lines) in
  StronglySorted (fun x y => y < x) heading_sizes
  /\ forall s, In s heading_sizes <-> In s (map l_size text_lines) /\ body < s.
Proof.
  cbn zeta. destruct text_lines as [|l0 lines].
  - cbn. split; [constructor|]. intros s. tauto.
  - destruct (analyze_font_styles_eq (l0 :: lines)) as (b & -> & _); [discriminate|].
    cbn [fst snd]. set (sizes := map l_size (l0 :: lines)).
    set (above := filter (fun size => b < size) (firsts sizes)).
    assert (Hin : forall s, In s above <-> In s sizes /\ b < s).
    { intros s. unfold above.
      rewrite <- list_elem_of_In, list_elem_of_filter, list_elem_of_In, firsts_In. tauto. }
    split.
    + apply strongly_sorted_strict.
      * eapply Permutation_NoDup; [symmetry; apply sorted_perm|].
        apply NoDup_ListNoDup, NoDup_filter, NoDup_ListNoDup, firsts_NoDup.
      * eapply strongly_sorted_weaken;
          [|apply (sorted_sorted desc desc_total desc_trans)].
        intros x y H. now apply Z.leb_le.
    + intros s. now rewrite (sorted_In desc).
Qed.

Lemma fold_outline_step_small (title : str) (body : Z) (hs : list Z)
    (text_lines : list line) (st : list entry * gset (str * nat)) :
  (forall l, In l text_lines -> l_size l <= body) ->
  fold_left (outline_step title body hs) text_lines st = st.
Proof.
  revert st. induction text_lines as [|l lines IH]; intros st Hall; [reflexivity|].
  cbn [fold_left]. rewrite outline_step_small by (apply Hall; now left).
  apply IH. intros l' Hl'. apply Hall. now right.
Qed.

(** X13: When all the cleaned lines have one and the same size, the outline is
    empty and the title is the extracted title. *)
Theorem single_size_gives_empty_outline (fs : filesystem) (pdf_path : str) (size : Z) :
  extract_text_lines fs pdf_path <> [] ->
  (forall l, In l (extract_text_lines fs pdf_path) -> l_size l = size) ->
  exists t,
    extract_title (extract_text_lines fs pdf_path) = Ok t
    /\ extract_outline fs pdf_path = Ok {| title := t; outline := [] |}.
Proof.
  unfold extract_outline.
  generalize (extract_text_lines fs pdf_path). intros lines Hne Hsame.
  destruct (extract_title_total lines) as (t & Ht). exists t. split; [exact Ht|].
  destruct (analyze_font_styles_eq lines Hne)
    as (b & Heq & pre & post & Hfirsts & _ & _).
  assert (Hsizes : forall s, In s (map l_size lines) -> s = size).
  { intros s Hs. apply in_map_iff in Hs as (l & <- & Hl). now apply Hsame. }
  assert (Hb : b = size).
  { apply Hsizes, firsts_In. rewrite Hfirsts. apply in_or_app. right. now left. }
  assert (Hhs : sorted desc (filter (fun s => b < s) (firsts (map l_size lines))) = []).
  { destruct (sorted desc _) as [|h hs] eqn:E; [reflexivity|]. exfalso.
    assert (Hh : In h (h :: hs)) by now left.
    rewrite <- E in Hh. apply (proj1 (sorted_In desc _ _)) in Hh.
    apply list_elem_of_In, list_elem_of_filter in Hh as [Hlt Hh].
    apply list_elem_of_In, firsts_In, Hsizes in Hh. lia. }
  unfold outline_of_lines. destruct lines as [|l0 lines']; [easy|].
  cbn [truthy negb]. rewrite Ht. cbn [bind]. rewrite Heq, Hhs.
  unfold size_fallback. cbn [truthy negb].
  set (u := sorted desc (distinct (map l_size (l0 :: lines')))).
  assert (Hu : (1 <? length u)%nat = false).
  { apply Nat.ltb_ge.
    destruct (unique_sizes_spec (map l_size (l0 :: lines'))) as (Hin & Hnd & _).
    cbn zeta in *. fold u in Hin, Hnd.
    destruct u as [|x [|y u']]; cbn [length]; [lia..|].
    inversion Hnd as [|? ? Hx _]; subst. exfalso. apply Hx.
    rewrite (Hsizes x), (Hsizes y); [now left|apply Hin; right; now left|apply Hin; now left]. }
  rewrite Hu. cbn [bind]. f_equal. f_equal.
  unfold assemble. rewrite fold_outline_step_small; [reflexivity|].
  intros l Hl. rewrite (Hsame l Hl), Hb. lia.
Qed.

(** ** The cleaned lines in detail *)

Lemma clean_line_page (hf : gset str) (n : nat) (ln : rawline) (l : line) :
  clean_line hf n ln = Some l -> l_page l = (n + 1)%nat.
Proof.
  unfold clean_line. destruct (rl_spans ln) as [[|s spans]|]; try discriminate.
  destruct (negb _); [discriminate|].
  destruct (bool_decide _); [discriminate|].
  destruct (search _ _); [discriminate|].
  now intros [= <-].
Qed.

(** The lines added for one page come from that page. *)
Lemma clean_page_lines (hf : gset str) (n : nat) (p : page)
    (acc out : list line) :
  clean_page hf acc (n, p) = Ok out ->
  exists new, out = acc ++ new
    /\ forall l, In l new -> exists ln, clean_line hf n ln = Some l.
Proof.
  unfold clean_page. cbn [fst snd].
  destruct (pg_blocks p) as [blocks|]; cbn [bind]; [|discriminate].
  intros [= <-]. eexists. split; [reflexivity|].
  intros l Hl. apply in_flat_map in Hl as (b & _ & Hl). unfold clean_block in Hl.
  destruct (bl_lines b) as [lines|]; [|easy].
  apply list_elem_of_In, list_elem_of_omap in Hl as (ln & _ & Hln). eauto.
Qed.

Lemma page_lines_then_later (k : nat) (new1 new2 : list line) :
  (forall l, In l new1 -> l_page l = (k + 1)%nat) ->
  (forall l, In l new2 -> (k + 1 < l_page l)%nat) ->
  StronglySorted (fun a b => (l_page a <= l_page b)%nat) new2 ->
  StronglySorted (fun a b => (l_page a <= l_page b)%nat) (new1 ++ new2).
Proof.
  intros Hpage1 Hpage2 Hsorted2.
  induction new1 as [|a new1 IH1]; [exact Hsorted2|].
  cbn [app]. constructor.
  - apply IH1. intros l Hl. apply Hpage1. now right.
  - apply List.Forall_forall. intros b Hb.
    rewrite (Hpage1 a) by now left.
    apply in_app_or in Hb as [Hb|Hb].
    + rewrite (Hpage1 b) by now right. lia.
    + specialize (Hpage2 b Hb). lia.
Qed.

(** The pages are cleaned one after the other: the result is sorted by page
    when it starts so, and each new line has a page of the document. *)
Lemma clean_pages_spec (hf : gset str) (d : doc) (k : nat) (acc out : list line) :
  for_each (clean_page hf) (enumerate_from k d) acc = Ok out ->
  exists new, out = acc ++ new
    /\ (forall l, In l new ->
          exists n ln, (k <= n < k + length d)%nat /\ clean_line hf n ln = Some l)
    /\ StronglySorted (fun a b => (l_page a <= l_page b)%nat) new.
Proof.
  revert k acc. induction d as [|p d IH]; intros k acc; cbn [enumerate_from for_each].
  - intros [= <-]. exists (@nil line).
    split; [symmetry; apply app_nil_r|]. split; [intros l []|constructor].
  - destruct (clean_page hf acc (k, p)) as [acc1|] eqn:Hp; cbn [bind]; [|discriminate].
    intros Hrest.
    destruct (clean_page_lines _ _ _ _ _ Hp) as (new1 & -> & Hnew1).
    destruct (IH _ _ Hrest) as (new2 & -> & Hnew2 & Hsorted2).
    exists (new1 ++ new2). rewrite app_assoc. split; [reflexivity|]. split.
    + intros l Hl. apply in_app_or in Hl as [Hl|Hl].
      * destruct (Hnew1 l Hl) as (ln & Hln). exists k, ln. cbn [length]. split; [lia|easy].
      * destruct (Hnew2 l Hl) as (n & ln & Hn & Hln). exists n, ln.
        cbn [length]. split; [lia|easy].
    + assert (Hpage1 : forall l, In l new1 -> l_page l = (k + 1)%nat).
      { intros l Hl. destruct (Hnew1 l Hl) as (ln & Hln). now apply clean_line_page in Hln. }
      assert (Hpage2 : forall l, In l new2 -> (k + 1 < l_page l)%nat).
      { intros l Hl. destruct (Hnew2 l Hl) as (n & ln & Hn & Hln).
        apply clean_line_page in Hln. lia. }
      now apply (page_lines_then_later k).
Qed.

Lemma extract_text_lines_opened (fs : filesystem) (pdf_path : str) :
  extract_text_lines fs pdf_path <> [] ->
  exists d hf,
    fs pdf_path = Opened d
    /\ _identify_headers_and_footers d = Ok hf
    /\ for_each (clean_page hf) (enumerate d) [] = Ok (extract_text_lines fs pdf_path).
Proof.
  unfold extract_text_lines, extract_text_lines_body.
  destruct (fs pdf_path) as [|e|d]; cbn; try easy.
  destruct (page_count d =? 0)%nat; [easy|].
  destruct (_identify_headers_and_footers d) as [hf|] eqn:Hhf; cbn [bind]; [|easy].
  destruct (for_each (clean_page hf) (enumerate d) []) as [out|] eqn:Hout; [|easy].
  intros _. exists d, hf. easy.
Qed.

(** X14: Every cleaned line has a text that is not empty and neither starts nor
    ends with whitespace, a text that the suppression set does not hold,
    and a page number between 1 and the number of pages. *)
Theorem cleaned_line_well_formed (fs : filesystem) (pdf_path : str) (l : line) :
  In l (extract_text_lines fs pdf_path) ->
  l_text l <> []
  /\ strip (l_text l) = l_text l
  /\ exists d hf,
       fs pdf_path = Opened d
       /\ _identify_headers_and_footers d = Ok hf
       /\ (l_text l ∉ hf)
       /\ (1 <= l_page l <= page_count d)%nat.
Proof.
  intros Hl.
  destruct (extract_text_lines_opened fs pdf_path) as (d & hf & Hfs & Hhf & Hrun).
  { intros E. now rewrite E in Hl. }
  destruct (clean_pages_spec _ _ _ _ _ Hrun) as (new & Hnew & Horigin & _).
  cbn [app] in Hnew. rewrite Hnew in Hl.
  destruct (Horigin l Hl) as (n & ln & Hn & Hln).
  destruct (clean_line_text _ _ _ _ Hln) as (spans & _ & Htext & Hne & Hnot & _).
  split; [exact Hne|]. split.
  - rewrite Htext. unfold line_text. apply strip_idem.
  - exists d, hf. repeat split; try assumption.
    + rewrite (clean_line_page _ _ _ _ Hln). lia.
    + rewrite (clean_line_page _ _ _ _ Hln). unfold page_count. lia.
Qed.

Lemma cleaned_line_well_formed_witness :
  In (nth 1 Sample.lines (Sample.text_line [])) (extract_text_lines Sample.files Sample.path)
  /\ l_text (nth 1 Sample.lines (Sample.text_line [])) <> [].
Proof.
  assert (H : In (nth 1 Sample.lines (Sample.text_line []))
                (extract_text_lines Sample.files Sample.path)).
  { vm_compute. right. left. reflexivity. }
  split; [exact H|].
  apply (cleaned_line_well_formed Sample.files Sample.path _ H).
Defined.

Lemma text_lines_sorted (fs : filesystem) (pdf_path : str) :
  StronglySorted (fun a b => (l_page a <= l_page b)%nat)
    (extract_text_lines fs pdf_path).
Proof.
  destruct (extract_text_lines fs pdf_path) as [|l0 lines] eqn:E; [constructor|].
  destruct (extract_text_lines_opened fs pdf_path) as (d & hf & _ & _ & Hrun).
  { now rewrite E. }
  destruct (clean_pages_spec _ _ _ _ _ Hrun) as (new & Hnew & _ & Hsorted).
  cbn [app] in Hnew. rewrite <- E, Hnew. exact Hsorted.
Qed.

(** X15: The cleaned lines come in the order of the pages, and within a page
    position by position: a line of a later page never precedes a line of an
    earlier one. *)
Theorem cleaned_lines_in_page_order (fs : filesystem) (pdf_path : str)
    (before after : list line) (a b : line) :
  extract_text_lines fs pdf_path = before ++ a :: after ->
  In b after ->
  (l_page a <= l_page b)%nat.
Proof.
  intros Hsplit Hb. pose proof (text_lines_sorted fs pdf_path) as Hsorted.
  rewrite Hsplit in Hsorted.
  assert (Htail : StronglySorted (fun a b => (l_page a <= l_page b)%nat) (a :: after)).
  { clear Hsplit. induction before as [|x before IH]; [exact Hsorted|].
    apply IH. now apply StronglySorted_inv in Hsorted as [Hsorted _]. }
  apply StronglySorted_inv in Htail as [_ Hall].
  rewrite List.Forall_forall in Hall. now apply Hall.
Qed.

Lemma cleaned_lines_in_page_order_witness :
  (l_page (nth 5 Sample.lines (Sample.text_line []))
   <= l_page (nth 6 Sample.lines (Sample.text_line [])))%nat.
Proof.
  apply (cleaned_lines_in_page_order Sample.files Sample.path
           (take 5 Sample.lines) (drop 6 Sample.lines)).
  - vm_compute. reflexivity.
  - vm_compute. left. reflexivity.
Defined.

(** ** The outline in detail *)

Lemma sort_insert_front {A : Type} (le : A -> A -> bool) (x : A) (l : list A) :
  Forall (fun y => le x y = true) l -> sort_insert le x l = x :: l.
Proof.
  destruct l as [|y l]; [reflexivity|]. intros H.
  inversion H as [|? ? Hy _]; subst. cbn [sort_insert]. now rewrite Hy.
Qed.

(** The stable sort leaves a sorted list as it is. *)
Lemma sorted_id {A : Type} (le : A -> A -> bool) (l : list A) :
  StronglySorted (fun a b => le a b = true) l -> sorted le l = l.
Proof.
  induction 1 as [|x l Hl IH Hx]; [reflexivity|].
  cbn [sorted]. rewrite IH. now apply sort_insert_front.
Qed.

Lemma outline_step_grows (title : str) (body : Z) (hs : list Z)
    (out : list entry) (seen : gset (str * nat)) (l : line) :
  fst (outline_step title body hs (out, seen) l) = out
  \/ fst (outline_step title body hs (out, seen) l) = out ++ [entry_of hs l].
Proof.
  rewrite outline_step_eq. destruct (_ && _); [now right|now left].
Qed.

Lemma fold_outline_sorted (title : str) (body : Z) (hs : list Z)
    (lines : list line) (st : list entry * gset (str * nat)) :
  StronglySorted (fun a b => (l_page a <= l_page b)%nat) lines ->
  StronglySorted (fun a b => by_page a b = true) (fst st) ->
  (forall e l, In e (fst st) -> In l lines -> (e_page e <= l_page l)%nat) ->
  StronglySorted (fun a b => by_page a b = true)
    (fst (fold_left (outline_step title body hs) lines st)).
Proof.
  revert st. induction lines as [|l lines IH]; intros st Hlines Hst Hle; [exact Hst|].
  cbn [fold_left]. apply StronglySorted_inv in Hlines as [Hlines Hl].
  rewrite List.Forall_forall in Hl.
  destruct st as [out seen]. cbn [fst] in *.
  destruct (outline_step title body hs (out, seen) l) as [out' seen'] eqn:Hstep.
  pose proof (outline_step_grows title body hs out seen l) as Hgrow.
  rewrite Hstep in Hgrow. cbn [fst] in Hgrow.
  apply IH; cbn [fst]; [exact Hlines|..].
  - destruct Hgrow as [-> | ->]; [exact Hst|].
    clear Hstep IH. induction Hst as [|e out Hout IHout He]; cbn [app].
    + repeat constructor.
    + constructor.
      * apply IHout. intros e' l' He' Hl'. apply Hle; [now right|exact Hl'].
      * apply Forall_app. split; [exact He|]. constructor; [|constructor].
        unfold by_page. apply Nat.leb_le. cbn [entry_of e_page].
        apply Hle; now left.
  - intros e l' He Hl'. destruct Hgrow as [-> | ->].
    + apply Hle; [exact He|now right].
    + apply in_app_or in He as [He|[<-|[]]]; [apply Hle; [exact He|now right]|].
      cbn [entry_of e_page]. now apply Hl.
Qed.

(** X16: The returned outline is the list the main loop built, in the order of
    the cleaned lines: the final sort by page changes nothing. *)
Theorem outline_in_line_order
    (fs : filesystem) (pdf_path : str) (r : DocumentResult) (body : Z) (hs : list Z) :
  extract_outline fs pdf_path = Ok r ->
  size_fallback (extract_text_lines fs pdf_path)
    (analyze_font_styles (extract_text_lines fs pdf_path)) = Ok (body, hs) ->
  outline r = assemble (title r) body hs (extract_text_lines fs pdf_path).
Proof.
  intros Hr Hsizes.
  rewrite (extract_outline_inv fs pdf_path r body hs Hr Hsizes).
  apply sorted_id. unfold assemble.
  apply fold_outline_sorted; cbn [fst]; [apply text_lines_sorted|constructor|easy].
Qed.

Lemma outline_in_line_order_witness :
  outline Sample.result
  = assemble (title Sample.result) 120 [240; 160; 140]
      (extract_text_lines Sample.files Sample.path).
Proof.
  apply (outline_in_line_order Sample.files Sample.path); vm_compute; reflexivity.
Defined.

Lemma outline_entry_line (fs : filesystem) (pdf_path : str) (r : DocumentResult)
    (e : entry) :
  extract_outline fs pdf_path = Ok r ->
  In e (outline r) ->
  exists body hs l,
    In l (extract_text_lines fs pdf_path)
    /\ is_heading_line (title r) body l = true
    /\ e = entry_of hs l.
Proof.
  intros Hr He. pose proof Hr as Hr'.
  unfold extract_outline, outline_of_lines in Hr'.
  destruct (extract_text_lines fs pdf_path) as [|l0 lines] eqn:Hlines.
  - cbn in Hr'. injection Hr' as <-. easy.
  - cbn [truthy negb] in Hr'.
    destruct (extract_title (l0 :: lines)) as [t|]; [|discriminate].
    cbn [bind] in Hr'.
    destruct (size_fallback _ _) as [[body hs]|] eqn:Hsizes; [|discriminate].
    rewrite <- Hlines in Hsizes.
    rewrite (extract_outline_inv fs pdf_path r body hs Hr Hsizes) in He.
    apply sorted_In in He.
    destruct (loop_inv_fold (title r) body hs (extract_text_lines fs pdf_path))
      as [_ _ Hfirst _].
    destruct (Hfirst e He) as (l1 & l & l2 & Hl & Hh & -> & _).
    exists body, hs, l. rewrite <- Hlines, Hl. split; [|easy].
    apply in_or_app. right. now left.
Qed.

(** X17: No entry of the first two pages repeats the title: an entry whose
    stripped text is the stripped title lies on page 3 or later. *)
Theorem title_not_in_outline (fs : filesystem) (pdf_path : str)
    (r : DocumentResult) (e : entry) :
  extract_outline fs pdf_path = Ok r ->
  In e (outline r) ->
  strip (e_text e) = strip (title r) ->
  (3 <= e_page e)%nat.
Proof.
  intros Hr He Heq.
  destruct (outline_entry_line fs pdf_path r e Hr He) as (body & hs & l & _ & Hh & ->).
  cbn [entry_of e_text e_page] in *. unfold is_heading_line in Hh.
  apply andb_true_iff in Hh as [_ Hh]. apply negb_true_iff, andb_false_iff in Hh.
  destruct Hh as [Hh|Hh].
  - apply bool_decide_eq_false in Hh. easy.
  - apply Nat.leb_gt in Hh. lia.
Qed.

(** X18: Every entry of the outline has a text of 3 to 200 code points that is
    not a number and neither starts nor ends with whitespace, and a page
    number of the document. *)
Theorem outline_entry_well_formed (fs : filesystem) (pdf_path : str)
    (r : DocumentResult) (e : entry) :
  extract_outline fs pdf_path = Ok r ->
  In e (outline r) ->
  (3 <= length (e_text e) <= 200)%nat
  /\ ~ is_number (e_text e)
  /\ strip (e_text e) = e_text e
  /\ exists d, fs pdf_path = Opened d /\ (1 <= e_page e <= page_count d)%nat.
Proof.
  intros Hr He.
  destruct (outline_entry_line fs pdf_path r e Hr He) as (body & hs & l & Hl & Hh & ->).
  cbn [entry_of e_text e_page]. unfold is_heading_line in Hh.
  apply andb_true_iff in Hh as [Hh _]. apply andb_true_iff in Hh as [_ Hh].
  split; [now apply is_likely_heading_length|]. split.
  { intros Hn. apply fullmatch_digits in Hn. revert Hh.
    unfold is_likely_heading. rewrite Hn. now destruct (_ || _). }
  destruct (extract_text_lines_opened fs pdf_path) as (d & hf & Hfs & _ & Hrun).
  { intros E. now rewrite E in Hl. }
  destruct (clean_pages_spec _ _ _ _ _ Hrun) as (new & Hnew & Horigin & _).
  cbn [app] in Hnew. rewrite Hnew in Hl.
  destruct (Horigin l Hl) as (n & ln & Hn & Hln).
  destruct (clean_line_text _ _ _ _ Hln) as (spans & _ & Htext & _).
  split.
  - rewrite Htext. unfold line_text. apply strip_idem.
  - exists d. split; [exact Hfs|].
    rewrite (clean_line_page _ _ _ _ Hln). unfold page_count. lia.
Qed.

Lemma outline_entry_well_formed_witness :
  (3 <= length (lit "Overview") <= 200)%nat /\ ~ is_number (lit "Overview").
Proof.
  destruct (outline_entry_well_formed Sample.files Sample.path Sample.result
              {| e_level := H2; e_text := lit "Overview"; e_page := 1 |})
    as (H1 & H2 & _).
  - vm_compute. reflexivity.
  - vm_compute. left. reflexivity.
  - split; assumption.
Defined.

Lemma single_size_gives_empty_outline_witness :
  exists t,
    extract_title (extract_text_lines (Cases.files Cases.plain_document) Sample.path) = Ok t
    /\ extract_outline (Cases.files Cases.plain_document) Sample.path
       = Ok {| title := t; outline := [] |}.
Proof.
  apply (single_size_gives_empty_outline _ _ 120).
  - vm_compute. discriminate.
  - vm_compute. intros l [<-|[<-|[]]]; reflexivity.
Defined.

Lemma title_not_in_outline_witness :
  extract_outline (Cases.files Cases.echo_document) Sample.path
  = Ok {| title := lit "Annual Report";
          outline := [ {| e_level := H1; e_text := lit "Annual Report"; e_page := 3 |} ] |}
  /\ (3 <= 3)%nat.
Proof.
  assert (H : extract_outline (Cases.files Cases.echo_document) Sample.path
              = Ok {| title := lit "Annual Report";
                      outline := [ {| e_level := H1; e_text := lit "Annual Report";
                                      e_page := 3 |} ] |}).
  { vm_compute. reflexivity. }
  split; [exact H|].
  apply (title_not_in_outline _ _ _
           {| e_level := H1; e_text := lit "Annual Report"; e_page := 3 |} H).
  - now left.
  - reflexivity.
Defined.

(** ** Documents that do not decode *)

Lemma for_each_raises {A S : Type} (body : S -> A -> outcome S) (l : list A) :
  (exists x, In x l /\ forall st, exists e, body st x = Raise e) ->
  forall st, exists e, for_each body l st = Raise e.
Proof.
  intros (x & Hx & Hraise). induction l as [|y l IH]; [easy|].
  intros st. cbn [for_each].
  destruct (body st y) as [st1|e] eqn:Hy; cbn [bind]; [|eauto].
  destruct Hx as [->|Hx]; [|now apply IH].
  destruct (Hraise st) as (e & He). congruence.
Qed.

Lemma scan_page_raises (hm fm : float) (p : page) :
  (exists e, pg_blocks p = Raise e)
  \/ (exists ln, In ln (page_lines p) /\ rl_spans ln = None) ->
  forall st, exists e, scan_page hm fm st p = Raise e.
Proof.
  intros [(e & He)|(ln & Hln & Hspans)] st; unfold scan_page.
  - rewrite He. cbn. eauto.
  - unfold page_lines in Hln. destruct (pg_blocks p) as [bs|]; [|easy].
    cbn [bind]. apply in_flat_map in Hln as (b & Hb & Hln).
    apply for_each_raises. exists b. split; [exact Hb|].
    intros st'. unfold scan_block. unfold block_lines in Hln.
    destruct (bl_lines b) as [ls|]; [|easy].
    apply for_each_raises. exists ln. split; [exact Hln|].
    intros st''. unfold scan_line. rewrite Hspans. eauto.
Qed.

(** X19: When a page fails to decode, or a line comes without its spans, on any
    page, no line at all is extracted and the result is the error result. *)
Theorem undecodable_document_gives_error
    (fs : filesystem) (pdf_path : str) (d : doc) :
  fs pdf_path = Opened d ->
  (exists p e, In p d /\ pg_blocks p = Raise e)
  \/ (exists ln, In ln (raw_lines d) /\ rl_spans ln = None) ->
  extract_text_lines fs pdf_path = []
  /\ extract_outline fs pdf_path = Ok error_result.
Proof.
  intros Hfs Hbad.
  assert (Hlines : extract_text_lines fs pdf_path = []).
  { unfold extract_text_lines, extract_text_lines_body. rewrite Hfs.
    destruct (page_count d =? 0)%nat; [reflexivity|].
    assert (Hid : exists e, _identify_headers_and_footers d = Raise e).
    { unfold _identify_headers_and_footers.
      destruct (page_count d =? 0)%nat eqn:Hpc.
      - apply Nat.eqb_eq in Hpc. destruct d; [|discriminate].
        destruct Hbad as [(p & e & [] & _)|(ln & [] & _)].
      - destruct (doc_getitem d 0) as [first|e]; cbn [bind]; [|eauto].
        set (hm := PrimFloat.mul _ _). set (fm := PrimFloat.mul _ _).
        destruct (for_each_raises (scan_page hm fm) d) with (st := (∅, ∅) : candidates)
          as (e & ->); [|cbn; eauto].
        destruct Hbad as [(p & e & Hp & He)|(ln & Hln & Hspans)].
        + exists p. split; [exact Hp|]. apply scan_page_raises. eauto.
        + unfold raw_lines in Hln. apply in_flat_map in Hln as (p & Hp & Hln).
          exists p. split; [exact Hp|]. apply scan_page_raises. eauto. }
    destruct Hid as (e & ->). reflexivity. }
  split; [exact Hlines|]. unfold extract_outline. now rewrite Hlines.
Qed.

Lemma undecodable_document_gives_error_witness :
  extract_text_lines (Cases.files Cases.broken_document) Sample.path = []
  /\ extract_outline (Cases.files Cases.broken_document) Sample.path = Ok error_result.
Proof.
  apply (undecodable_document_gives_error _ _ Cases.broken_document); [reflexivity|].
  left. eexists _, _. split; [right; left; reflexivity|reflexivity].
Defined.

(** ** The title in detail *)

Lemma extract_title_form (text_lines : list line) (t : str) :
  extract_title text_lines = Ok t ->
  t = untitled
  \/ exists s,
       collapse_ws (strip s) <> []
       /\ t = if (150 <? length (collapse_ws (strip s)))%nat
              then take 147 (collapse_ws (strip s)) ++ lit "..."
              else collapse_ws (strip s).
Proof.
  unfold extract_title. destruct (negb (truthy text_lines)); [intros [= <-]; now left|].
  destruct (negb _ && negb _); [intros [= <-]; now left|].
  destruct (max_of _) as [m|]; cbn [bind]; [|discriminate].
  rewrite sub_spaces_collapse. set (s := join _ _).
  destruct (collapse_ws (strip s)) as [|c t'] eqn:E.
  - cbn. intros [= <-]. now left.
  - intros H. right. exists s. rewrite E. split; [discriminate|].
    destruct (150 <? length (c :: t'))%nat eqn:Hlen.
    + rewrite firstn_cons in H. now injection H as <-.
    + now injection H as <-.
Qed.

Lemma collapse_head (s : str) :
  match collapse true s with c :: _ => isspace c = false | [] => True end.
Proof.
  induction s as [|c s IH]; [easy|]. cbn [collapse].
  destruct (isspace c) eqn:Hc; [exact IH|exact Hc].
Qed.

Lemma collapse_spaces (in_run : bool) (s : str) :
  Forall (fun c => isspace c = true -> c = " "%char) (collapse in_run s).
Proof.
  revert in_run. induction s as [|c s IH]; intros in_run; [constructor|].
  cbn [collapse]. destruct (isspace c) eqn:Hc.
  - destruct in_run; [apply IH|]. constructor; [easy|apply IH].
  - constructor; [congruence|apply IH].
Qed.

Lemma single_spaced_cons (a : char) (s : str) :
  match s with b :: _ => isspace a && isspace b = false | [] => True end ->
  single_spaced s = true -> single_spaced (a :: s) = true.
Proof.
  destruct s as [|b s]; [easy|]. intros Hab Hs.
  cbn [single_spaced] in *. now rewrite Hab.
Qed.

Lemma collapse_single (in_run : bool) (s : str) :
  single_spaced (collapse in_run s) = true.
Proof.
  revert in_run. induction s as [|c s IH]; intros in_run; [reflexivity|].
  cbn [collapse]. destruct (isspace c) eqn:Hc.
  - destruct in_run; [apply IH|].
    apply single_spaced_cons; [|apply IH].
    pose proof (collapse_head s) as Hh.
    destruct (collapse true s); [easy|]. now rewrite Hh, andb_false_r.
  - apply single_spaced_cons; [|apply IH].
    destruct (collapse false s); [easy|]. now rewrite Hc.
Qed.

Lemma single_spaced_tail (a : char) (s : str) :
  single_spaced (a :: s) = true -> single_spaced s = true.
Proof.
  destruct s as [|b s]; [easy|]. cbn [single_spaced].
  intros H. now apply andb_true_iff in H as [_ H].
Qed.

Lemma single_spaced_take (n : nat) (s : str) :
  single_spaced s = true -> single_spaced (take n s ++ lit "...") = true.
Proof.
  revert n. induction s as [|a s IH]; intros n Hs.
  - now destruct n.
  - destruct n as [|n]; [reflexivity|]. cbn [take app].
    apply single_spaced_cons; [|apply IH; now apply single_spaced_tail in Hs].
    destruct n as [|n]; [cbn; apply andb_false_r|].
    destruct s as [|b s]; [cbn; apply andb_false_r|].
    cbn [take app]. cbn [single_spaced] in Hs.
    apply andb_true_iff in Hs as [Hs _]. now apply negb_true_iff in Hs.
Qed.

(** X20: The title is never empty, has at most 150 code points, holds no
    whitespace but single plain spaces, and never two of them in a row. *)
Theorem title_is_short_and_clean (text_lines : list line) (t : str) :
  extract_title text_lines = Ok t ->
  t <> []
  /\ (length t <= 150)%nat
  /\ Forall (fun c => isspace c = true -> c = " "%char) t
  /\ single_spaced t = true.
Proof.
  intros H. destruct (extract_title_form _ _ H) as [->|(s & Hne & ->)].
  - split; [discriminate|]. split; [cbn; lia|]. split; [|reflexivity].
    repeat constructor; discriminate.
  - set (c := collapse_ws (strip s)) in *.
    assert (Hsp : Forall (fun c => isspace c = true -> c = " "%char) c)
      by apply collapse_spaces.
    assert (Hsingle : single_spaced c = true) by apply collapse_single.
    destruct (150 <? length c)%nat eqn:Hlen.
    + apply Nat.ltb_lt in Hlen. split; [|split; [|split]].
      * destruct c; [easy|discriminate].
      * rewrite length_app, length_take.
        change (length (lit "...")) with 3%nat. lia.
      * apply Forall_app. split; [now apply Forall_take|].
        repeat constructor; discriminate.
      * now apply single_spaced_take.
    + apply Nat.ltb_ge in Hlen. easy.
Qed.

Lemma title_is_short_and_clean_witness :
  lit "Annual Report" <> [] /\ (length (lit "Annual Report") <= 150)%nat.
Proof.
  destruct (title_is_short_and_clean Sample.lines (lit "Annual Report")) as (H1 & H2 & _).
  - vm_compute. reflexivity.
  - split; assumption.
Defined.

(** ** The choice of the file *)

Lemma lower_length (s : str) : length (lower s) = length s.
Proof. unfold lower. apply length_map. Qed.

Lemma lower_app (s t : str) : lower (s ++ t) = lower s ++ lower t.
Proof. unfold lower. apply map_app. Qed.

Lemma lower_drop (n : nat) (s : str) : drop n (lower s) = lower (drop n s).
Proof. unfold lower. symmetry. apply fmap_drop. Qed.

(** X21: A listed name counts as a PDF exactly when it ends with [.pdf] in any
    mix of upper and lower case. *)
Theorem is_pdf_iff (f : str) :
  Cli.is_pdf f = true <-> exists stem ext, f = stem ++ ext /\ lower ext = lit ".pdf".
Proof.
  unfold Cli.is_pdf, Cli.endswith. rewrite andb_true_iff, Nat.leb_le, bool_decide_eq_true.
  rewrite lower_length. change (length (lit ".pdf")) with 4%nat. split.
  - intros [Hlen Hdrop]. exists (take (length f - 4) f), (drop (length f - 4) f).
    split; [symmetry; apply take_drop|]. now rewrite <- lower_drop.
  - intros (stem & ext & -> & Hext).
    assert (Hlen : length ext = 4%nat).
    { rewrite <- lower_length, Hext. reflexivity. }
    rewrite length_app. split; [lia|].
    replace (length stem + length ext - 4)%nat with (length stem) by lia.
    rewrite lower_app, <- Hext, <- (lower_length stem). apply drop_app_length.
Qed.

Lemma getitem_in_range {A : Type} (l : list A) (i : Z) :
  0 <= i < Z.of_nat (length l) ->
  exists x, Cli.getitem l i = Ok x /\ nth_error l (Z.to_nat i) = Some x.
Proof.
  intros Hi. unfold Cli.getitem. cbn zeta.
  destruct (Z.ltb_spec i 0) as [?|_]; [lia|].
  destruct (Z.ltb_spec i 0) as [?|_]; [lia|].
  destruct (Z.leb_spec (Z.of_nat (length l)) i) as [?|_]; [lia|].
  cbn [orb].
  destruct (nth_error l (Z.to_nat i)) as [x|] eqn:E; [now exists x|].
  apply nth_error_None in E. lia.
Qed.

(** X22: The main block goes on with a file exactly when the directory can be
    listed, the answer is a number from 1 to the number of PDF names, and
    then with the PDF name at that position of the listing; in every other
    case it leaves with status 1.  The index is never out of range. *)
Theorem select_spec (listdir : outcome (list str)) (read_choice : outcome Z) :
  (forall f,
     Cli.select listdir read_choice = Cli.Selected f <->
     exists all_files choice,
       listdir = Ok all_files /\ read_choice = Ok choice
       /\ 1 <= choice <= Z.of_nat (length (List.filter Cli.is_pdf all_files))
       /\ nth_error (List.filter Cli.is_pdf all_files) (Z.to_nat (choice - 1)) = Some f)
  /\ (forall status, Cli.select listdir read_choice = Cli.Exit status -> status = 1).
Proof.
  unfold Cli.select, Cli.select_body.
  destruct listdir as [all_files|e]; cbn [bind].
  2:{ split; [|now intros status [= <-]].
      intros f. split; [discriminate|]. now intros (? & ? & [=] & _). }
  set (pdf_files := List.filter Cli.is_pdf all_files).
  destruct (truthy pdf_files) eqn:Hpdf; cbn [negb].
  2:{ split; [|now intros status [= <-]].
      intros f. split; [discriminate|].
      intros (fs' & k & [= <-] & _ & Hk & _). fold pdf_files in Hk.
      destruct pdf_files; [cbn in Hk; lia|discriminate]. }
  destruct read_choice as [choice|e]; cbn [bind].
  2:{ split; [|now intros status [= <-]].
      intros f. split; [discriminate|]. now intros (? & ? & _ & [=] & _). }
  destruct ((1 <=? choice) && (choice <=? Z.of_nat (length pdf_files))) eqn:Hrange;
    cbn [negb].
  - apply andb_true_iff in Hrange as [H1 H2]. apply Z.leb_le in H1, H2.
    destruct (getitem_in_range pdf_files (choice - 1)) as (x & -> & Hx); [lia|].
    cbn [bind]. split; [|discriminate].
    intros f. split.
    + intros [= <-]. exists all_files, choice. fold pdf_files. repeat split; try assumption.
    + intros (fs' & k & [= <-] & [= <-] & _ & Hf). fold pdf_files in Hf. congruence.
  - split; [|now intros status [= <-]].
    intros f. split; [discriminate|].
    intros (fs' & k & [= <-] & [= <-] & Hk & _). fold pdf_files in Hk.
    apply andb_false_iff in Hrange as [H|H]; [apply Z.leb_gt in H|apply Z.leb_gt in H]; lia.
Qed.

Lemma select_spec_witness :
  Cli.select (Ok (map lit ["a.PDF"; "notes.txt"; "b.Pdf"]%string)) (Ok 2)
  = Cli.Selected (lit "b.Pdf").
Proof.
  apply (proj1 (select_spec (Ok (map lit ["a.PDF"; "notes.txt"; "b.Pdf"]%string)) (Ok 2))).
  exists (map lit ["a.PDF"; "notes.txt"; "b.Pdf"]%string), 2.
  split; [reflexivity|]. split; [reflexivity|]. split; [vm_compute; split; discriminate|].
  reflexivity.
Defined.

(** X23: The selected file is a name of the listing that ends with [.pdf]. *)
Theorem selected_file_is_listed_pdf
    (all_files : list str) (read_choice : outcome Z) (f : str) :
  Cli.select (Ok all_files) read_choice = Cli.Selected f ->
  In f all_files /\ Cli.is_pdf f = true.
Proof.
  unfold Cli.select, Cli.select_body. cbn [bind].
  destruct (negb _); [discriminate|].
  destruct read_choice as [choice|]; cbn [bind]; [|discriminate].
  destruct (negb _); [discriminate|].
  unfold Cli.getitem. destruct (_ || _); cbn [bind]; [discriminate|].
  destruct (nth_error _ _) as [x|] eqn:E; cbn [bind]; [|discriminate].
  intros [= <-]. apply nth_error_In, filter_In in E. exact E.
Qed.

Lemma selected_file_is_listed_pdf_witness :
  In (lit "b.Pdf") (map lit ["a.PDF"; "notes.txt"; "b.Pdf"]%string)
  /\ Cli.is_pdf (lit "b.Pdf") = true.
Proof.
  apply (selected_file_is_listed_pdf _ (Ok 2)). vm_compute. reflexivity.
Defined.

(** ** The table-of-contents filter, exactly *)

Lemma run_seq_sound (n0 : nat) (a b : re) (s x : str) :
  In x (run n0 (a ⨾ b) s) -> exists s1, In s1 (run n0 a s) /\ In x (run n0 b s1).
Proof. rewrite run_seq_eq. apply in_flat_map. Qed.

Lemma run_cls_sound (n0 : nat) (p : char -> bool) (s x : str) :
  In x (run n0 (Cls p) s) -> exists c, s = c :: x /\ p c = true.
Proof.
  destruct s as [|c s]; [easy|]. cbn [run].
  destruct (p c) eqn:Hc; [|easy]. intros [<-|[]]. eauto.
Qed.

Lemma run_atleast_sound (n0 : nat) (p : char -> bool) (n : nat) (s x : str) :
  In x (run n0 (AtLeast n (Cls p)) s) ->
  exists xs, (n <= length xs)%nat /\ Forall (fun c => p c = true) xs /\ s = xs ++ x.
Proof.
  revert s. induction n as [|n IH]; intros s; cbn [AtLeast].
  - rewrite run_star_eq. intros H.
    destruct (star_cls_sound _ _ _ _ _ H) as (xs & Hxs & ->).
    exists xs. split; [lia|easy].
  - intros H. apply run_seq_sound in H as (s1 & H1 & H).
    apply run_cls_sound in H1 as (c & -> & Hc).
    destruct (IH _ H) as (xs & Hlen & Hxs & ->).
    exists (c :: xs). cbn [length]. split; [lia|]. split; [now constructor|reflexivity].
Qed.

Lemma run_eos_sound (n0 : nat) (s x : str) :
  In x (run n0 Eos s) -> x = s /\ (s = [] \/ s = ["010"%char]).
Proof.
  destruct s as [|c [|c' s]]; cbn [run]; [intros [<-|[]]; auto| |easy].
  destruct (Ascii.eqb_spec c "010"%char) as [->|]; [|easy].
  intros [<-|[]]. auto.
Qed.

Lemma search_from_sound (n0 : nat) (r : re) (s : str) :
  search_from n0 r s = true ->
  exists pre sfx x, s = pre ++ sfx /\ In x (run n0 r sfx).
Proof.
  induction s as [|c s IH]; cbn [search_from].
  - rewrite orb_false_r. destruct (run n0 r []) as [|x tl] eqn:E; [discriminate|].
    intros _. exists [], [], x. rewrite E. split; [reflexivity|now left].
  - destruct (run n0 r (c :: s)) as [|x tl] eqn:E.
    + cbn [truthy orb]. intros H. destruct (IH H) as (pre & sfx & x & -> & Hx).
      exists (c :: pre), sfx, x. easy.
    + intros _. exists [], (c :: s), x. rewrite E. split; [reflexivity|now left].
Qed.

Lemma dots_are_chr (dots : str) :
  Forall (fun c => Ascii.eqb "."%char c = true) dots <->
  Forall (fun c => c = "."%char) dots.
Proof.
  split; intros H; (eapply Forall_impl; [exact H|]); intros c Hc; cbv beta in Hc |- *.
  - symmetry. now apply Ascii.eqb_eq.
  - rewrite Hc. apply Ascii.eqb_refl.
Qed.

(** X24: [re.search] finds the dot-leader pattern in a text exactly when the text
    ends with one whitespace code point, three dots or more, any
    whitespace, one digit or more, and at most one final newline. *)
Theorem dot_leader_search_iff (t : str) :
  search dot_leader t = true <->
  exists pre s dots ws digits nl,
    t = pre ++ s :: dots ++ ws ++ digits ++ nl
    /\ isspace s = true
    /\ (3 <= length dots)%nat /\ Forall (fun c => c = "."%char) dots
    /\ Forall (fun c => isspace c = true) ws
    /\ is_number digits
    /\ (nl = [] \/ nl = ["010"%char]).
Proof.
  unfold search. generalize (length t) as n0. intros n0. split.
  - intros H. apply search_from_sound in H as (pre & sfx & x & -> & Hx).
    unfold dot_leader in Hx.
    apply run_seq_sound in Hx as (s1 & H1 & Hx).
    apply run_cls_sound in H1 as (s & -> & Hs).
    apply run_seq_sound in Hx as (s2 & H2 & Hx).
    apply run_atleast_sound in H2 as (dots & Hlen & Hdots & ->).
    apply run_seq_sound in Hx as (s3 & H3 & Hx).
    rewrite run_star_eq in H3.
    apply star_cls_sound in H3 as (ws & Hws & ->).
    apply run_seq_sound in Hx as (s4 & H4 & Hx).
    apply plus_cls_sound in H4 as (digits & Hne & Hdig & ->).
    apply run_eos_sound in Hx as [-> Hnl].
    exists pre, s, dots, ws, digits, s4.
    repeat split; try assumption. now apply dots_are_chr.
  - intros (pre & s & dots & ws & digits & nl & -> & Hs & Hlen & Hdots & Hws & [Hne Hdig] & Hnl).
    apply search_from_app. apply search_from_here with (x := nl).
    unfold dot_leader.
    eapply run_seq_in; [unfold cls_space; rewrite run_cls_hit by assumption; now left|].
    eapply run_seq_in; [apply run_atleast_in; [exact Hlen|now apply dots_are_chr]|].
    eapply run_seq_in; [now apply run_star_cls_in|].
    eapply run_seq_in; [now apply run_plus_cls_in|].
    destruct Hnl as [-> | ->]; now left.
Qed.

(** ** What the cleaning keeps and what it drops *)

Lemma scan_pages_decode (a b : float) (d : doc) (st st' : candidates) :
  for_each (scan_page a b) d st = Ok st' ->
  Forall (fun p => exists bs, pg_blocks p = Ok bs) d.
Proof.
  revert st. induction d as [|p d IH]; intros st; cbn [for_each]; [constructor|].
  unfold scan_page at 1.
  destruct (pg_blocks p) as [bs|e] eqn:Hp; cbn [bind]; [|discriminate].
  destruct (for_each (scan_block a b) bs st) as [st1|]; cbn [bind]; [|discriminate].
  intros H. constructor; [eauto|now apply (IH st1)].
Qed.

Lemma identify_pages_decode (d : doc) (hf : gset str) :
  _identify_headers_and_footers d = Ok hf ->
  Forall (fun p => exists bs, pg_blocks p = Ok bs) d.
Proof.
  unfold _identify_headers_and_footers.
  destruct d as [|p0 d]; [constructor|].
  change (page_count (p0 :: d) =? 0)%nat with false.
  change (doc_getitem (p0 :: d) 0) with (Ok p0). cbn [bind].
  match goal with
  | |- context [for_each ?f (p0 :: d) ?st0] =>
      destruct (for_each f (p0 :: d) st0) as [st|] eqn:Hrun; cbn [bind]; [|discriminate]
  end.
  intros _. now apply scan_pages_decode in Hrun.
Qed.

(** Cleaning the pages keeps what was collected and adds, for each line of
    each page, the cleaned line it gives. *)
Lemma clean_pages_complete (hf : gset str) (d : doc) (k : nat) (acc : list line) :
  Forall (fun p => exists bs, pg_blocks p = Ok bs) d ->
  exists out,
    for_each (clean_page hf) (enumerate_from k d) acc = Ok out
    /\ (forall l, In l acc -> In l out)
    /\ forall i pg ln l,
         nth_error d i = Some pg -> In ln (page_lines pg) ->
         clean_line hf (k + i) ln = Some l -> In l out.
Proof.
  revert k acc. induction d as [|p d IH]; intros k acc Hd; cbn [enumerate_from for_each].
  - exists acc. split; [reflexivity|]. split; [easy|]. now intros [|i].
  - inversion Hd as [|? ? [bs Hp] Hd']; subst.
    unfold clean_page at 1. cbn [fst snd]. rewrite Hp. cbn [bind].
    destruct (IH (S k) (acc ++ flat_map (clean_block hf k) bs) Hd')
      as (out & Hrun & Hacc & Hnew).
    exists out. split; [exact Hrun|]. split.
    + intros l Hl. apply Hacc, in_or_app. now left.
    + intros [|i] pg ln l Hpg Hln Hclean.
      * injection Hpg as <-. rewrite Nat.add_0_r in Hclean.
        apply Hacc, in_or_app. right.
        unfold page_lines in Hln. rewrite Hp in Hln.
        apply in_flat_map in Hln as (b & Hb & Hln).
        apply in_flat_map. exists b. split; [exact Hb|].
        unfold clean_block. unfold block_lines in Hln.
        destruct (bl_lines b) as [lines|]; [|easy].
        apply list_elem_of_In, list_elem_of_omap. exists ln.
        split; [now apply list_elem_of_In|exact Hclean].
      * apply (Hnew i pg ln l Hpg Hln).
        now replace (S k + i)%nat with (k + S i)%nat by lia.
Qed.

Lemma clean_line_cases (hf : gset str) (n : nat) (ln : rawline) :
  (exists l, clean_line hf n ln = Some l
     /\ l_text l = raw_text ln /\ l_bbox l = rl_bbox ln /\ l_page l = (n + 1)%nat)
  \/ rl_spans ln = None \/ rl_spans ln = Some []
  \/ raw_text ln = []
  \/ raw_text ln ∈ hf
  \/ search dot_leader (raw_text ln) = true.
Proof.
  unfold clean_line, raw_text.
  destruct (rl_spans ln) as [[|s spans]|]; [tauto| |tauto].
  destruct (line_text (s :: spans)) as [|c t] eqn:Ht; [tauto|].
  cbn [truthy negb].
  destruct (bool_decide _) eqn:Hin; [apply bool_decide_eq_true in Hin; tauto|].
  destruct (search dot_leader (c :: t)); [tauto|].
  left. eexists. split; [reflexivity|]. easy.
Qed.

(** X25: Every line of every page is either in the cleaned list, with its text,
    its box and its page number, or it was dropped for one of five reasons:
    no spans, an empty list of spans, an empty text, a suppressed text, or
    a text of the table-of-contents pattern. *)
Theorem line_kept_or_dropped (fs : filesystem) (pdf_path : str)
    (d : doc) (hf : gset str) (i : nat) (pg : page) (ln : rawline) :
  fs pdf_path = Opened d ->
  _identify_headers_and_footers d = Ok hf ->
  nth_error d i = Some pg ->
  In ln (page_lines pg) ->
  (exists l, In l (extract_text_lines fs pdf_path)
     /\ l_text l = raw_text ln /\ l_bbox l = rl_bbox ln /\ l_page l = (i + 1)%nat)
  \/ rl_spans ln = None \/ rl_spans ln = Some []
  \/ raw_text ln = []
  \/ raw_text ln ∈ hf
  \/ search dot_leader (raw_text ln) = true.
Proof.
  intros Hfs Hhf Hpg Hln.
  destruct (clean_line_cases hf i ln) as [(l & Hclean & Hl)|Hdrop]; [|now right].
  left. exists l. split; [|exact Hl].
  unfold extract_text_lines, extract_text_lines_body. rewrite Hfs.
  destruct d as [|p0 d]; [now destruct i|].
  change (page_count (p0 :: d) =? 0)%nat with false. rewrite Hhf. cbn [bind].
  destruct (clean_pages_complete hf (p0 :: d) 0 [] (identify_pages_decode _ _ Hhf))
    as (out & Hrun & _ & Hnew).
  unfold enumerate. rewrite Hrun. now apply (Hnew i pg ln l).
Qed.

Lemma line_kept_or_dropped_witness :
  (exists l, In l (extract_text_lines Sample.files Sample.path)
     /\ l_text l = raw_text (Sample.mk_line "2.1 Details" 140 0 260%float)
     /\ l_bbox l = rl_bbox (Sample.mk_line "2.1 Details" 140 0 260%float)
     /\ l_page l = 2%nat)
  \/ rl_spans (Sample.mk_line "2.1 Details" 140 0 260%float) = None
  \/ rl_spans (Sample.mk_line "2.1 Details" 140 0 260%float) = Some []
  \/ raw_text (Sample.mk_line "2.1 Details" 140 0 260%float) = []
  \/ raw_text (Sample.mk_line "2.1 Details" 140 0 260%float) ∈ ({[lit "Confidential"]} : gset str)
  \/ search dot_leader (raw_text (Sample.mk_line "2.1 Details" 140 0 260%float)) = true.
Proof.
  apply (line_kept_or_dropped Sample.files Sample.path Sample.document
           {[lit "Confidential"]} 1 Sample.page_2).
  - reflexivity.
  - vm_compute. reflexivity.
  - reflexivity.
  - vm_compute. right. right. left. reflexivity.
Defined.

(** The suppression set of a document that decodes. *)
Lemma common_texts_spec (p0 : page) (d : doc) :
  decodable (p0 :: d) ->
  exists common : gset str,
    _identify_headers_and_footers (p0 :: d) = Ok common
    /\ forall t, t ∈ common <->
         (threshold (length (p0 :: d))
            <= occurrences (pg_height p0) HeaderZone t (raw_lines (p0 :: d)))%nat
         \/ (threshold (length (p0 :: d))
            <= occurrences (pg_height p0) FooterZone t (raw_lines (p0 :: d)))%nat.
Proof.
  intros [Hpages Hlines].
  set (pages := p0 :: d). set (h := pg_height p0).
  unfold _identify_headers_and_footers.
  change (page_count pages =? 0)%nat with false.
  change (doc_getitem pages 0) with (Ok p0). cbn [bind]. fold h.
  destruct (for_each_acc
              (scan_page (PrimFloat.mul h 0.15%float) (PrimFloat.mul h 0.85%float))
              page_lines (counted h)
              (fun p => (exists bs, pg_blocks p = Ok bs)
                        /\ Forall (fun ln => is_Some (rl_spans ln)) (page_lines p))
              (fun st ls p => scan_page_counted h st ls p)
              pages (∅, ∅) [])
    as (st & Hrun & Hst).
  { apply Forall_flat_map in Hlines.
    apply List.Forall_forall. intros p Hp.
    rewrite List.Forall_forall in Hpages, Hlines. split; [now apply Hpages|now apply Hlines]. }
  { intros t. cbn [fst snd]. now rewrite !lookup_empty. }
  cbn [app] in Hst. fold (raw_lines pages) in Hst.
  rewrite Hrun. cbn [bind]. unfold page_count.
  eexists. split; [reflexivity|].
  intros t. rewrite !add_common_spec.
  destruct (counted_threshold h st (raw_lines pages) (threshold (length pages)) t
              (threshold_pos _) Hst) as [-> ->].
  rewrite elem_of_empty. tauto.
Qed.

Lemma occurrences_In (h : float) (z : zone) (t : str) (ls : list rawline) (ln : rawline) :
  In ln ls -> counts_for h z t ln = true -> (1 <= occurrences h z t ls)%nat.
Proof.
  intros Hin Hc. unfold occurrences.
  assert (H : In ln (List.filter (counts_for h z t) ls)) by now apply List.filter_In.
  destruct (List.filter _ ls); [easy|cbn [length]; lia].
Qed.

(** X26: In a document of one or two pages that decodes, a line of four code
    points or more that starts in the top 15% or below the bottom 15% of
    the page height is dropped wherever its text stands: no cleaned line
    has its text. *)
Theorem short_document_margins_dropped (fs : filesystem) (pdf_path : str)
    (p0 : page) (d : doc) (ln : rawline) (l : line) :
  fs pdf_path = Opened (p0 :: d) ->
  decodable (p0 :: d) ->
  (length (p0 :: d) <= 2)%nat ->
  In ln (raw_lines (p0 :: d)) ->
  (4 <= length (raw_text ln))%nat ->
  zone_of (pg_height p0) ln <> BodyZone ->
  In l (extract_text_lines fs pdf_path) ->
  l_text l <> raw_text ln.
Proof.
  intros Hfs Hdec Hshort Hln Hlen Hzone Hl Htext.
  destruct (common_texts_spec p0 d Hdec) as (common & Hid & Hmem).
  assert (Hthr : threshold (length (p0 :: d)) = 1%nat).
  { unfold threshold. destruct (Nat.ltb_spec 2 (length (p0 :: d))); [lia|reflexivity]. }
  rewrite Hthr in Hmem.
  assert (Hin : raw_text ln ∈ common).
  { apply Hmem.
    destruct (zone_of (pg_height p0) ln) eqn:Hz; [left|right|easy];
      apply (occurrences_In _ _ _ _ ln Hln); unfold counts_for; rewrite Hz;
      rewrite bool_decide_eq_true_2 by reflexivity;
      apply andb_true_iff; (split; [|reflexivity]); now apply Nat.leb_le. }
  destruct (extract_text_lines_opened fs pdf_path) as (d' & hf & Hfs' & Hhf & Hrun).
  { intros E. now rewrite E in Hl. }
  rewrite Hfs in Hfs'. injection Hfs' as <-.
  rewrite Hid in Hhf. injection Hhf as <-.
  destruct (clean_pages_spec _ _ _ _ _ Hrun) as (new & Hnew & Horigin & _).
  cbn [app] in Hnew. rewrite Hnew in Hl.
  destruct (Horigin l Hl) as (n & ln' & _ & Hclean).
  destruct (clean_line_text _ _ _ _ Hclean) as (_ & _ & _ & _ & Hnot & _).
  apply Hnot. now rewrite Htext.
Qed.

Lemma short_document_margins_dropped_witness :
  In (nth 0 (extract_text_lines (Cases.files Cases.memo_document) []) (Sample.text_line []))
     (extract_text_lines (Cases.files Cases.memo_document) [])
  /\ l_text (nth 0 (extract_text_lines (Cases.files Cases.memo_document) [])
               (Sample.text_line []))
     <> raw_text Cases.memo_heading.
Proof.
  assert (H : In (nth 0 (extract_text_lines (Cases.files Cases.memo_document) [])
                    (Sample.text_line []))
                (extract_text_lines (Cases.files Cases.memo_document) [])).
  { vm_compute. left. reflexivity. }
  split; [exact H|].
  apply (short_document_margins_dropped (Cases.files Cases.memo_document) []
           (Cases.page_of (Cases.memo_heading
              :: Cases.body_lines "points of the meeting" "and the decisions")) []
           Cases.memo_heading).
  - reflexivity.
  - split.
    + repeat constructor. eexists. reflexivity.
    + vm_compute. repeat constructor; eexists; reflexivity.
  - cbn [length]. lia.
  - vm_compute. left. reflexivity.
  - vm_compute. lia.
  - vm_compute. discriminate.
  - exact H.
Defined.

(** ** A chapter line with nothing behind its identifier *)

Lemma space_not_upper (c : char) : isspace c = true -> isupper_az c = false.
Proof.
  destruct c as [[] [] [] [] [] [] [] []]; intros H; try discriminate H; reflexivity.
Qed.

Lemma space_not_lower (c : char) : isspace c = true -> islower_az c = false.
Proof.
  destruct c as [[] [] [] [] [] [] [] []]; intros H; try discriminate H; reflexivity.
Qed.

Lemma digit_not_upper (c : char) : isdecimal c = true -> isupper_az c = false.
Proof.
  destruct c as [[] [] [] [] [] [] [] []]; intros H; try discriminate H; reflexivity.
Qed.

Lemma ident_not_space (ident : str) :
  is_ident ident ->
  exists i0 ident', ident = i0 :: ident' /\ isspace i0 = false.
Proof.
  intros [(u & -> & Hu)|[Hne Hd]].
  - exists u, []. split; [reflexivity|].
    destruct (isspace u) eqn:E; [|reflexivity]. apply space_not_upper in E. congruence.
  - destruct ident as [|i0 ident']; [easy|]. exists i0, ident'. split; [reflexivity|].
    apply Forall_cons in Hd as [H0 _].
    destruct (isspace i0) eqn:E; [|reflexivity]. apply space_not_digit in E. congruence.
Qed.

Lemma run_none (n0 : nat) (r : re) (s : str) :
  (forall x, ~ In x (run n0 r s)) -> run n0 r s = [].
Proof.
  destruct (run n0 r s) as [|x tl]; [reflexivity|]. intros H. destruct (H x). now left.
Qed.

Lemma run_lit_sound (n0 : nat) (w s x : str) :
  In x (run n0 (Lit w) s) -> s = w ++ x.
Proof.
  revert s. induction w as [|a w IH]; intros s; cbn [Lit].
  - cbn [run]. now intros [<-|[]].
  - intros H. apply run_seq_sound in H as (s1 & H1 & H).
    apply run_cls_sound in H1 as (c & -> & Hc).
    apply Ascii.eqb_eq in Hc. subst c. cbn [app]. f_equal. now apply IH.
Qed.

Lemma run_alt_sound (n0 : nat) (a b : re) (s x : str) :
  In x (run n0 (Alt a b) s) -> In x (run n0 a s) \/ In x (run n0 b s).
Proof. cbn [run]. apply in_app_or. Qed.

(** A run of code points of a class, read from [ys ++ c :: rest] where [c]
    is not of the class, ends within [ys]. *)
Lemma cls_run_within (p : char -> bool) (xs s1 ys rest : str) (c : char) :
  Forall (fun a => p a = true) xs ->
  xs ++ s1 = ys ++ c :: rest ->
  p c = false ->
  exists zs, ys = xs ++ zs /\ s1 = zs ++ c :: rest.
Proof.
  intros Hxs. revert ys. induction Hxs as [|a xs Ha Hxs IH]; intros ys Heq Hc.
  - exists ys. easy.
  - destruct ys as [|y ys]; cbn [app] in Heq; injection Heq as -> Heq.
    + congruence.
    + destruct (IH ys Heq Hc) as (zs & -> & ->). now exists zs.
Qed.

(** The keyword tests fail: no keyword starts with [c] or [s]. *)
Lemma chapter_not_keyword (kw rest : str) :
  kw = lit "Chapter" \/ kw = lit "Section" ->
  strip (lower (kw ++ rest)) ∉ explicit_headings.
Proof.
  intros Hkw Hin.
  assert (Hhead : exists c t, strip (lower (kw ++ rest)) = c :: t
                    /\ (c = "c"%char \/ c = "s"%char)).
  { unfold strip.
    assert (Hl : exists c t, lstrip (lower (kw ++ rest)) = c :: t
                   /\ (c = "c"%char \/ c = "s"%char) /\ isspace c = false).
    { destruct Hkw as [-> | ->]; eexists _, _; (split; [reflexivity|]); auto. }
    destruct Hl as (c & t & -> & Hc & Hs).
    unfold rstrip.
    destruct (lstrip_split (rev (c :: t))) as (ws & Hrev & Hws & _).
    apply (f_equal (@rev char)) in Hrev. rewrite rev_involutive, rev_app_distr in Hrev.
    destruct (rev (lstrip (rev (c :: t)))) as [|c' t'] eqn:E.
    - rewrite app_nil_l in Hrev. apply (f_equal (@rev char)) in Hrev.
      rewrite rev_involutive in Hrev. cbn [rev] in Hrev.
      assert (Hc' : In c ws).
      { rewrite <- Hrev. apply in_or_app. right. now left. }
      rewrite List.Forall_forall in Hws. rewrite (Hws c Hc') in Hs. discriminate.
    - cbn [app] in Hrev. injection Hrev as <- _. eauto. }
  destruct Hhead as (c & t & Heq & Hc). rewrite Heq in Hin.
  unfold explicit_headings in Hin. apply elem_of_list_to_set, list_elem_of_In in Hin.
  cbn [map] in Hin.
  repeat (destruct Hin as [Hin|Hin];
          [injection Hin as <- _; destruct Hc; discriminate|]).
  exact Hin.
Qed.

Lemma chapter_miss_numbered (n0 : nat) (kw ws ident : str) :
  kw = lit "Chapter" \/ kw = lit "Section" -> is_blank ws -> is_ident ident ->
  run n0 (Plus cls_digit ⨾ Star segment_re ⨾ Plus cls_space ⨾ Star Dot)
    (kw ++ ws ++ ident) = [].
Proof.
  intros Hkw Hws Hid.
  apply run_seq_nil, run_seq_nil, run_cls_miss.
  destruct Hkw as [-> | ->]; reflexivity.
Qed.

Lemma chapter_miss_chapter (n0 : nat) (kw ws ident : str) :
  kw = lit "Chapter" \/ kw = lit "Section" -> is_blank ws -> is_ident ident ->
  run n0 (Alt (Lit (lit "Chapter")) (Lit (lit "Section")) ⨾ Plus cls_space
            ⨾ Alt cls_upper (Plus cls_digit) ⨾ Plus cls_space ⨾ Star Dot)
    (kw ++ ws ++ ident) = [].
Proof.
  intros Hkw Hws Hid.
  apply run_none. intros x Hx.
  apply run_seq_sound in Hx as (s1 & H1 & Hx).
  assert (Hs1 : s1 = ws ++ ident).
  { apply run_alt_sound in H1 as [H1|H1]; apply run_lit_sound in H1;
      destruct Hkw as [-> | ->]; try discriminate H1;
      now apply app_inv_head in H1. }
  subst s1. clear H1.
  apply run_seq_sound in Hx as (s2 & H2 & Hx).
  apply plus_cls_sound in H2 as (xs & _ & Hxs & H2).
  destruct (ident_not_space ident Hid) as (i0 & ident' & Hident & Hi0).
  destruct Hws as [_ Hspaces].
  rewrite Hident in H2. symmetry in H2.
  destruct (cls_run_within isspace xs s2 ws ident' i0 Hxs H2 Hi0) as (zs & Hzs & ->).
  rewrite <- Hident in Hx. clear Hident Hi0 H2.
  assert (Hzs' : Forall (fun c => isspace c = true) zs).
  { rewrite Hzs in Hspaces. now apply Forall_app in Hspaces as [_ ?]. }
  apply run_seq_sound in Hx as (s3 & H3 & Hx).
  apply run_seq_sound in Hx as (s4 & H4 & _).
  apply plus_cls_sound in H4 as (ys & Hne & Hys & ->).
  destruct ys as [|y ys]; [easy|]. clear Hne.
  apply Forall_cons in Hys as [Hy _].
  apply run_alt_sound in H3 as [H3|H3].
  - apply run_cls_sound in H3 as (u & H3 & Hu).
    destruct zs as [|z zs].
    + cbn [app] in H3.
      destruct Hid as [(u' & -> & _)|[_ Hd]].
      * discriminate H3.
      * rewrite H3 in Hd. apply Forall_cons in Hd as [Hd0 _].
        apply digit_not_upper in Hd0. congruence.
    + cbn [app] in H3. injection H3 as <- _.
      apply Forall_cons in Hzs' as [Hz _].
      apply space_not_upper in Hz. congruence.
  - apply plus_cls_sound in H3 as (ds & Hne & Hds & H3).
    destruct ds as [|d ds]; [easy|]. clear Hne.
    apply Forall_cons in Hds as [Hd0 Hds'].
    destruct zs as [|z zs].
    + cbn [app] in H3.
      destruct Hid as [(u' & -> & Hu')|[_ Hd]].
      * injection H3 as <- _. apply digit_not_upper in Hd0. congruence.
      * rewrite H3 in Hd. apply Forall_cons in Hd as [_ Hd'].
        apply Forall_app in Hd' as [_ Hd'].
        apply Forall_cons in Hd' as [Hy' _].
        apply space_not_digit in Hy. congruence.
    + cbn [app] in H3. injection H3 as <- _.
      apply Forall_cons in Hzs' as [Hz _].
      apply space_not_digit in Hz. congruence.
Qed.

Lemma chapter_miss_capitals (n0 : nat) (kw ws ident : str) :
  kw = lit "Chapter" \/ kw = lit "Section" -> is_blank ws -> is_ident ident ->
  run n0 (AtLeast 3 (Cls (or_cls isupper_az isspace)) ⨾ Eos) (kw ++ ws ++ ident) = [].
Proof.
  intros Hkw Hws Hid.
  apply run_seq_nil. cbn [AtLeast]. rewrite run_seq_eq.
  destruct Hkw as [-> | ->]; cbn [lit String.list_ascii_of_string app];
    (rewrite run_cls_hit by reflexivity); cbn [flat_map]; rewrite app_nil_r;
    now apply run_seq_nil, run_cls_miss.
Qed.

Lemma chapter_miss_title_case (n0 : nat) (kw ws ident : str) :
  kw = lit "Chapter" \/ kw = lit "Section" -> is_blank ws -> is_ident ident ->
  run n0 ((cls_upper ⨾ Plus cls_lower)
            ⨾ Plus (cls_space ⨾ cls_upper ⨾ Plus cls_lower) ⨾ Eos)
    (kw ++ ws ++ ident) = [].
Proof.
  intros Hkw Hws Hid.
  apply run_none. intros x Hx.
  apply run_seq_sound in Hx as (s1 & H1 & Hx).
  apply run_seq_sound in H1 as (s0 & H0 & H1).
  apply run_cls_sound in H0 as (k0 & H0 & _).
  apply plus_cls_sound in H1 as (xs & _ & Hxs & H1).
  destruct Hws as [Hne Hspaces]. destruct ws as [|w0 ws']; [easy|]. clear Hne.
  apply Forall_cons in Hspaces as [Hw0 Hspaces'].
  assert (Hlows : exists lows, s0 = lows ++ w0 :: ws' ++ ident
                    /\ Forall (fun c => islower_az c = true) lows).
  { destruct Hkw as [-> | ->]; cbn [lit String.list_ascii_of_string app] in H0;
      injection H0 as _ <-.
    - exists (lit "hapter"). split; [reflexivity|]. repeat constructor.
    - exists (lit "ection"). split; [reflexivity|]. repeat constructor. }
  destruct Hlows as (lows & -> & Hlows). symmetry in H1.
  destruct (cls_run_within islower_az xs s1 lows (ws' ++ ident) w0 Hxs H1
              (space_not_lower _ Hw0)) as (zs & Hzs & ->).
  assert (Hzs' : Forall (fun c => islower_az c = true) zs).
  { rewrite Hzs in Hlows. now apply Forall_app in Hlows as [_ ?]. }
  apply run_seq_sound in Hx as (s2 & H2 & _).
  apply run_seq_sound in H2 as (s3 & H3 & _).
  apply run_seq_sound in H3 as (s4 & H4 & H3).
  apply run_cls_sound in H4 as (c & H4 & Hc).
  destruct zs as [|z zs].
  - cbn [app] in H4. injection H4 as <- <-.
    apply run_seq_sound in H3 as (s5 & H5 & H3).
    apply run_cls_sound in H5 as (u & H5 & Hu).
    apply plus_cls_sound in H3 as (ls & Hne & Hls & H3).
    destruct ls as [|l0 ls]; [easy|].
    destruct ws' as [|w1 ws''].
    + cbn [app] in H5.
      destruct Hid as [(u' & -> & _)|[_ Hd]].
      * injection H5 as _ <-. discriminate H3.
      * rewrite H5 in Hd. apply Forall_cons in Hd as [Hd0 _].
        apply digit_not_upper in Hd0. congruence.
    + cbn [app] in H5. injection H5 as <- _.
      apply Forall_cons in Hspaces' as [Hw1 _].
      apply space_not_upper in Hw1. congruence.
  - cbn [app] in H4. injection H4 as <- _.
    apply Forall_cons in Hzs' as [Hz _].
    apply space_not_lower in Hc. congruence.
Qed.

Lemma chapter_miss_roman (n0 : nat) (kw ws ident : str) :
  kw = lit "Chapter" \/ kw = lit "Section" -> is_blank ws -> is_ident ident ->
  run n0 (Plus (Cls is_roman) ⨾ Chr "."%char ⨾ Plus cls_space ⨾ Plus Dot)
    (kw ++ ws ++ ident) = [].
Proof.
  intros Hkw Hws Hid.
  destruct Hkw as [-> | ->].
  - apply run_none. intros x Hx.
    apply run_seq_sound in Hx as (s1 & H1 & Hx).
    apply plus_cls_sound in H1 as (xs & Hne & Hxs & H1).
    change (lit "Chapter" ++ ws ++ ident)
      with (["C"%char] ++ "h"%char :: lit "apter" ++ ws ++ ident) in H1.
    symmetry in H1.
    destruct (cls_run_within is_roman xs s1 _ _ _ Hxs H1 eq_refl) as (zs & Hzs & ->).
    destruct xs as [|a [|b xs]]; [easy| |discriminate Hzs].
    injection Hzs as _ <-. cbn [app] in Hx.
    apply run_seq_sound in Hx as (s2 & H2 & _).
    rewrite run_chr in H2. exact H2.
  - now apply run_seq_nil, run_seq_nil, run_cls_miss.
Qed.

Lemma chapter_patterns_miss (kw ws ident : str) :
  kw = lit "Chapter" \/ kw = lit "Section" -> is_blank ws -> is_ident ident ->
  existsb (fun pattern => bool_decide (is_Some (match_ pattern (kw ++ ws ++ ident))))
    heading_patterns = false.
Proof.
  intros Hkw Hws Hid.
  assert (Hnone : forall r,
            run (length (kw ++ ws ++ ident)) r (kw ++ ws ++ ident) = [] ->
            bool_decide (is_Some (match_ (Bos ⨾ r) (kw ++ ws ++ ident))) = false).
  { intros r Hr. apply bool_decide_eq_false. rewrite match_none; [now intros [? ?]|].
    rewrite run_seq_eq, run_bos by reflexivity. cbn [flat_map]. now rewrite Hr. }
  unfold heading_patterns. cbn [existsb].
  rewrite !Hnone; [reflexivity|..].
  - now apply chapter_miss_roman.
  - now apply chapter_miss_title_case.
  - now apply chapter_miss_capitals.
  - now apply chapter_miss_chapter.
  - now apply chapter_miss_numbered.
Qed.

(** X27: ["Chapter"] or ["Section"], whitespace and an identifier, with nothing
    behind the identifier: the second pattern asks for whitespace there, so
    no pattern matches, and the line is a heading candidate exactly when it
    is bold. *)
Theorem bare_chapter_line_needs_bold (l : line) (kw ws ident : str) :
  kw = lit "Chapter" \/ kw = lit "Section" ->
  is_blank ws -> is_ident ident ->
  l_text l = kw ++ ws ++ ident ->
  (length (l_text l) <= 200)%nat ->
  is_likely_heading l = Z.testbit (l_flags l) 4.
Proof.
  intros Hkw Hws Hid Htext Hlen.
  rewrite is_likely_heading_tests.
  - rewrite Htext, (chapter_patterns_miss kw ws ident Hkw Hws Hid).
    rewrite bool_decide_eq_false_2 by now apply chapter_not_keyword.
    reflexivity.
  - split; [|exact Hlen]. rewrite Htext, length_app.
    destruct Hkw as [-> | ->]; cbn; lia.
  - rewrite Htext. intros [_ Hd].
    destruct Hkw as [-> | ->]; apply Forall_cons in Hd as [Hd _]; discriminate Hd.
Qed.

Lemma bare_chapter_line_needs_bold_witness :
  is_likely_heading (Sample.text_line (lit "Chapter 1")) = false.
Proof.
  apply (bare_chapter_line_needs_bold (Sample.text_line (lit "Chapter 1"))
           (lit "Chapter") (lit " ") (lit "1")).
  - now left.
  - split; [discriminate|repeat constructor].
  - right. split; [discriminate|repeat constructor].
  - reflexivity.
  - cbn. lia.
Defined.
